(** * py-solc-x: version selection, installation and output normalisation

    A shallow embedding of [solcx/install.py] and [solcx/main.py].
    Python functions keep their names.  A function that can raise returns
    a [Res]; a function that touches the file system, the module global
    [solc_version], the install lock or the network runs in the monad [M]
    over an explicit [World]. *)

From Stdlib Require Import String Ascii List Bool Arith NArith ZArith Lia.
From Stdlib Require Import DecimalString Permutation.
From Stdlib Require DecimalFacts DecimalPos DecimalN Sorted.
Import ListNotations.
Local Open Scope list_scope.
Local Open Scope string_scope.

(* ===================================================================== *)
(** ** Exceptions and results *)
(* ===================================================================== *)

(** The exception classes the two modules raise or let through.  The
    payload is the part of the exception the callers or the claims look
    at: the message for the package's own exceptions, the offending key or
    attribute for the interpreter's. *)
Inductive exn : Type :=
| ValueError (msg : string)
| TypeError
| KeyError (key : string)
| AttributeError (attr : string)
| JSONDecodeError
| SolcError (message : string)
| ContractsNotFound
| SolcNotInstalled (msg : string)
| DownloadError (msg : string)
| CalledProcessError (returncode : nat)
| OSError (msg : string)
| FileNotFoundError
| FileExistsError
| PermissionError
| ConnectionError (msg : string).

Inductive Res (A : Type) : Type :=
| Ok (a : A)
| Raise (e : exn).
Arguments Ok {A} a.
Arguments Raise {A} e.

Definition rbind {A B} (r : Res A) (k : A -> Res B) : Res B :=
  match r with
  | Ok a => k a
  | Raise e => Raise e
  end.

Declare Scope res_scope.
Delimit Scope res_scope with res.
Notation "'let?' x ':=' c 'in' k" := (rbind c (fun x => k))
  (at level 10, x pattern, c at level 100, k at level 200) : res_scope.

Definition is_ok {A} (r : Res A) : bool :=
  match r with Ok _ => true | Raise _ => false end.

(* ===================================================================== *)
(** ** Python string operations *)
(* ===================================================================== *)

Module Str.

(** [\d], on the ASCII strings of the model. *)
Definition is_digit (c : ascii) : bool :=
  (48 <=? nat_of_ascii c)%nat && (nat_of_ascii c <=? 57)%nat.

(** [s.lstrip(c)]: every leading [c] goes. *)
Fixpoint lstrip (c : ascii) (s : string) : string :=
  match s with
  | String a r => if Ascii.eqb a c then lstrip c r else s
  | EmptyString => EmptyString
  end.

(** [s.startswith(p)]. *)
Definition startswith (s p : string) : bool := String.prefix p s.

(** [s.index(needle)]: offset of the first occurrence; [None] stands
    for the [ValueError] Python raises when there is none. *)
Fixpoint index (needle s : string) : option nat :=
  if String.prefix needle s then Some 0
  else match s with
       | String _ r => option_map S (index needle r)
       | EmptyString => None
       end.

(** [needle in s] for two strings. *)
Definition contains (needle s : string) : bool :=
  match index needle s with Some _ => true | None => false end.

(** [s[i:j]] for non-negative [i] and [j]. *)
Definition slice (s : string) (i j : nat) : string :=
  String.substring i (j - i) s.

(** [s.partition(sep)[2]] for a one-character separator: what follows
    the first [sep], empty when there is none. *)
Fixpoint after_first (sep : ascii) (s : string) : string :=
  match s with
  | String a r => if Ascii.eqb a sep then r else after_first sep r
  | EmptyString => EmptyString
  end.

(** [s.replace(c, "")] for a one-character [c]. *)
Fixpoint remove_char (c : ascii) (s : string) : string :=
  match s with
  | String a r =>
      if Ascii.eqb a c then remove_char c r else String a (remove_char c r)
  | EmptyString => EmptyString
  end.

(** [s.split("||")]: cut at each non-overlapping "||", left to right. *)
Fixpoint split_bars (s : string) (cur : string) : list string :=
  match s with
  | String "|" (String "|" r) => cur :: split_bars r ""
  | String a r => split_bars r (cur ++ String a "")
  | EmptyString => [cur]
  end.

(** [s.rsplit(":", maxsplit=1)[0]]: what precedes the last ':', the
    whole string when there is none. *)
Fixpoint has_char (c : ascii) (s : string) : bool :=
  match s with
  | String a r => Ascii.eqb a c || has_char c r
  | EmptyString => false
  end.

Fixpoint before_last (c : ascii) (s : string) : string :=
  match s with
  | String a r =>
      if has_char c r then String a (before_last c r)
      else if Ascii.eqb a c then EmptyString
      else s
  | EmptyString => EmptyString
  end.

(** Longest prefix of decimal digits, and the rest. *)
Fixpoint span_digits (s : string) : string * string :=
  match s with
  | String a r =>
      if is_digit a then
        let (d, rest) := span_digits r in (String a d, rest)
      else (EmptyString, s)
  | EmptyString => (EmptyString, EmptyString)
  end.

(** [sep.join(items)]. *)
Definition join (sep : string) (items : list string) : string :=
  String.concat sep items.

Definition of_N (n : N) : string :=
  NilEmpty.string_of_uint (N.to_uint n).

(** [s[n:]] for a non-negative [n]. *)
Fixpoint drop (n : nat) (s : string) : string :=
  match n, s with
  | S n', String _ r => drop n' r
  | _, _ => s
  end.

(** [s.lower()], on the ASCII strings of the model. *)
Definition lower_char (c : ascii) : ascii :=
  if (65 <=? nat_of_ascii c)%nat && (nat_of_ascii c <=? 90)%nat
  then ascii_of_nat (nat_of_ascii c + 32) else c.

Fixpoint lower (s : string) : string :=
  match s with
  | String a r => String (lower_char a) (lower r)
  | EmptyString => EmptyString
  end.

(** [s.replace(old, new)] for a non-empty [old]: the non-overlapping
    occurrences, found from the left. *)
Fixpoint replace_from (fuel : nat) (old new s : string) : string :=
  match fuel with
  | O => s
  | S fuel' =>
      if String.prefix old s
      then new ++ replace_from fuel' old new (drop (String.length old) s)
      else match s with
           | String a r => String a (replace_from fuel' old new r)
           | EmptyString => EmptyString
           end
  end.

Definition replace (old new s : string) : string :=
  replace_from (S (String.length s)) old new s.

(** What [str.strip()] takes for white space among the ASCII
    characters: tab to carriage return, the four separators and the
    blank. *)
Definition is_space (c : ascii) : bool :=
  let n := nat_of_ascii c in
  ((9 <=? n)%nat && (n <=? 13)%nat) || ((28 <=? n)%nat && (n <=? 32)%nat).

Fixpoint lstrip_space (s : string) : string :=
  match s with
  | String a r => if is_space a then lstrip_space r else s
  | EmptyString => EmptyString
  end.

Fixpoint all_space (s : string) : bool :=
  match s with
  | String a r => is_space a && all_space r
  | EmptyString => true
  end.

Fixpoint rstrip_space (s : string) : string :=
  match s with
  | String a r => if all_space s then EmptyString else String a (rstrip_space r)
  | EmptyString => EmptyString
  end.

(** [s.strip()]. *)
Definition strip (s : string) : string := rstrip_space (lstrip_space s).

(** [sorted(items)] on strings, which Python orders by code point.  The
    order is total and equal strings are the same string, so every
    sorting algorithm gives the one sorted list. *)
Fixpoint insert_sorted (x : string) (l : list string) : list string :=
  match l with
  | [] => [x]
  | y :: r => if String.leb x y then x :: l else y :: insert_sorted x r
  end.

Fixpoint sorted (l : list string) : list string :=
  match l with
  | [] => []
  | x :: r => insert_sorted x (sorted r)
  end.

End Str.

(* ===================================================================== *)
(** ** The semantic_version package *)
(* ===================================================================== *)

(** [install.py] and [main.py] import [Version] and [SimpleSpec] from the
    semantic_version package (2.8).  A version is its three numbers, its
    prerelease identifiers and its build identifiers.  Versions are
    ordered by precedence, which leaves the build identifiers out;
    equality looks at all five parts. *)
Module SemVer.

Record Version : Type := Version_of {
  major : N;
  minor : N;
  patch : N;
  prerelease : list string;
  build : list string
}.

(** A release version: no prerelease part, no build metadata. *)
Definition mkVersion (major minor patch : N) : Version :=
  Version_of major minor patch [] [].

Definition release (v : Version) : bool :=
  match prerelease v, build v with
  | [], [] => true
  | _, _ => false
  end.

Definition digit_val (c : ascii) : N := N.of_nat (nat_of_ascii c - 48).

Fixpoint digits_val (acc : N) (d : string) : N :=
  match d with
  | String c r => digits_val (10 * acc + digit_val c) r
  | EmptyString => acc
  end.

Fixpoint all_digits (d : string) : bool :=
  match d with
  | String c r => Str.is_digit c && all_digits r
  | EmptyString => true
  end.

(** A numeric component: one or more digits, no superfluous leading
    zero (the package rejects "01"). *)
Definition parse_number (d : string) : option N :=
  match d with
  | EmptyString => None
  | String "0" (String _ _) => None
  | _ => if all_digits d then Some (digits_val 0 d) else None
  end.

(** The class [[0-9a-zA-Z.-]] of the prerelease and build parts. *)
Definition is_alpha (c : ascii) : bool :=
  let n := nat_of_ascii c in
  ((65 <=? n)%nat && (n <=? 90)%nat) || ((97 <=? n)%nat && (n <=? 122)%nat).

Definition suffix_char (c : ascii) : bool :=
  Str.is_digit c || is_alpha c || Ascii.eqb c "." || Ascii.eqb c "-".

Fixpoint span_suffix (s : string) : string * string :=
  match s with
  | String a r =>
      if suffix_char a then
        let (d, rest) := span_suffix r in (String a d, rest)
      else (EmptyString, s)
  | EmptyString => (EmptyString, EmptyString)
  end.

(** The optional groups [(?:-([0-9a-zA-Z.-]+))?] and
    [(?:\+([0-9a-zA-Z.-]+))?] of the version pattern: the marker and one
    or more characters of the class, or nothing. *)
Definition optional_part (marker : ascii) (s : string)
  : option string * string :=
  match s with
  | String c r =>
      if Ascii.eqb c marker
      then match span_suffix r with
           | (EmptyString, _) => (None, s)
           | (body, rest) => (Some body, rest)
           end
      else (None, s)
  | EmptyString => (None, s)
  end.

(** [s.split(".")]. *)
Fixpoint split_dots (s : string) (cur : string) : list string :=
  match s with
  | String "." r => cur :: split_dots r ""
  | String a r => split_dots r (cur ++ String a "")
  | EmptyString => [cur]
  end.

(** An identifier with a superfluous leading zero: digits only, the
    first one a zero, and more than one of them. *)
Definition leading_zero (item : string) : bool :=
  match item with
  | String "0" (String _ _) => all_digits item
  | _ => false
  end.

(** No identifier is empty; a prerelease identifier has no leading zero
    either, a build identifier may have one. *)
Fixpoint valid_identifiers (allow_leading_zeroes : bool) (items : list string)
  : bool :=
  match items with
  | [] => true
  | item :: r =>
      negb (String.eqb item "")
      && (allow_leading_zeroes || negb (leading_zero item))
      && valid_identifiers allow_leading_zeroes r
  end.

(** A character of an identifier: the class of the version pattern
    without the dot. *)
Definition identifier_char (c : ascii) : bool :=
  suffix_char c && negb (Ascii.eqb c ".").

Fixpoint all_chars (f : ascii -> bool) (s : string) : bool :=
  match s with
  | String c r => f c && all_chars f r
  | EmptyString => true
  end.

(** What [Version] accepts as a list of identifiers. *)
Definition well_formed (allow_leading_zeroes : bool) (items : list string)
  : bool :=
  valid_identifiers allow_leading_zeroes items
  && forallb (all_chars identifier_char) items.

Definition identifiers (part : option string) : list string :=
  match part with
  | Some text => split_dots text ""
  | None => []
  end.

(** [Version(s)]: [None] stands for the [ValueError] of the package.
    The pattern is
    [^(\d+)\.(\d+)\.(\d+)(?:-([0-9a-zA-Z.-]+))?(?:\+([0-9a-zA-Z.-]+))?$],
    whose [$] also matches in front of a line feed that ends the text. *)
Definition parse (s : string) : option Version :=
  let (a, r1) := Str.span_digits s in
  match r1 with
  | String "." r1' =>
      let (b, r2) := Str.span_digits r1' in
      match r2 with
      | String "." r2' =>
          let (c, r3) := Str.span_digits r2' in
          let (pre, r4) := optional_part "-" r3 in
          let (bld, r5) := optional_part "+" r4 in
          if String.eqb r5 "" || String.eqb r5 (String "010" "")
          then
            match parse_number a, parse_number b, parse_number c with
            | Some x, Some y, Some z =>
                if valid_identifiers false (identifiers pre)
                   && valid_identifiers true (identifiers bld)
                then Some (Version_of x y z (identifiers pre) (identifiers bld))
                else None
            | _, _, _ => None
            end
          else None
      | _ => None
      end
  | _ => None
  end.

(** [str(v)]. *)
Definition to_string (v : Version) : string :=
  Str.of_N (major v) ++ "." ++ Str.of_N (minor v) ++ "." ++ Str.of_N (patch v)
  ++ match prerelease v with
     | [] => ""
     | p => "-" ++ Str.join "." p
     end
  ++ match build v with
     | [] => ""
     | b => "+" ++ Str.join "." b
     end.

(** *** Precedence *)

(** A prerelease identifier made of digits counts as a number. *)
Definition numeric (item : string) : bool :=
  negb (String.eqb item "") && all_digits item.

(** Numbers by value, other identifiers by their characters, and a
    number below every other identifier. *)
Definition identifier_compare (x y : string) : comparison :=
  match numeric x, numeric y with
  | true, true => N.compare (digits_val 0 x) (digits_val 0 y)
  | true, false => Lt
  | false, true => Gt
  | false, false => String.compare x y
  end.

Fixpoint identifiers_compare (p q : list string) : comparison :=
  match p, q with
  | [], [] => Eq
  | [], _ :: _ => Lt
  | _ :: _, [] => Gt
  | x :: p', y :: q' =>
      match identifier_compare x y with
      | Eq => identifiers_compare p' q'
      | c => c
      end
  end.

(** The last component of the precedence key: a version without
    prerelease part ranks above every prerelease of its numbers. *)
Definition prerelease_compare (p q : list string) : comparison :=
  match p, q with
  | [], [] => Eq
  | [], _ :: _ => Gt
  | _ :: _, [] => Lt
  | _, _ => identifiers_compare p q
  end.

(** Precedence: lexicographic on the three numbers and the prerelease
    key. *)
Definition compare (v w : Version) : comparison :=
  match N.compare (major v) (major w) with
  | Eq => match N.compare (minor v) (minor w) with
          | Eq => match N.compare (patch v) (patch w) with
                  | Eq => prerelease_compare (prerelease v) (prerelease w)
                  | c => c
                  end
          | c => c
          end
  | c => c
  end.

(** [v < w] and [v <= w]. *)
Definition ltb (v w : Version) : bool :=
  match compare v w with Lt => true | _ => false end.
Definition leb (v w : Version) : bool := negb (ltb w v).

Fixpoint identifiers_eqb (p q : list string) : bool :=
  match p, q with
  | [], [] => true
  | x :: p', y :: q' => String.eqb x y && identifiers_eqb p' q'
  | _, _ => false
  end.

(** [v == w]: all five parts. *)
Definition eqb (v w : Version) : bool :=
  N.eqb (major v) (major w) && N.eqb (minor v) (minor w)
  && N.eqb (patch v) (patch w)
  && identifiers_eqb (prerelease v) (prerelease w)
  && identifiers_eqb (build v) (build w).

(** *** SimpleSpec *)

Inductive Op : Type := OpEq | OpLt | OpLe | OpGt | OpGe | OpCaret.

(** One block of a [SimpleSpec] expression: an operator and a target.
    The blocks that [install.py] builds have release targets. *)
Record Clause : Type := mkClause { c_op : Op; c_target : Version }.

(** The operator prefix of a block; no prefix means equality. *)
Definition parse_op (s : string) : Op * string :=
  match s with
  | String "<" (String "=" r) => (OpLe, r)
  | String ">" (String "=" r) => (OpGe, r)
  | String "=" (String "=" r) => (OpEq, r)
  | String "<" r => (OpLt, r)
  | String ">" r => (OpGt, r)
  | String "=" r => (OpEq, r)
  | String "^" r => (OpCaret, r)
  | _ => (OpEq, s)
  end.

(** The target of a block [op major.minor.patch]: three numbers. *)
Definition parse_target (s : string) : option Version :=
  let (a, r1) := Str.span_digits s in
  match r1 with
  | String "." r1' =>
      let (b, r2) := Str.span_digits r1' in
      match r2 with
      | String "." r2' =>
          let (c, r3) := Str.span_digits r2' in
          match r3 with
          | EmptyString =>
              match parse_number a, parse_number b, parse_number c with
              | Some x, Some y, Some z => Some (mkVersion x y z)
              | _, _, _ => None
              end
          | _ => None
          end
      | _ => None
      end
  | _ => None
  end.

(** [SimpleSpec(block)] for a block [op major.minor.patch]; [None]
    stands for the [ValueError] of the package. *)
Definition parse_block (s : string) : option Clause :=
  let (o, r) := parse_op s in
  option_map (mkClause o) (parse_target r).

(** Upper end of a caret range: the leftmost non-zero component moves
    up by one. *)
Definition caret_high (t : Version) : Version :=
  if negb (N.eqb (major t) 0) then mkVersion (major t + 1) 0 0
  else if negb (N.eqb (minor t) 0) then mkVersion 0 (minor t + 1) 0
  else mkVersion 0 0 (patch t + 1).

(** [version.truncate("prerelease")]: the build identifiers go. *)
Definition without_build (v : Version) : Version :=
  Version_of (major v) (minor v) (patch v) (prerelease v) [].

(** A range [< t] with a release target [t]: a prerelease of [t] itself
    is below [t] in precedence but does not match. *)
Definition below (v t : Version) : bool :=
  match prerelease v with
  | _ :: _ =>
      if N.eqb (major v) (major t) && N.eqb (minor v) (minor t)
         && N.eqb (patch v) (patch t)
      then false else ltb v t
  | [] => ltb v t
  end.

(** [v in spec], for a target without prerelease part and build
    metadata: the candidate is compared without its build
    identifiers. *)
Definition matches (c : Clause) (v : Version) : bool :=
  let v := without_build v in
  match c_op c with
  | OpEq => eqb v (c_target c)
  | OpLt => below v (c_target c)
  | OpLe => leb v (c_target c)
  | OpGt => ltb (c_target c) v
  | OpGe => leb (c_target c) v
  | OpCaret => leb (c_target c) v && below v (caret_high (c_target c))
  end.

(** [max(options)]: the first greatest element. *)
Fixpoint maximum (best : Version) (vs : list Version) : Version :=
  match vs with
  | [] => best
  | v :: r => maximum (if ltb best v then v else best) r
  end.

(** [spec.select(versions)]: the greatest matching version, if any. *)
Definition select (c : Clause) (versions : list Version) : option Version :=
  match filter (matches c) versions with
  | [] => None
  | v :: r => Some (maximum v r)
  end.

End SemVer.

(* ===================================================================== *)
(** ** install.py, the pure part: version check and pragma selection *)
(* ===================================================================== *)

Module Pragma.

Import SemVer.

(** [comparator_regex = (([<>]?=?|\^)\d+\.\d+\.\d+)+].  The operator
    alternative is tried greedily; a failed digit run cannot be repaired
    by giving characters back, so one left-to-right pass decides. *)
Definition match_operator (s : string) : string * string :=
  match s with
  | String "<" (String "=" r) => ("<=", r)
  | String ">" (String "=" r) => (">=", r)
  | String "<" r => ("<", r)
  | String ">" r => (">", r)
  | String "=" r => ("=", r)
  | String "^" r => ("^", r)
  | _ => ("", s)
  end.

(** [\d+]. *)
Definition match_digits (s : string) : option (string * string) :=
  match Str.span_digits s with
  | (EmptyString, _) => None
  | (d, r) => Some (d, r)
  end.

(** One pass through the group [([<>]?=?|\^)\d+\.\d+\.\d+]: the text it
    consumed and what is left. *)
Definition match_comparator (s : string) : option (string * string) :=
  let (o, r0) := match_operator s in
  match match_digits r0 with
  | Some (a, String "." r1) =>
      match match_digits r1 with
      | Some (b, String "." r2) =>
          match match_digits r2 with
          | Some (c, r3) => Some (o ++ a ++ "." ++ b ++ "." ++ c, r3)
          | None => None
          end
      | _ => None
      end
  | _ => None
  end.

(** The whole pattern at the head of [s]: the group repeated as often
    as it matches.  Group 1 of a repeated group holds its last
    repetition, and that is what the result carries. *)
Fixpoint match_chain (fuel : nat) (s : string) : option (string * string) :=
  match fuel with
  | O => None
  | S fuel' =>
      match match_comparator s with
      | None => None
      | Some (item, r) =>
          match match_chain fuel' r with
          | Some later => Some later
          | None => Some (item, r)
          end
      end
  end.

(** [[i[0] for i in comparator_regex.findall(s)]]: group 1 of each
    non-overlapping match, scanning from the left. *)
Fixpoint findall_from (fuel : nat) (s : string) : list string :=
  match fuel with
  | O => []
  | S fuel' =>
      match match_chain (S (String.length s)) s with
      | Some (item, r) => item :: findall_from fuel' r
      | None =>
          match s with
          | String _ r => findall_from fuel' r
          | EmptyString => []
          end
      end
  end.

Definition findall (s : string) : list string :=
  findall_from (S (String.length s)) s.

(** [SimpleSpec] applied to the unpacked items: the constructor takes
    exactly one expression, so any other number of arguments is a
    [TypeError]. *)
Definition SimpleSpec (items : list string) : Res Clause :=
  match items with
  | [item] =>
      match parse_block item with
      | Some c => Ok c
      | None => Raise (ValueError "Invalid simple block")
      end
  | _ => Raise TypeError
  end.

(** The body of the [for comparator_set in comparator_set_range] loop,
    with the running [version]. *)
Fixpoint select_loop (comparator_set_range : list string)
         (version_list : list Version) (version : option Version)
  : Res (option Version) :=
  match comparator_set_range with
  | [] => Ok version
  | comparator_set :: rest =>
      (let? spec := SimpleSpec (findall comparator_set) in
       let version' :=
         match select spec version_list, version with
         | Some selected, None => Some selected
         | Some selected, Some v =>
             if ltb v selected then Some selected else Some v
         | None, _ => version
         end in
       select_loop rest version_list version')%res
  end.

Definition _select_pragma_version (pragma_string : string)
           (version_list : list Version) : Res (option string) :=
  let comparator_set_range :=
    Str.split_bars (Str.remove_char " " pragma_string) "" in
  (let? version := select_loop comparator_set_range version_list None in
   Ok (option_map to_string version))%res.

(** [SimpleSpec(">=0.4.11")]. *)
Definition minimal_spec : Clause := mkClause OpGe (mkVersion 0 4 11).

Definition _check_version (version : string) : Res string :=
  match parse (Str.lstrip "v" version) with
  | None => Raise (ValueError "Invalid version string")
  | Some v =>
      if negb (matches minimal_spec v)
      then Raise (ValueError "py-solc-x does not support solc versions <0.4.11")
      else Ok ("v" ++ to_string v)
  end.

End Pragma.

(* ===================================================================== *)
(** ** JSON values as Python sees them *)
(* ===================================================================== *)

Module Json.

#[local] Set Warnings "-register-all".

(** What [json.loads] builds.  A float is kept as mantissa and decimal
    exponent; an object keeps its keys in insertion order. *)
Inductive json : Type :=
| JNull
| JBool (b : bool)
| JInt (z : Z)
| JFloat (mantissa exponent : Z)
| JStr (s : string)
| JArr (items : list json)
| JObj (fields : list (string * json)).

Fixpoint assoc_get {A} (k : string) (l : list (string * A)) : option A :=
  match l with
  | [] => None
  | (k', v) :: r => if String.eqb k k' then Some v else assoc_get k r
  end.

(** [d[k] = v] on a dict: the value of an existing key is replaced where
    it stands, a new key goes to the end. *)
Fixpoint assoc_set {A} (k : string) (v : A) (l : list (string * A))
  : list (string * A) :=
  match l with
  | [] => [(k, v)]
  | (k', v') :: r =>
      if String.eqb k k' then (k', v) :: r else (k', v') :: assoc_set k v r
  end.

Definition has_key {A} (k : string) (l : list (string * A)) : bool :=
  match assoc_get k l with Some _ => true | None => false end.

(** Truth value of a Python object. *)
Definition truthy (v : json) : bool :=
  match v with
  | JNull => false
  | JBool b => b
  | JInt z => negb (Z.eqb z 0)
  | JFloat m _ => negb (Z.eqb m 0)
  | JStr s => negb (String.eqb s "")
  | JArr items => match items with [] => false | _ => true end
  | JObj fields => match fields with [] => false | _ => true end
  end.

(** [v == s] for a string literal [s]. *)
Definition str_eq (v : json) (s : string) : bool :=
  match v with
  | JStr t => String.eqb t s
  | _ => false
  end.

Definition chars (s : string) : list json :=
  map (fun c => JStr (String c EmptyString)) (list_ascii_of_string s).

(** [k in v]. *)
Definition py_in (k : string) (v : json) : Res bool :=
  match v with
  | JObj fields => Ok (has_key k fields)
  | JArr items => Ok (existsb (fun x => str_eq x k) items)
  | JStr s => Ok (Str.contains k s)
  | _ => Raise TypeError
  end.

(** [v[k]] for a string key. *)
Definition py_getitem (v : json) (k : string) : Res json :=
  match v with
  | JObj fields =>
      match assoc_get k fields with
      | Some x => Ok x
      | None => Raise (KeyError k)
      end
  | _ => Raise TypeError
  end.

(** [v[k] = x] for a string key. *)
Definition py_setitem (v : json) (k : string) (x : json) : Res json :=
  match v with
  | JObj fields => Ok (JObj (assoc_set k x fields))
  | _ => Raise TypeError
  end.

(** [v.get(k, default)]. *)
Definition py_get (v : json) (k : string) (default : json) : Res json :=
  match v with
  | JObj fields =>
      match assoc_get k fields with
      | Some x => Ok x
      | None => Ok default
      end
  | _ => Raise (AttributeError "get")
  end.

(** [v.items()]. *)
Definition py_items (v : json) : Res (list (string * json)) :=
  match v with
  | JObj fields => Ok fields
  | _ => Raise (AttributeError "items")
  end.

(** [iter(v)]. *)
Definition py_iter (v : json) : Res (list json) :=
  match v with
  | JArr items => Ok items
  | JObj fields => Ok (map (fun kv => JStr (fst kv)) fields)
  | JStr s => Ok (chars s)
  | _ => Raise TypeError
  end.

(** [sep.join(items)]: every item has to be a string. *)
Fixpoint strings_of (items : list json) : Res (list string) :=
  match items with
  | [] => Ok []
  | JStr s :: r => (let? rest := strings_of r in Ok (s :: rest))%res
  | _ :: _ => Raise TypeError
  end.

Definition py_join (sep : string) (items : list json) : Res string :=
  (let? l := strings_of items in Ok (Str.join sep l))%res.

End Json.

(* ===================================================================== *)
(** ** main.py *)
(* ===================================================================== *)

Module Main.

Import Json.

Definition LF : ascii := ascii_of_nat 10.
Definition newline : string := String LF EmptyString.

(** What [solc_wrapper] hands back. *)
Record WrapperResult : Type := mkWrapperResult {
  stdoutdata : string;
  stderrdata : string;
  command : list string;
  returncode : Z
}.

(** Keyword arguments, in the order they were written. *)
Definition kwargs := list (string * json).

(** What [main.py] imports: the [json] module and the package's
    [solc_wrapper], which runs the compiler with the given keyword
    arguments and raises [SolcError] on a failing exit status. *)
Class Toolchain : Type := {
  json_loads : string -> Res json;
  json_dumps : json -> string;
  solc_wrapper : kwargs -> Res WrapperResult
}.

Section WithToolchain.

Context {T : Toolchain}.

(** [f(name=value, **kwargs)]: a keyword given twice is a
    [TypeError]. *)
Fixpoint call_kwargs (fixed : kwargs) (extra : kwargs) : Res kwargs :=
  match fixed with
  | [] => Ok extra
  | (k, v) :: r =>
      if has_key k extra then Raise TypeError
      else (let? rest := call_kwargs r extra in Ok ((k, v) :: rest))%res
  end.

(** [json.loads(v)] on a Python value: only text can be parsed. *)
Definition loads_value (v : json) : Res json :=
  match v with
  | JStr s => json_loads s
  | _ => Raise TypeError
  end.

Definition get_solc_version_string (kw : kwargs) : Res string :=
  (let? args := call_kwargs [("version", JBool true)] kw in
   let? out := solc_wrapper args in
   let version_str := Str.after_first LF (stdoutdata out) in
   if String.eqb version_str "" || negb (Str.startswith version_str "Version: ")
   then Raise (SolcError "Unable to extract version string from command output")
   else
     match Str.index "Version: " version_str, Str.index "+" version_str with
     | Some i, Some j => Ok (Str.slice version_str (i + 9) j)
     | _, _ => Raise (ValueError "substring not found")
     end)%res.

Definition get_solc_version (kw : kwargs) : Res SemVer.Version :=
  (let? version_str := get_solc_version_string kw in
   match SemVer.parse version_str with
   | Some v => Ok v
   | None => Raise (ValueError "Invalid version string")
   end)%res.

(** The body of [for path_str, data in contracts.items()]; the dict
    [data] is updated where it sits in [contracts]. *)
Definition parse_entry (sources : json) (path_str : string) (data : json)
  : Res json :=
  (let? has_abi := py_in "abi" data in
   let? data1 :=
     (if has_abi
      then (let? raw := py_getitem data "abi" in
            let? abi := loads_value raw in
            py_setitem data "abi" abi)
      else Ok data) in
   let key := Str.before_last ":" path_str in
   let? source := py_get sources key (JObj []) in
   let? has_ast := py_in "AST" source in
   if has_ast
   then (let? entry := py_getitem sources key in
         let? ast := py_getitem entry "AST" in
         py_setitem data1 "ast" ast)
   else Ok data1)%res.

Fixpoint parse_loop (sources : json) (items : list (string * json))
  : Res (list (string * json)) :=
  match items with
  | [] => Ok []
  | (path_str, data) :: r =>
      (let? data' := parse_entry sources path_str data in
       let? rest := parse_loop sources r in
       Ok ((path_str, data') :: rest))%res
  end.

Definition _parse_compiler_output (stdout : string) : Res json :=
  (let? output := json_loads stdout in
   let? contracts := py_get output "contracts" (JObj []) in
   let? sources := py_get output "sources" (JObj []) in
   let? items := py_items contracts in
   let? items' := parse_loop sources items in
   Ok (JObj items'))%res.

Definition ALL_OUTPUT_VALUES : list string :=
  ["abi"; "asm"; "ast"; "bin"; "bin-runtime"; "clone-bin"; "devdoc";
   "opcodes"; "userdoc"].

Definition compile_source (source : string) (allow_empty : bool)
           (output_values : list string) (kw : kwargs) : Res json :=
  if has_key "stdin" kw
  then Raise (ValueError
    "The `stdin` keyword is not allowed in the `compile_source` function")
  else if has_key "combined_json" kw
  then Raise (ValueError
    "The `combined_json` keyword is not allowed in the `compile_source` function")
  else
    (let combined_json := Str.join "," output_values in
     let? compiler_kwargs :=
       call_kwargs [("stdin", JStr source);
                    ("combined_json", JStr combined_json)] kw in
     let? out := solc_wrapper compiler_kwargs in
     let? contracts := _parse_compiler_output (stdoutdata out) in
     if negb (truthy contracts) && negb allow_empty
     then Raise ContractsNotFound
     else Ok contracts)%res.

Definition compile_files (source_files : list string) (allow_empty : bool)
           (output_values : list string) (kw : kwargs) : Res json :=
  if has_key "combined_json" kw
  then Raise (ValueError
    "The `combined_json` keyword is not allowed in the `compile_files` function")
  else
    (let combined_json := Str.join "," output_values in
     let? compiler_kwargs :=
       call_kwargs [("source_files", JArr (map JStr source_files));
                    ("combined_json", JStr combined_json)] kw in
     let? out := solc_wrapper compiler_kwargs in
     let? contracts := _parse_compiler_output (stdoutdata out) in
     if negb (truthy contracts) && negb allow_empty
     then Raise ContractsNotFound
     else Ok contracts)%res.

(** [any(error["severity"] == "error" for error in errors)]: stops at
    the first hit. *)
Fixpoint any_error (errors : list json) : Res bool :=
  match errors with
  | [] => Ok false
  | error :: r =>
      (let? severity := py_getitem error "severity" in
       if str_eq severity "error" then Ok true else any_error r)%res
  end.

(** [tuple(error["formattedMessage"] for error in errors
          if error["severity"] == "error")]. *)
Fixpoint error_messages (errors : list json) : Res (list json) :=
  match errors with
  | [] => Ok []
  | error :: r =>
      (let? severity := py_getitem error "severity" in
       if str_eq severity "error"
       then (let? m := py_getitem error "formattedMessage" in
             let? rest := error_messages r in
             Ok (m :: rest))
       else error_messages r)%res
  end.

Definition compile_standard (input_data : json) (allow_empty : bool)
           (kw : kwargs) : Res json :=
  (let? sources := py_get input_data "sources" JNull in
   if negb (truthy sources) && negb allow_empty
   then Raise ContractsNotFound
   else
     let? args :=
       call_kwargs [("stdin", JStr (json_dumps input_data));
                    ("standard_json", JBool true)] kw in
     let? out := solc_wrapper args in
     let? compiler_output := json_loads (stdoutdata out) in
     let? has := py_in "errors" compiler_output in
     if has
     then
       (let? errors := py_getitem compiler_output "errors" in
        let? errors1 := py_iter errors in
        let? has_errors := any_error errors1 in
        if has_errors
        then
          (let? errors2 := py_iter errors in
           let? messages := error_messages errors2 in
           let? error_message := py_join newline messages in
           Raise (SolcError error_message))
        else Ok compiler_output)
     else Ok compiler_output)%res.

(** [":".join((lib_name, lib_address)) for lib_name, lib_address in
    libraries.items()]. *)
Fixpoint library_args (items : list (string * json)) : Res (list string) :=
  match items with
  | [] => Ok []
  | (lib_name, lib_address) :: r =>
      (let? arg := py_join ":" [JStr lib_name; lib_address] in
       let? rest := library_args r in
       Ok (arg :: rest))%res
  end.

Definition link_code (unlinked_bytecode : string) (libraries : json)
  : Res string :=
  (let? items := py_items libraries in
   let? args := library_args items in
   let libraries_arg := Str.join "," args in
   let? out :=
     solc_wrapper [("stdin", JStr unlinked_bytecode); ("link", JBool true);
                   ("libraries", JStr libraries_arg)] in
   Ok (Str.strip (Str.replace "Linking completed." "" (stdoutdata out))))%res.

End WithToolchain.

(** *** Linked code, for stating what [link_code] returns *)

(** No character of [s] is white space or the letter that begins the
    compiler's closing line. *)
Definition plain_code (s : string) : bool :=
  forallb (fun c => negb (Str.is_space c) && negb (Ascii.eqb c "L"))
          (list_ascii_of_string s).

(** *** Diagnostics, for stating what [compile_standard] reports *)

Definition field (name : string) (v : json) : option json :=
  match v with
  | JObj fields => assoc_get name fields
  | _ => None
  end.

(** An entry of the [errors] array whose severity is "error". *)
Definition is_error (entry : json) : bool :=
  match field "severity" entry with
  | Some v => str_eq v "error"
  | None => false
  end.

(** The [formattedMessage] of an entry. *)
Definition formatted (entry : json) : string :=
  match field "formattedMessage" entry with
  | Some (JStr m) => m
  | _ => EmptyString
  end.

(** A diagnostic as the compiler emits it: an object with a severity,
    and with a textual [formattedMessage] when the severity is
    "error". *)
Definition diagnostic (entry : json) : bool :=
  match field "severity" entry with
  | Some v =>
      if str_eq v "error"
      then match field "formattedMessage" entry with
           | Some (JStr _) => true
           | _ => false
           end
      else true
  | None => false
  end.

End Main.

(* ===================================================================== *)
(** ** The file system *)
(* ===================================================================== *)

Module FS.

#[local] Set Warnings "-register-all".

(** A path is the list of its components below the root. *)
Definition path := list string.

Inductive node : Type :=
| File (content : string) (executable : bool)
| Dir (entries : list (string * node)).

Definition path_str (p : path) : string :=
  String.concat "" (map (fun c => "/" ++ c) p).

Fixpoint entry_get (k : string) (l : list (string * node)) : option node :=
  match l with
  | [] => None
  | (k', v) :: r => if String.eqb k k' then Some v else entry_get k r
  end.

(** Replace, add or (with [None]) drop the entry named [k]. *)
Fixpoint entry_put (k : string) (v : option node) (l : list (string * node))
  : list (string * node) :=
  match l with
  | [] => match v with Some x => [(k, x)] | None => [] end
  | (k', v') :: r =>
      if String.eqb k k'
      then match v with Some x => (k', x) :: r | None => entry_put k None r end
      else (k', v') :: entry_put k v r
  end.

(** The node at [p] below [n]. *)
Fixpoint lookup (n : node) (p : path) : option node :=
  match p with
  | [] => Some n
  | c :: p' =>
      match n with
      | Dir entries =>
          match entry_get c entries with
          | Some child => lookup child p'
          | None => None
          end
      | File _ _ => None
      end
  end.

(** Put [v] at [p] (or remove what is there); [None] when the parent of
    [p] is not an existing directory, or [p] is the root. *)
Fixpoint put (n : node) (p : path) (v : option node) : option node :=
  match p with
  | [] => None
  | c :: p' =>
      match n with
      | Dir entries =>
          match p' with
          | [] => Some (Dir (entry_put c v entries))
          | _ :: _ =>
              match entry_get c entries with
              | Some child =>
                  match put child p' v with
                  | Some child' => Some (Dir (entry_put c (Some child') entries))
                  | None => None
                  end
              | None => None
              end
          end
      | File _ _ => None
      end
  end.

(** [p.joinpath(...)]. *)
Definition joinpath (p : path) (parts : list string) : path :=
  (p ++ parts)%list.

Definition exists_ (n : node) (p : path) : bool :=
  match lookup n p with Some _ => true | None => false end.

Definition is_dir (n : node) (p : path) : bool :=
  match lookup n p with Some (Dir _) => true | _ => false end.

End FS.

(* ===================================================================== *)
(** ** Regular expressions, the fragment of the asset patterns *)
(* ===================================================================== *)

Module Re.

(** What the patterns of [VERSION_REGEX] are made of. *)
Inductive Atom : Type :=
| Lit (c : ascii)
| AnyChar
| Digit
| Digits.

(** The pattern syntax: [.] is any character, [[0-9]] a digit,
    [[0-9]{1,}] one digit or more, anything else stands for itself. *)
Fixpoint compile (pattern : string) : list Atom :=
  match pattern with
  | String "[" (String "0" (String "-" (String "9" (String "]"
      (String "{" (String "1" (String "," (String "}" r)))))))) =>
      Digits :: compile r
  | String "[" (String "0" (String "-" (String "9" (String "]" r)))) =>
      Digit :: compile r
  | String "." r => AnyChar :: compile r
  | String c r => Lit c :: compile r
  | EmptyString => []
  end.

(** One character against one atom; [.] takes anything but a line
    feed. *)
Definition accepts (a : Atom) (c : ascii) : bool :=
  match a with
  | Lit x => Ascii.eqb c x
  | AnyChar => negb (Ascii.eqb c Main.LF)
  | Digit => Str.is_digit c
  | Digits => Str.is_digit c
  end.

(** [re.match(pattern, s)] as a truth value: the pattern matches at the
    start of [s], whatever follows.  A run of digits may end after any
    of its digits. *)
Fixpoint matches (p : list Atom) : string -> bool :=
  match p with
  | [] => fun _ => true
  | Digits :: p' =>
      fix run (s : string) : bool :=
        match s with
        | String c r => Str.is_digit c && (run r || matches p' r)
        | EmptyString => false
        end
  | a :: p' =>
      fun s =>
        match s with
        | String c r => accepts a c && matches p' r
        | EmptyString => false
        end
  end.

End Re.

(* ===================================================================== *)
(** ** install.py, the stateful part *)
(* ===================================================================== *)

Module Install.

Import FS Pragma.

(** A chunk of a streamed body: bytes, or text when the response has an
    encoding to decode with. *)
Inductive Chunk : Type :=
| BytesChunk (data : string)
| TextChunk (data : string).

(** What [requests.get] returns, as far as [_download_solc] looks at
    it: [content_length] is the value of
    [int(response.headers.get("content-length", 0))], [None] when the
    header is no number and [int] raises [ValueError]; [chunks] is what
    [iter_content(1024, decode_unicode=True)] yields. *)
Record Response : Type := mkResponse {
  status_code : nat;
  content : string;
  content_length : option Z;
  chunks : list Chunk
}.

(** Attribute access on a response, rendered as in an f-string.  A
    [requests.Response] has [status_code], [url] and [reason] among its
    attributes; it has none called [status_url]. *)
Definition Response_attr (url : string) (r : Response) (name : string)
  : Res string :=
  if String.eqb name "status_code" then Ok (Str.of_N (N.of_nat (status_code r)))
  else if String.eqb name "url" then Ok url
  else Raise (AttributeError name).

(** What the process did, oldest event last. *)
Inductive Event : Type :=
| EvGet (url : string)
| EvExec (command : list string)
| EvLockBlocked (lock : string)
| EvLockWaited (lock : string)
| EvLockAcquired (lock : string)
| EvLockReleased (lock : string).

Record World : Type := mkWorld {
  fs : node;
  cwd : path;
  solc_version : option string;
  held : list string;
  trace : list Event
}.

(** The host the package runs on. *)
Class Host : Type := {
  sys_platform : string;
  getenv_binary_path : option path;
  home : path;
  gettempdir : path;
  getpid : N;
  requests_get : string -> Res Response;
  tqdm_imported : bool;
  subprocess_run : list string -> path -> node -> Res nat * node;
  subprocess_output : list string -> path -> node -> Res string;
  unzip : string -> Res (list (string * node));
  untar : string -> Res (list (string * node))
}.

(** *** The monad: state and exceptions *)

Definition M (A : Type) : Type := World -> Res A * World.

Definition ret {A} (a : A) : M A := fun w => (Ok a, w).

Definition raise {A} (e : exn) : M A := fun w => (Raise e, w).

Definition lift {A} (r : Res A) : M A := fun w => (r, w).

Definition bind {A B} (m : M A) (k : A -> M B) : M B :=
  fun w =>
    match m w with
    | (Ok a, w') => k a w'
    | (Raise e, w') => (Raise e, w')
    end.

Declare Scope m_scope.
Delimit Scope m_scope with M.
Notation "x <- c ;; k" := (bind c (fun x => k))
  (at level 61, c at next level, right associativity) : m_scope.
Notation "c ;; k" := (bind c (fun _ => k))
  (at level 61, right associativity) : m_scope.
Local Open Scope m_scope.

(** [try: body finally: cleanup]. *)
Definition try_finally {A} (body : M A) (cleanup : M unit) : M A :=
  fun w =>
    let (r, w1) := body w in
    match cleanup w1 with
    | (Ok _, w2) => (r, w2)
    | (Raise e, w2) => (Raise e, w2)
    end.

(** [try: body except CalledProcessError as e: handler(e)]. *)
Definition except_CalledProcessError {A} (body : M A) (handler : nat -> M A)
  : M A :=
  fun w =>
    match body w with
    | (Raise (CalledProcessError code), w1) => handler code w1
    | other => other
    end.

Definition get_world : M World := fun w => (Ok w, w).

Definition log (e : Event) : M unit :=
  fun w => (Ok tt, mkWorld (fs w) (cwd w) (solc_version w) (held w) (e :: trace w)).

Definition set_fs (n : node) : M unit :=
  fun w => (Ok tt, mkWorld n (cwd w) (solc_version w) (held w) (trace w)).

Definition set_cwd (p : path) : M unit :=
  fun w => (Ok tt, mkWorld (fs w) p (solc_version w) (held w) (trace w)).

Definition set_global_solc_version (v : option string) : M unit :=
  fun w => (Ok tt, mkWorld (fs w) (cwd w) v (held w) (trace w)).

Definition set_held (l : list string) : M unit :=
  fun w => (Ok tt, mkWorld (fs w) (cwd w) (solc_version w) l (trace w)).

(** Number of network requests in a trace. *)
Fixpoint downloads (t : list Event) : nat :=
  match t with
  | [] => 0
  | EvGet _ :: r => S (downloads r)
  | _ :: r => downloads r
  end.

(** Number of attempts to take a lock in a trace. *)
Fixpoint lock_attempts (t : list Event) : nat :=
  match t with
  | [] => 0
  | EvLockBlocked _ :: r => S (lock_attempts r)
  | EvLockAcquired _ :: r => S (lock_attempts r)
  | _ :: r => lock_attempts r
  end.

(** *** File-system calls *)

Definition path_exists (p : path) : M bool :=
  fun w => (Ok (exists_ (fs w) p), w).

(** Store [v] at [p]; the parent directory has to be there. *)
Definition write_node (p : path) (v : option node) : M unit :=
  fun w =>
    match put (fs w) p v with
    | Some n => set_fs n w
    | None => (Raise FileNotFoundError, w)
    end.

(** [p.mkdir(exist_ok=...)]. *)
Definition mkdir (exist_ok : bool) (p : path) : M unit :=
  fun w =>
    match lookup (fs w) p with
    | Some (Dir _) => if exist_ok then (Ok tt, w) else (Raise FileExistsError, w)
    | Some (File _ _) => (Raise FileExistsError, w)
    | None => write_node p (Some (Dir [])) w
    end.

(** [shutil.rmtree(str(p))]. *)
Definition rmtree (p : path) : M unit :=
  fun w =>
    match lookup (fs w) p with
    | Some (Dir _) => write_node p None w
    | Some (File _ _) => (Raise (OSError "Not a directory"), w)
    | None => (Raise FileNotFoundError, w)
    end.

(** [with open(p, "wb") as fp: fp.write(content)]. *)
Definition write_file (p : path) (content : string) : M unit :=
  fun w =>
    match lookup (fs w) p with
    | Some (Dir _) => (Raise (OSError "Is a directory"), w)
    | Some (File _ x) => write_node p (Some (File content x)) w
    | None => write_node p (Some (File content false)) w
    end.

(** [p.chmod(p.stat().st_mode | stat.S_IEXEC)]. *)
Definition _chmod_plus_x (executable_path : path) : M unit :=
  fun w =>
    match lookup (fs w) executable_path with
    | Some (File c _) => write_node executable_path (Some (File c true)) w
    | Some (Dir _) => (Ok tt, w)
    | None => (Raise FileNotFoundError, w)
    end.

(** [os.chdir(str(p))]. *)
Definition chdir (p : path) : M unit :=
  fun w =>
    if is_dir (fs w) p then set_cwd p w else (Raise FileNotFoundError, w).

(** [archive.extractall(dir)]: the top-level entries of the archive
    land in [dir]. *)
Fixpoint extract_into (dir : path) (entries : list (string * node)) : M unit :=
  match entries with
  | [] => ret tt
  | (name, n) :: r =>
      write_node (joinpath dir [name]) (Some n) ;; extract_into dir r
  end.

(** *** The install lock *)

(** Modelled from the spec: [get_process_lock] and the lock it returns
    live in [utils/lock.py], which is not among the sources.  The spec
    describes "an exclusive, named, cross-process lock keyed by version
    string", taken with "a non-blocking try-acquire followed by a
    blocking wait for release fallback".  What the other processes do
    comes from outside as a script with one entry per attempt to take
    the lock: [Free] when no other process holds it, [Busy others] when
    one does, [others] being what the holders do to the file system
    until they release it.  An exhausted script means [Free]. *)
Inductive LockEvent : Type :=
| Free
| Busy (others : node -> node).

Definition get_process_lock (lock_id : string) : string := lock_id.

Definition drop_lock (lock : string) (l : list string) : list string :=
  filter (fun x => negb (String.eqb x lock)) l.

(** [lock.acquire(False)] returning [True]. *)
Definition lock_acquired (lock : string) : M unit :=
  w <- get_world ;;
  set_held (lock :: held w) ;;
  log (EvLockAcquired lock).

(** [lock.acquire(False)] returning [False]. *)
Definition lock_blocked (lock : string) : M unit :=
  log (EvLockBlocked lock).

(** [lock.wait()]. *)
Definition lock_wait (lock : string) (others : node -> node) : M unit :=
  w <- get_world ;;
  set_fs (others (fs w)) ;;
  log (EvLockWaited lock).

(** [lock.release()]. *)
Definition lock_release (lock : string) : M unit :=
  w <- get_world ;;
  set_held (drop_lock lock (held w)) ;;
  log (EvLockReleased lock).

Definition holds (w : World) (lock : string) : bool :=
  existsb (String.eqb lock) (held w).

Section WithHost.

Context {H : Host}.

(** [src.rename(dst)].  On Windows an existing target is an error; on
    the others a file silently replaces a file. *)
Definition rename (src dst : path) : M unit :=
  fun w =>
    match lookup (fs w) src with
    | None => (Raise FileNotFoundError, w)
    | Some n =>
        let clash :=
          match lookup (fs w) dst with
          | None => None
          | Some d =>
              if String.eqb sys_platform "win32" then Some FileExistsError
              else match n, d with
                   | File _ _, Dir _ => Some (OSError "Is a directory")
                   | Dir _, File _ _ => Some (OSError "Not a directory")
                   | Dir _, Dir (_ :: _) => Some (OSError "Directory not empty")
                   | _, _ => None
                   end
          end in
        match clash with
        | Some e => (Raise e, w)
        | None =>
            match put (fs w) src None with
            | Some without =>
                match put without dst (Some n) with
                | Some n' => set_fs n' w
                | None => (Raise FileNotFoundError, w)
                end
            | None => (Raise FileNotFoundError, w)
            end
        end
    end.

Definition DOWNLOAD_BASE (version name : string) : string :=
  "https://github.com/ethereum/solidity/releases/download/"
    ++ version ++ "/" ++ name.

Definition INSTALLATION_DOCS : string :=
  "https://solidity.readthedocs.io/en/v0.6.0/installing-solidity.html#binary-packages".

Definition _get_platform : Res string :=
  if Str.startswith sys_platform "linux" then Ok "linux"
  else if String.eqb sys_platform "darwin" || String.eqb sys_platform "win32"
  then Ok sys_platform
  else Raise (KeyError ("Unknown platform: '" ++ sys_platform
                 ++ "' - py-solc-x supports Linux, OSX and Windows")).

Definition get_solc_folder (solcx_binary_path : option path) : M path :=
  match getenv_binary_path with
  | Some p => ret p
  | None =>
      match solcx_binary_path with
      | Some p => ret p
      | None =>
          let path := (joinpath home [".solcx"]) in
          mkdir true path ;; ret path
      end
  end.

Definition _import_version (path : string) : M string :=
  fun w =>
    match subprocess_output [path; "--version"] (cwd w) (fs w) with
    | Raise e => (Raise e, w)
    | Ok version =>
        match Str.index "Version: " version, Str.index "+" version with
        | Some i, Some j => (Ok ("v" ++ Str.slice version (i + 9) j), w)
        | _, _ => (Raise (ValueError "substring not found"), w)
        end
    end.

(** A version argument counts as given when it is a non-empty
    string. *)
Definition given (version : option string) : bool :=
  match version with
  | Some v => negb (String.eqb v "")
  | None => false
  end.

(** The [solc_bin] that [get_executable] computes below [folder]. *)
Definition solc_bin_path (folder : path) (version : string) : path :=
  let solc_bin := joinpath folder ["solc-" ++ version] in
  if String.eqb sys_platform "win32"
  then joinpath solc_bin ["solc.exe"] else solc_bin.

Definition get_executable (version : option string)
           (solcx_binary_path : option path) : M string :=
  w <- get_world ;;
  let version := if given version then version else solc_version w in
  match version with
  | Some version =>
      if String.eqb version ""
      then raise (SolcNotInstalled
        ("Solc is not installed. Call solcx.get_available_solc_versions()"
         ++ " to view for available versions and solcx.install_solc() to install."))
      else
        folder <- get_solc_folder solcx_binary_path ;;
        let solc_bin := solc_bin_path folder version in
        e <- path_exists solc_bin ;;
        if negb e
        then raise (SolcNotInstalled
          ("solc " ++ version ++ " has not been installed."
           ++ " Use solcx.install_solc('" ++ version ++ "') to install."))
        else ret (path_str solc_bin)
  | None =>
      raise (SolcNotInstalled
        ("Solc is not installed. Call solcx.get_available_solc_versions()"
         ++ " to view for available versions and solcx.install_solc() to install."))
  end.

Definition set_solc_version (version : string) (silent : bool)
           (solcx_binary_path : option path) : M unit :=
  version <- lift (_check_version version) ;;
  get_executable (Some version) solcx_binary_path ;;
  set_global_solc_version (Some version).

Definition _check_subprocess_call (command : list string) : M nat :=
  fun w =>
    let (r, fs') := subprocess_run command (cwd w) (fs w) in
    let w' := mkWorld fs' (cwd w) (solc_version w) (held w)
                      (EvExec command :: trace w) in
    match r with
    | Ok O => (Ok O, w')
    | Ok (S n) => (Raise (CalledProcessError (S n)), w')
    | Raise e => (Raise e, w')
    end.

(** [False] (here [None]) when the version is there, its path
    otherwise. *)
Definition _check_for_installed_version (version : string)
           (solcx_binary_path : option path) : M (option path) :=
  folder <- get_solc_folder solcx_binary_path ;;
  let path := (joinpath folder ["solc-" ++ version]) in
  e <- path_exists path ;;
  if e then ret None else ret (Some path).

(** [Path(tempfile.gettempdir()).joinpath(f"solcx-tmp-{os.getpid()}")]. *)
Definition temp_path : path :=
  joinpath gettempdir ["solcx-tmp-" ++ Str.of_N getpid].

Definition _get_temp_folder : M path :=
  let path := temp_path in
  e <- path_exists path ;;
  (if e then rmtree path else ret tt) ;;
  mkdir false path ;;
  ret path.

(** [for data in response.iter_content(...): content += data] on a
    [bytes] accumulator: text cannot be added to it. *)
Fixpoint accumulate (content : string) (l : list Chunk) : Res string :=
  match l with
  | [] => Ok content
  | BytesChunk data :: r => accumulate (content ++ data) r
  | TextChunk _ :: _ => Raise TypeError
  end.

Definition _download_solc (url : string) (show_progress : bool) : M string :=
  log (EvGet url) ;;
  response <- lift (requests_get url) ;;
  content <-
    (if negb show_progress
     then ret (content response)
     else
       total_size <-
         lift (match content_length response with
               | Some n => Ok n
               | None => Raise (ValueError "invalid literal for int()")
               end) ;;
       (if tqdm_imported then ret tt else raise TypeError) ;;
       lift (accumulate "" (chunks response))) ;;
  if negb (Nat.eqb (status_code response) 200)
  then
    status <- lift (Response_attr url response "status_url") ;;
    raise (DownloadError ("Received status code " ++ status
             ++ " when attempting to download from " ++ url))
  else ret content.

Definition _install_solc_linux (version : string) (show_progress : bool)
           (solcx_binary_path : option path) : M unit :=
  let download := DOWNLOAD_BASE version "solc-static-linux" in
  binary_path <- _check_for_installed_version version solcx_binary_path ;;
  match binary_path with
  | Some binary_path =>
      content <- _download_solc download show_progress ;;
      write_file binary_path content ;;
      _chmod_plus_x binary_path
  | None => ret tt
  end.

Definition _install_solc_windows (version : string) (show_progress : bool)
           (solcx_binary_path : option path) : M unit :=
  let download := DOWNLOAD_BASE version "solidity-windows.zip" in
  install_folder <- _check_for_installed_version version None ;;
  match install_folder with
  | Some _ =>
      temp_path <- _get_temp_folder ;;
      content <- _download_solc download show_progress ;;
      entries <- lift (unzip content) ;;
      extract_into temp_path entries ;;
      folder <- get_solc_folder solcx_binary_path ;;
      let install_folder := (joinpath folder ["solc-" ++ version]) in
      rename temp_path install_folder
  | None => ret tt
  end.

(** [version[1:]]. *)
Definition tail (s : string) : string :=
  match s with
  | String _ r => r
  | EmptyString => EmptyString
  end.

(** The [for cmd in (["cmake", ".."], ["make"])] loop; a failing
    command is reported with its own name. *)
Fixpoint build_steps (cmds : list (list string)) : M unit :=
  match cmds with
  | [] => ret tt
  | cmd :: r =>
      except_CalledProcessError
        (_check_subprocess_call cmd ;; ret tt)
        (fun code =>
           raise (OSError
             (hd "" cmd ++ " returned non-zero exit status "
              ++ Str.of_N (N.of_nat code) ++ " while attempting"
              ++ " to build solc from the source. This is likely due to a missing or"
              ++ " incorrect version of an external dependency." ++ Main.newline
              ++ Main.newline
              ++ "You may be able to solve this by installing the specific version using"
              ++ " brew: " ++ INSTALLATION_DOCS))) ;;
      build_steps r
  end.

Definition _install_solc_osx (version : string) (allow_osx show_progress : bool)
           (solcx_binary_path : option path) : M unit :=
  if Str.startswith version "v0.4" && negb allow_osx
  then raise (ValueError
    ("Py-solc-x cannot build solc versions 0.4.x on OSX. If you install solc 0.4.x "
     ++ "using brew and reload solcx, the installed version will be available. "
     ++ "See https://github.com/ethereum/homebrew-ethereum for installation instructions."
     ++ Main.newline ++ Main.newline
     ++ "To ignore this error, include 'allow_osx=True' when calling solcx.install_solc()"))
  else
    temp_path <- _get_temp_folder ;;
    let download :=
      DOWNLOAD_BASE version ("solidity_" ++ tail version ++ ".tar.gz") in
    binary_path <- _check_for_installed_version version None ;;
    match binary_path with
    | None => ret tt
    | Some binary_path =>
        content <- _download_solc download show_progress ;;
        entries <- lift (untar content) ;;
        extract_into temp_path entries ;;
        let temp_path := (joinpath temp_path ["solidity_" ++ tail version]) in
        except_CalledProcessError
          (_check_subprocess_call
             ["sh"; path_str (joinpath temp_path ["scripts"; "install_deps.sh"])] ;;
           ret tt)
          (fun _ => ret tt) ;;
        w <- get_world ;;
        let original_path := cwd w in
        mkdir true (joinpath temp_path ["build"]) ;;
        chdir (joinpath temp_path ["build"]) ;;
        try_finally
          (build_steps [["cmake"; ".."]; ["make"]] ;;
           rename (joinpath temp_path ["build"; "solc"; "solc"]) binary_path)
          (chdir original_path) ;;
        _chmod_plus_x binary_path
    end.

(** The [if platform == ... elif ...] chain of [install_solc]. *)
Definition install_platform (platform version : string)
           (allow_osx show_progress : bool)
           (solcx_binary_path : option path) : M unit :=
  if String.eqb platform "linux"
  then _install_solc_linux version show_progress solcx_binary_path
  else if String.eqb platform "darwin"
  then _install_solc_osx version allow_osx show_progress solcx_binary_path
  else if String.eqb platform "win32"
  then _install_solc_windows version show_progress solcx_binary_path
  else ret tt.

(** The [try] block of [install_solc]. *)
Definition install_locked (platform version : string)
           (allow_osx show_progress : bool)
           (solcx_binary_path : option path) : M unit :=
  install_platform platform version allow_osx show_progress
                   solcx_binary_path ;;
  binary_path <- get_executable (Some version) solcx_binary_path ;;
  _check_subprocess_call [binary_path; "--version"] ;;
  w <- get_world ;;
  if negb (given (solc_version w))
  then set_solc_version version false None
  else ret tt.

Fixpoint install_solc (script : list LockEvent) (version : string)
         (allow_osx show_progress : bool)
         (solcx_binary_path : option path) {struct script} : M unit :=
  platform <- lift _get_platform ;;
  version <- lift (_check_version version) ;;
  let lock := get_process_lock version in
  match script with
  | Busy others :: later =>
      lock_blocked lock ;;
      lock_wait lock others ;;
      missing <- _check_for_installed_version version None ;;
      match missing with
      | None => ret tt
      | Some _ => install_solc later version allow_osx false None
      end
  | _ =>
      lock_acquired lock ;;
      try_finally
        (install_locked platform version allow_osx show_progress
                        solcx_binary_path)
        (lock_release lock)
  end.

(** The names a directory lists, each one once. *)
Definition names (entries : list (string * node)) : list string :=
  nodup string_dec (map fst entries).

(** The pattern [solc-v*] against an entry name; on Windows the match
    ignores case. *)
Definition glob_match (name : string) : bool :=
  Str.startswith
    (if String.eqb sys_platform "win32" then Str.lower name else name)
    "solc-v".

(** [folder.glob("solc-v*")], as names: nothing when [folder] is no
    directory. *)
Definition glob_solc_v (n : node) (folder : path) : list string :=
  match lookup n folder with
  | Some (Dir entries) => filter glob_match (names entries)
  | _ => []
  end.

Definition get_installed_solc_versions (solcx_binary_path : option path)
  : M (list string) :=
  folder <- get_solc_folder solcx_binary_path ;;
  w <- get_world ;;
  ret (Str.sorted (map (Str.drop 5) (glob_solc_v (fs w) folder))).

(** *** Names for what the functions above compute *)

(** The folder [get_solc_folder] answers with. *)
Definition solc_folder (solcx_binary_path : option path) : path :=
  match getenv_binary_path with
  | Some p => p
  | None =>
      match solcx_binary_path with
      | Some p => p
      | None => joinpath home [".solcx"]
      end
  end.

(** The path [_check_for_installed_version] looks at. *)
Definition install_path (version : string) (solcx_binary_path : option path)
  : path :=
  joinpath (solc_folder solcx_binary_path) ["solc-" ++ version].

(** The path [get_executable] looks at. *)
Definition executable_path (version : string)
           (solcx_binary_path : option path) : path :=
  solc_bin_path (solc_folder solcx_binary_path) version.

(** Two assumptions on the host, for claims about repeated calls:
    asking a compiler for its version changes no file, and the answer
    of the compiler at [p] depends on what lies at [p] alone. *)
Definition version_query_pure : Prop :=
  forall bin c n, snd (subprocess_run [bin; "--version"] c n) = n.

Definition version_query_by_binary (p : path) : Prop :=
  forall c c' n n',
    lookup n p = lookup n' p ->
    fst (subprocess_run [path_str p; "--version"] c n)
    = fst (subprocess_run [path_str p; "--version"] c' n').

(** The temporary directory is there, and its [solcx-tmp-<pid>] entry
    is a directory or absent, so that [_get_temp_folder] can clear
    and recreate it. *)
Definition temp_dir_ready (n : node) : bool :=
  is_dir n gettempdir
  && match lookup n temp_path with
     | Some (File _ _) => false
     | _ => true
     end.

End WithHost.

(** *** The release feed *)

(** What [requests.get(ALL_RELEASES, headers=headers)] returns, as far
    as [get_available_solc_versions] looks at it: the status and what
    [data.json()] gives or raises. *)
Record ApiResponse : Type := mkApiResponse {
  api_status_code : nat;
  api_json : Res Json.json
}.

(** A [headers] dict. *)
Definition Headers := list (string * string).

(** What the feed needs of the host: the [GITHUB_TOKEN] variable,
    [b64encode] on text, the request itself, and [str] on a value that
    is no text. *)
Class Github : Type := {
  getenv_GITHUB_TOKEN : option string;
  b64encode : string -> string;
  requests_get_headers : string -> option Headers -> Res ApiResponse;
  py_str : Json.json -> string
}.

(** Truth value of the [headers] argument: [None] and the empty dict
    count as not given. *)
Definition headers_given (headers : option Headers) : bool :=
  match headers with
  | Some (_ :: _) => true
  | _ => false
  end.

Definition ALL_RELEASES : string :=
  "https://api.github.com/repos/ethereum/solidity/releases?per_page=100".

Definition MINIMAL_SOLC_VERSION : string := "v0.4.11".

Definition VERSION_REGEX : list (string * string) :=
  [("darwin", "solidity_[0-9].[0-9].[0-9]{1,}.tar.gz");
   ("linux", "solc-static-linux");
   ("win32", "solidity-windows.zip")].

(** [re.match(pattern, name)] as a truth value; only text can be
    matched. *)
Definition re_match (pattern : string) (name : Json.json) : Res bool :=
  match name with
  | Json.JStr s => Ok (Re.matches (Re.compile pattern) s)
  | _ => Raise TypeError
  end.

(** [next((i for i in assets if re.match(pattern, i["name"])), False)]:
    the search stops at the first asset that matches. *)
Fixpoint first_asset (pattern : string) (assets : list Json.json)
  : Res Json.json :=
  match assets with
  | [] => Ok (Json.JBool false)
  | i :: r =>
      (let? name := Json.py_getitem i "name" in
       let? found := re_match pattern name in
       if found then Ok i else first_asset pattern r)%res
  end.

(** The [for release in data.json()] loop, with the running
    [versions]. *)
Fixpoint scan_releases (pattern : string) (releases versions : list Json.json)
  : Res (list Json.json) :=
  match releases with
  | [] => Ok versions
  | release :: r =>
      (let? assets := Json.py_getitem release "assets" in
       let? items := Json.py_iter assets in
       let? asset := first_asset pattern items in
       let? versions' :=
         (if Json.truthy asset
          then (let? tag_name := Json.py_getitem release "tag_name" in
                Ok (versions ++ [tag_name])%list)
          else Ok versions) in
       let? tag_name := Json.py_getitem release "tag_name" in
       if Json.str_eq tag_name MINIMAL_SOLC_VERSION
       then Ok versions'
       else scan_releases pattern r versions')%res
  end.

(** A value inside an f-string. *)
Definition format_value {G : Github} (v : Json.json) : string :=
  match v with
  | Json.JStr s => s
  | _ => py_str v
  end.

(** [Version(s)]. *)
Definition new_Version (s : string) : Res SemVer.Version :=
  match SemVer.parse s with
  | Some v => Ok v
  | None => Raise (ValueError "Invalid version string")
  end.

(** [Version(i[1:])] for an element of a version list.  A slice of a
    list is a list, which [Version] rejects: as an empty version string
    when the slice is empty, as no string otherwise. *)
Definition version_of_tag (i : Json.json) : Res SemVer.Version :=
  match i with
  | Json.JStr s => new_Version (tail s)
  | Json.JArr items =>
      if (length items <=? 1)%nat
      then Raise (ValueError "Invalid empty version string")
      else Raise TypeError
  | _ => Raise TypeError
  end.

(** [[Version(i[1:]) for i in tags]]. *)
Fixpoint versions_of (tags : list Json.json) : Res (list SemVer.Version) :=
  match tags with
  | [] => Ok []
  | i :: r =>
      (let? v := version_of_tag i in
       let? rest := versions_of r in
       Ok (v :: rest))%res
  end.

(** *** The feed as GitHub documents it, for stating what the scan
    returns *)

(** A release: its tag and the names of its assets. *)
Record Release : Type := mkRelease {
  tag_name : string;
  assets : list string
}.

(** [j] is an asset object with the name [name]. *)
Definition asset_named (name : string) (j : Json.json) : Prop :=
  Main.field "name" j = Some (Json.JStr name).

(** [j] is a release object with the tag and the assets of [r]. *)
Definition release_of (r : Release) (j : Json.json) : Prop :=
  Main.field "tag_name" j = Some (Json.JStr (tag_name r))
  /\ exists items,
       Main.field "assets" j = Some (Json.JArr items)
       /\ Forall2 asset_named (assets r) items.

(** The releases down to the first one tagged with the minimal
    version, that one included. *)
Fixpoint up_to_minimal (releases : list Release) : list Release :=
  match releases with
  | [] => []
  | r :: rest =>
      if String.eqb (tag_name r) MINIMAL_SOLC_VERSION then [r]
      else r :: up_to_minimal rest
  end.

(** Some asset of the release matches the pattern. *)
Definition has_asset (pattern : string) (r : Release) : bool :=
  existsb (Re.matches (Re.compile pattern)) (assets r).

Section WithGithub.

Context {H : Host} {G : Github}.

(** The [headers] the request goes out with: a token from the
    environment is used when the caller gave no headers. *)
Definition request_headers (headers : option Headers) : option Headers :=
  match getenv_GITHUB_TOKEN with
  | Some token =>
      if negb (headers_given headers) && negb (String.eqb token "")
      then Some [("Authorization", "Basic " ++ b64encode token)]
      else headers
  | None => headers
  end.

Definition get_available_solc_versions (headers : option Headers)
  : M (list Json.json) :=
  platform <- lift _get_platform ;;
  pattern <-
    lift (match Json.assoc_get platform VERSION_REGEX with
          | Some p => Ok p
          | None => Raise (KeyError platform)
          end) ;;
  let headers := request_headers headers in
  log (EvGet ALL_RELEASES) ;;
  data <- lift (requests_get_headers ALL_RELEASES headers) ;;
  if negb (Nat.eqb (api_status_code data) 200)
  then
    body <- lift (api_json data) ;;
    message <- lift (Json.py_getitem body "message") ;;
    let msg :=
      "Status " ++ Str.of_N (N.of_nat (api_status_code data))
      ++ " when getting solc versions from Github: '"
      ++ format_value message ++ "'" in
    let msg :=
      if Nat.eqb (api_status_code data) 403
      then msg ++ Main.newline ++ Main.newline
           ++ "If this issue persists, generate a Github API token and store"
           ++ " it as the environment variable `GITHUB_TOKEN`:" ++ Main.newline
           ++ "https://github.blog/2013-05-16-personal-api-tokens/"
      else msg in
    raise (ConnectionError msg)
  else
    body <- lift (api_json data) ;;
    releases <- lift (Json.py_iter body) ;;
    lift (scan_releases pattern releases []).

Definition install_solc_pragma (script : list LockEvent)
           (pragma_string : string) (install show_progress : bool)
           (solcx_binary_path : option path) : M string :=
  available <- get_available_solc_versions None ;;
  version_list <- lift (versions_of available) ;;
  version <- lift (_select_pragma_version pragma_string version_list) ;;
  match version with
  | Some version =>
      if String.eqb version ""
      then raise (ValueError "Compatible solc version does not exist")
      else
        (if install
         then install_solc script version false show_progress solcx_binary_path
         else ret tt) ;;
        ret version
  | None => raise (ValueError "Compatible solc version does not exist")
  end.

Definition set_solc_version_pragma (pragma_string : string)
           (silent check_new : bool) : M unit :=
  installed <- get_installed_solc_versions None ;;
  version_list <- lift (versions_of (map Json.JStr installed)) ;;
  version <- lift (_select_pragma_version pragma_string version_list) ;;
  if negb (given version)
  then raise (SolcNotInstalled
    ("No compatible solc version installed."
     ++ " Use solcx.install_solc_version_pragma('"
     ++ match version with Some v => v | None => "None" end
     ++ "') to install."))
  else
    version <- lift (_check_version
                       match version with Some v => v | None => "" end) ;;
    set_global_solc_version (Some version) ;;
    if check_new
    then
      latest <- install_solc_pragma [] pragma_string false false None ;;
      lift (new_Version latest) ;;
      lift (new_Version (tail version)) ;;
      ret tt
    else ret tt.

End WithGithub.

(** The world a blocked call wakes up in: the holders of the lock [lock]
    have done [others] to the files, and the call has noted that it was
    blocked and that it waited. *)
Definition waited (lock : string) (others : node -> node) (w : World)
  : World :=
  mkWorld (others (fs w)) (cwd w) (solc_version w) (held w)
          (EvLockWaited lock :: EvLockBlocked lock :: trace w).

(** [p] is [q] or an ancestor of [q]. *)
Fixpoint is_prefix (p q : path) : bool :=
  match p, q with
  | [], _ => true
  | a :: p', b :: q' => String.eqb a b && is_prefix p' q'
  | _ :: _, [] => false
  end.

(** Neither path lies on the way to the other. *)
Definition apart (p q : path) : bool :=
  negb (is_prefix p q) && negb (is_prefix q p).

(** Nobody else holds the lock when the call asks for it. *)
Definition uncontended (script : list LockEvent) : bool :=
  match script with
  | Busy _ :: _ => false
  | _ => true
  end.

Definition lock_event (e : Event) : bool :=
  match e with
  | EvGet _ | EvExec _ => false
  | _ => true
  end.

(** A computation that leaves the locks alone and sends at most [d]
    requests, whatever the world it starts from. *)
Definition quiet {A} (d : nat) (m : M A) : Prop :=
  forall w,
    held (snd (m w)) = held w
    /\ exists evs,
         trace (snd (m w)) = (evs ++ trace w)%list
         /\ downloads evs <= d
         /\ forallb (fun e => negb (lock_event e)) evs = true.

(** A computation that leaves the active version as it is, whatever
    the world it starts from. *)
Definition keeps_version {A} (m : M A) : Prop :=
  forall w, solc_version (snd (m w)) = solc_version w.

End Install.

(* ===================================================================== *)
(** ** The range selector as the specification words it *)
(* ===================================================================== *)

(** A second definition of the selection, written from the specification
    and not from the code: the expression is a disjunction of comparator
    sets, a comparator set is a conjunction of constraints, and the best
    candidate is the greatest one that satisfies every constraint of at
    least one set. *)
Module RangeSelector.

Import SemVer.

(** The comparators of one set, which blanks separate. *)
Fixpoint words (s : string) (cur : string) : list string :=
  match s with
  | String " " r =>
      if String.eqb cur "" then words r "" else cur :: words r ""
  | String a r => words r (cur ++ String a "")
  | EmptyString => if String.eqb cur "" then [] else [cur]
  end.

Fixpoint constraints (comparators : list string) : option (list Clause) :=
  match comparators with
  | [] => Some []
  | c :: r =>
      match parse_block c, constraints r with
      | Some x, Some l => Some (x :: l)
      | _, _ => None
      end
  end.

Fixpoint comparator_sets (sets : list string) : option (list (list Clause)) :=
  match sets with
  | [] => Some []
  | s :: r =>
      match constraints (words s ""), comparator_sets r with
      | Some x, Some l => Some (x :: l)
      | _, _ => None
      end
  end.

Definition satisfies_set (v : Version) (set : list Clause) : bool :=
  forallb (fun c => matches c v) set.

Definition satisfies (sets : list (list Clause)) (v : Version) : bool :=
  existsb (satisfies_set v) sets.

(** [None] for an expression outside the grammar; otherwise the
    selection, [Some None] when nothing matches. *)
Definition selectBest (expression : string) (candidates : list Version)
  : option (option Version) :=
  match comparator_sets (Str.split_bars expression "") with
  | None => None
  | Some sets =>
      match filter (satisfies sets) candidates with
      | [] => Some None
      | v :: r => Some (Some (maximum v r))
      end
  end.

End RangeSelector.

(* ===================================================================== *)
(** ** Sample hosts and tool chains *)
(* ===================================================================== *)

Module Samples.

Import FS Install Json Main.

(** [s.split("/")] without the empty components. *)
Fixpoint components (s : string) (cur : string) : list string :=
  match s with
  | String "/" r =>
      if String.eqb cur "" then components r "" else cur :: components r ""
  | String a r => components r (cur ++ String a "")
  | EmptyString => if String.eqb cur "" then [] else [cur]
  end.

(** The file that a program name with a slash stands for. *)
Definition program_path (cwd : path) (program : string) : path :=
  if Str.startswith program "/" then components program ""
  else joinpath cwd (components program "").

(** Starting a program on the sample machines.  A program named by a
    path has to be an executable file, and [subprocess] raises
    [FileNotFoundError] or [PermissionError] when it is not; a bare name
    is found on the search path. *)
Definition start (command : list string) (cwd : path) (n : node)
  : option exn :=
  match command with
  | program :: _ =>
      if Str.has_char "/" program
      then match lookup n (program_path cwd program) with
           | Some (File _ true) => None
           | Some _ => Some PermissionError
           | None => Some FileNotFoundError
           end
      else None
  | [] => None
  end.

(** A machine whose user is [user]: the network answers every request
    with [status] and [body], every program that starts prints the
    version text of solc 0.8.1 and exits with [exit_code], and no
    program touches the files. *)
Definition host (platform : string) (status : nat) (body : string)
           (exit_code : nat) : Host := {|
  sys_platform := platform;
  getenv_binary_path := None;
  home := ["home"; "user"];
  gettempdir := ["tmp"];
  getpid := 4242%N;
  requests_get := fun _ =>
    Ok (mkResponse status body (Some (Z.of_nat (String.length body)))
                   [BytesChunk body]);
  tqdm_imported := true;
  subprocess_run := fun command cwd n =>
    match start command cwd n with
    | Some e => (Raise e, n)
    | None => (Ok exit_code, n)
    end;
  subprocess_output := fun command cwd n =>
    match start command cwd n with
    | Some e => Raise e
    | None =>
        Ok ("solc, the solidity compiler commandline interface" ++ newline
            ++ "Version: 0.8.1+commit.abc" ++ newline)
    end;
  unzip := fun b => Ok [("solc.exe", File b true)];
  untar := fun b => Ok [("solidity_0.5.0", Dir [("scripts", Dir [])])]
|}.

(** A Mac with a working tool chain: [make] leaves the compiler at
    [solc/solc] below the build directory. *)
Definition mac : Host := {|
  sys_platform := "darwin";
  getenv_binary_path := None;
  home := ["home"; "user"];
  gettempdir := ["tmp"];
  getpid := 4242%N;
  requests_get := fun _ => Ok (mkResponse 200 "tarball" (Some 7%Z) [BytesChunk "tarball"]);
  tqdm_imported := true;
  subprocess_run := fun command cwd n =>
    match command with
    | [c] =>
        if String.eqb c "make"
        then match put n (joinpath cwd ["solc"])
                       (Some (Dir [("solc", File "Mach-O" true)])) with
             | Some n' => (Ok 0, n')
             | None => (Ok 2, n)
             end
        else (Ok 0, n)
    | _ =>
        match start command cwd n with
        | Some e => (Raise e, n)
        | None => (Ok 0, n)
        end
    end;
  subprocess_output := fun command cwd n =>
    match start command cwd n with
    | Some e => Raise e
    | None => Ok ""
    end;
  unzip := fun _ => Raise (OSError "not a zip file");
  untar := fun _ => Ok [("solidity_0.5.0", Dir [("scripts", Dir [])])]
|}.

(** The machine [h] before tqdm was installed on it. *)
Definition without_tqdm (h : Host) : Host := {|
  sys_platform := @sys_platform h;
  getenv_binary_path := @getenv_binary_path h;
  home := @home h;
  gettempdir := @gettempdir h;
  getpid := @getpid h;
  requests_get := @requests_get h;
  tqdm_imported := false;
  subprocess_run := @subprocess_run h;
  subprocess_output := @subprocess_output h;
  unzip := @unzip h;
  untar := @untar h
|}.

(** GitHub as seen without a token in the environment: every request
    is answered with [status] and a body that parses to [body]. *)
Definition github (status : nat) (body : Res json) : Github := {|
  getenv_GITHUB_TOKEN := None;
  b64encode := fun s => s;
  requests_get_headers := fun _ _ => Ok (mkApiResponse status body);
  py_str := fun _ => ""
|}.

(** A release object of the feed, with some of the other fields GitHub
    sends. *)
Definition release_object (tag : string) (asset_names : list string) : json :=
  JObj [("url", JStr ("https://api.github.com/repos/ethereum/solidity/releases/" ++ tag));
        ("tag_name", JStr tag);
        ("prerelease", JBool false);
        ("assets",
         JArr (map (fun name => JObj [("name", JStr name); ("state", JStr "uploaded")])
                   asset_names))].

(** Four releases, newest first: one with all binaries, one with the
    sources only, the minimal version, and an older one. *)
Definition feed_items : list json :=
  [release_object "v0.5.7"
     ["solc-static-linux"; "solidity-windows.zip"; "solidity_0.5.7.tar.gz"];
   release_object "v0.5.6" ["solidity_0.5.6.tar.gz"];
   release_object "v0.4.11" ["solc-static-linux"; "solidity-windows.zip"];
   release_object "v0.4.10" ["solc-static-linux"]].

Definition feed : json := JArr feed_items.

(** A fresh account: home and temporary directory, nothing installed. *)
Definition fresh_fs : node :=
  Dir [("home", Dir [("user", Dir [])]); ("tmp", Dir [])].

(** The same account with [name] below [~/.solcx]. *)
Definition fs_with (name : string) (n : node) : node :=
  Dir [("home", Dir [("user", Dir [(".solcx", Dir [(name, n)])])]);
       ("tmp", Dir [])].

(** The same account with two versions and a stray file below
    [~/.solcx]. *)
Definition fs_two_versions : node :=
  Dir [("home",
        Dir [("user",
              Dir [(".solcx",
                    Dir [("solc-v0.5.7", File "ELF" true);
                         ("notes.txt", File "" false);
                         ("solc-v0.4.25", File "ELF" true)])])]);
       ("tmp", Dir [])].

Definition world (n : node) (active : option string) : World :=
  mkWorld n ["home"; "user"] active [] [].

Definition version_line : string := "Version: 0.8.1+commit.abc" ++ newline.

Definition banner : string :=
  "solc, the solidity compiler commandline interface".

Definition quote : string := String (ascii_of_nat 34) EmptyString.

(** The text [{"contracts": {}}] and what it parses to. *)
Definition empty_contracts_text : string :=
  "{" ++ quote ++ "contracts" ++ quote ++ ": {}}".

Definition empty_contracts : json := JObj [("contracts", JObj [])].

(** A standard-JSON request and an answer with one warning and two
    errors. *)
Definition standard_input : json :=
  JObj [("language", JStr "Solidity");
        ("sources", JObj [("a.sol", JObj [("content", JStr "contract A {}")])])].

Definition diagnostic_entry (severity message : string) : json :=
  JObj [("severity", JStr severity); ("formattedMessage", JStr message)].

Definition standard_errors : list json :=
  [diagnostic_entry "warning" "W"; diagnostic_entry "error" "X";
   diagnostic_entry "error" "Y"].

Definition standard_output : json := JObj [("errors", JArr standard_errors)].

(** A combined-JSON answer: contract [A] of [a.sol] with its ABI as
    embedded text, and the AST of [a.sol]. *)
Definition abi_text : string := "[{" ++ quote ++ "type" ++ quote ++ ":"
  ++ quote ++ "constructor" ++ quote ++ "}]".

Definition abi_value : json := JArr [JObj [("type", JStr "constructor")]].

Definition ast_value : json := JObj [("nodeType", JStr "SourceUnit")].

Definition combined_output : json :=
  JObj [("contracts",
         JObj [("a.sol:A", JObj [("abi", JStr abi_text); ("bin", JStr "6080")])]);
        ("sources", JObj [("a.sol", JObj [("AST", ast_value)])])].

(** A tool chain whose compiler prints [stdout] whatever it is asked,
    and whose JSON parser knows the texts of [table]. *)
Definition toolchain (stdout : string) (table : list (string * json))
  : Toolchain := {|
  json_loads := fun s =>
    match assoc_get s table with
    | Some v => Ok v
    | None => Raise JSONDecodeError
    end;
  json_dumps := fun _ => "{}";
  solc_wrapper := fun _ => Ok (mkWrapperResult stdout "" ["solc"] 0%Z)
|}.

End Samples.

(* ===================================================================== *)
(** * Properties *)
(* ===================================================================== *)

Import SemVer Pragma Json Main FS Install.

(** ** Strings *)

Lemma after_first_skip (c : ascii) (pre rest : string) :
  Str.has_char c pre = false ->
  Str.after_first c (pre ++ String c rest) = rest.
Proof.
  induction pre as [|a pre IH]; cbn [Str.has_char Str.after_first append].
  - now rewrite Ascii.eqb_refl.
  - intros Hc. apply orb_false_iff in Hc as [Ha Hpre].
    rewrite Ha. now apply IH.
Qed.

Lemma prefix_app (needle rest : string) :
  String.prefix needle (needle ++ rest) = true.
Proof.
  induction needle as [|b n IHn]; cbn [append String.prefix].
  - now destruct rest.
  - now destruct (ascii_dec b b).
Qed.

Lemma prefix_other_head (c a : ascii) (needle s : string) :
  Ascii.eqb a c = false ->
  String.prefix (String c needle) (String a s) = false.
Proof.
  intros Ha. cbn [String.prefix].
  destruct (ascii_dec c a) as [->|]; [|reflexivity].
  now rewrite Ascii.eqb_refl in Ha.
Qed.

Lemma index_at_head (needle s : string) :
  String.prefix needle s = true -> Str.index needle s = Some 0.
Proof.
  intros Hp. destruct s; cbn [Str.index]; now rewrite Hp.
Qed.

Lemma index_skip (c : ascii) (needle pre s : string) :
  Str.has_char c pre = false ->
  String.prefix (String c needle) s = true ->
  Str.index (String c needle) (pre ++ s) = Some (String.length pre).
Proof.
  intros Hc Hp. induction pre as [|a pre IH].
  - now apply index_at_head.
  - cbn [Str.has_char] in Hc. apply orb_false_iff in Hc as [Ha Hpre].
    cbn [append Str.index String.length].
    rewrite (prefix_other_head _ _ _ _ Ha), (IH Hpre). reflexivity.
Qed.

Lemma index_char_skip (c : ascii) (pre s : string) :
  Str.has_char c pre = false ->
  Str.index (String c "") (pre ++ s)
  = option_map (Nat.add (String.length pre)) (Str.index (String c "") s).
Proof.
  induction pre as [|a pre IH]; intros Hc.
  - cbn [append String.length]. now destruct (Str.index (String c "") s).
  - cbn [Str.has_char] in Hc. apply orb_false_iff in Hc as [Ha Hpre].
    cbn [append Str.index String.length].
    rewrite (prefix_other_head _ _ _ _ Ha), (IH Hpre).
    now destruct (Str.index (String c "") s).
Qed.

Lemma slice_skip (pre s : string) (i j : nat) :
  Str.slice (pre ++ s) (String.length pre + i) (String.length pre + j)
  = Str.slice s i j.
Proof.
  unfold Str.slice.
  replace (String.length pre + j - (String.length pre + i)) with (j - i) by lia.
  induction pre as [|a pre IH]; simpl; auto.
Qed.

(** ** Decimal text of version numbers *)

Lemma digit_val_step (c : ascii) (k : N) (acc p : positive) :
  digit_val c = k -> (10 * N.pos acc + k = N.pos p)%N ->
  (10 * N.pos acc + digit_val c)%N = N.pos p.
Proof. now intros ->. Qed.

Lemma digits_val_of_uint_acc (d : Decimal.uint) (acc : positive) :
  digits_val (Npos acc) (NilEmpty.string_of_uint d)
  = Npos (Pos.of_uint_acc d acc).
Proof.
  revert acc.
  induction d as [|d IH|d IH|d IH|d IH|d IH|d IH|d IH|d IH|d IH|d IH];
    intros acc; cbn [NilEmpty.string_of_uint digits_val Pos.of_uint_acc];
    [reflexivity|..]; rewrite <- IH; f_equal.
  all: try (eapply digit_val_step; [vm_compute; reflexivity|]).
  all: lia.
Qed.

Lemma digits_val_of_uint (d : Decimal.uint) :
  digits_val 0 (NilEmpty.string_of_uint d) = N.of_uint d.
Proof.
  unfold N.of_uint.
  induction d as [|d IH|d IH|d IH|d IH|d IH|d IH|d IH|d IH|d IH|d IH];
    cbn [NilEmpty.string_of_uint digits_val Pos.of_uint];
    [reflexivity|exact IH|..];
    rewrite <- digits_val_of_uint_acc; f_equal.
Qed.

Lemma all_digits_of_uint (d : Decimal.uint) :
  all_digits (NilEmpty.string_of_uint d) = true.
Proof.
  induction d; cbn [NilEmpty.string_of_uint all_digits]; auto.
Qed.

Lemma to_uint_normal (n : N) : Decimal.unorm (N.to_uint n) = N.to_uint n.
Proof.
  rewrite <- DecimalN.Unsigned.to_of. now rewrite DecimalN.Unsigned.of_to.
Qed.

(** The decimal text of a number reads back as the number. *)
Lemma parse_number_of_N (n : N) : parse_number (Str.of_N n) = Some n.
Proof.
  unfold Str.of_N.
  pose proof (to_uint_normal n) as Hnorm.
  pose proof (digits_val_of_uint (N.to_uint n)) as Hval.
  rewrite DecimalN.Unsigned.of_to in Hval.
  pose proof (all_digits_of_uint (N.to_uint n)) as Hall.
  unfold parse_number.
  destruct (N.to_uint n) as [|d|d|d|d|d|d|d|d|d|d] eqn:Hu;
    cbn [NilEmpty.string_of_uint] in *;
    try (rewrite Hall, Hval; reflexivity).
  - discriminate.
  - rewrite DecimalFacts.unorm_D0 in Hnorm.
    destruct d;
      try (exfalso; unfold Decimal.unorm in Hnorm; cbn in Hnorm; discriminate);
      cbn [NilEmpty.string_of_uint] in *.
    + now rewrite <- Hval.
    + exfalso. unfold Decimal.unorm in Hnorm.
      destruct (Decimal.nzhead (Decimal.D0 d)) eqn:Hz; try discriminate.
      injection Hnorm as ->.
      exact (DecimalFacts.nzhead_nonzero _ _ Hz).
Qed.

Lemma of_N_digits (n : N) : all_digits (Str.of_N n) = true.
Proof. apply all_digits_of_uint. Qed.

Lemma of_N_nonempty (n : N) : Str.of_N n <> "".
Proof.
  intros He. pose proof (parse_number_of_N n) as Hp.
  rewrite He in Hp. discriminate.
Qed.

(** A digit, as one of the ten characters. *)
Lemma is_digit_inv (c : ascii) :
  Str.is_digit c = true ->
  exists d, forall r,
    NilEmpty.string_of_uint (d r) = String c (NilEmpty.string_of_uint r)
    /\ (c = "0"%char -> d r = Decimal.D0 r)
    /\ (c <> "0"%char -> Decimal.unorm (d r) = d r).
Proof.
  assert (Hk : forall k : Decimal.uint -> Decimal.uint,
             (forall r, NilEmpty.string_of_uint (k r)
                        = String c (NilEmpty.string_of_uint r)) ->
             (c = "0"%char -> forall r, k r = Decimal.D0 r) ->
             (c <> "0"%char -> forall r, Decimal.unorm (k r) = k r) ->
             exists d, forall r,
               NilEmpty.string_of_uint (d r)
               = String c (NilEmpty.string_of_uint r)
               /\ (c = "0"%char -> d r = Decimal.D0 r)
               /\ (c <> "0"%char -> Decimal.unorm (d r) = d r)).
  { intros k H1 H2 H3. exists k. intros r. auto. }
  destruct c as [[] [] [] [] [] [] [] []]; intros Hd; try discriminate Hd;
    let close k :=
      solve [apply (Hk k);
             first [intros r; reflexivity | intros E; discriminate E
                   | intros _ r; reflexivity | intros E; now elim E]] in
    first [close Decimal.D0 | close Decimal.D1 | close Decimal.D2
          | close Decimal.D3 | close Decimal.D4 | close Decimal.D5
          | close Decimal.D6 | close Decimal.D7 | close Decimal.D8
          | close Decimal.D9].
Qed.

Lemma all_digits_uint (d : string) :
  all_digits d = true -> exists u, NilEmpty.string_of_uint u = d.
Proof.
  induction d as [|c d IH]; cbn [all_digits].
  - now exists Decimal.Nil.
  - intros Hd. apply andb_true_iff in Hd as [Hc Hd].
    destruct (IH Hd) as [u <-].
    destruct (is_digit_inv c Hc) as [k Hk].
    exists (k u). apply Hk.
Qed.

(** What reads as a number is the decimal text of that number. *)
Lemma parse_number_inv (d : string) (n : N) :
  parse_number d = Some n -> Str.of_N n = d.
Proof.
  unfold parse_number, Str.of_N.
  destruct d as [|c d]; [discriminate|].
  intros Hp.
  assert (Hall : all_digits (String c d) = true).
  { destruct c as [[] [] [] [] [] [] [] []]; destruct d;
      try discriminate Hp;
      destruct (all_digits _) eqn:Ha in Hp; try discriminate Hp; exact Ha. }
  assert (Hn : n = digits_val 0 (String c d)).
  { destruct c as [[] [] [] [] [] [] [] []]; destruct d;
      try discriminate Hp; rewrite Hall in Hp; congruence. }
  assert (Hlead : c = "0"%char -> d = "").
  { intros ->. destruct d; [reflexivity|discriminate Hp]. }
  clear Hp. subst n.
  cbn [all_digits] in Hall. apply andb_true_iff in Hall as [Hc Hd].
  destruct (all_digits_uint d Hd) as [u <-].
  destruct (is_digit_inv c Hc) as [k Hk].
  destruct (Hk u) as (Hs & Hzero & Hother).
  rewrite <- Hs, digits_val_of_uint, DecimalN.Unsigned.to_of.
  destruct (ascii_dec c "0") as [Hc0|Hc0].
  - specialize (Hlead Hc0). destruct u; try discriminate Hlead.
    rewrite (Hzero Hc0). reflexivity.
  - now rewrite (Hother Hc0).
Qed.

(** ** Version strings *)

Lemma span_digits_app (d rest : string) :
  all_digits d = true ->
  match rest with
  | String c _ => Str.is_digit c = false
  | EmptyString => True
  end ->
  Str.span_digits (d ++ rest) = (d, rest).
Proof.
  intros Hd Hrest. induction d as [|c d IH]; cbn [append].
  - destruct rest as [|c r]; [reflexivity|]. cbn [Str.span_digits].
    now rewrite Hrest.
  - cbn [all_digits] in Hd. apply andb_true_iff in Hd as [Hc Hd].
    cbn [Str.span_digits]. now rewrite Hc, (IH Hd).
Qed.

Lemma span_digits_inv (s a r : string) :
  Str.span_digits s = (a, r) -> s = a ++ r /\ all_digits a = true.
Proof.
  revert a r. induction s as [|c s IH]; intros a r; cbn [Str.span_digits].
  - intros Heq. injection Heq as <- <-. auto.
  - destruct (Str.is_digit c) eqn:Hc.
    + destruct (Str.span_digits s) as [d rest].
      intros Heq. injection Heq as <- <-.
      destruct (IH d rest eq_refl) as [-> Hd].
      cbn [append all_digits]. now rewrite Hc, Hd.
    + intros Heq. injection Heq as <- <-. auto.
Qed.

Lemma append_empty (s : string) : s ++ "" = s.
Proof. induction s; cbn; congruence. Qed.

Lemma to_string_release (a b c : N) :
  to_string (mkVersion a b c)
  = Str.of_N a ++ "." ++ Str.of_N b ++ "." ++ Str.of_N c.
Proof.
  unfold to_string, mkVersion. cbn [major minor patch prerelease build].
  now rewrite !append_empty.
Qed.

(** [Version(str(v))] is [v], for a release version [v]. *)
Lemma parse_to_string (a b c : N) :
  parse (to_string (mkVersion a b c)) = Some (mkVersion a b c).
Proof.
  rewrite to_string_release. unfold parse.
  rewrite (span_digits_app (Str.of_N a)) by (apply of_N_digits || reflexivity).
  cbn [append].
  rewrite (span_digits_app (Str.of_N b)) by (apply of_N_digits || reflexivity).
  cbn [append].
  rewrite <- (append_empty (Str.of_N c)).
  rewrite (span_digits_app (Str.of_N c) "") by (apply of_N_digits || exact I).
  cbn [optional_part String.eqb orb identifiers valid_identifiers andb].
  now rewrite !parse_number_of_N.
Qed.

(** The text of a version starts with a digit, so no tag marker is
    stripped from it. *)
Lemma lstrip_to_string (v : Version) :
  Str.lstrip "v" (to_string v) = to_string v.
Proof.
  pose proof (of_N_digits (major v)) as Hd.
  pose proof (of_N_nonempty (major v)) as Hn.
  unfold to_string. destruct (Str.of_N (major v)) as [|c d]; [congruence|].
  cbn [all_digits] in Hd. apply andb_true_iff in Hd as [Hc _].
  cbn [append Str.lstrip].
  destruct (Ascii.eqb c "v") eqn:Hv; [|reflexivity].
  apply Ascii.eqb_eq in Hv. subst c. discriminate Hc.
Qed.

(** ** Versions with prerelease and build parts *)

Lemma all_chars_app (f : ascii -> bool) (a b : string) :
  all_chars f (a ++ b) = all_chars f a && all_chars f b.
Proof.
  induction a as [|c a IH]; cbn [append all_chars]; [reflexivity|].
  now rewrite IH, andb_assoc.
Qed.

Lemma all_chars_weaken (f g : ascii -> bool) (s : string) :
  (forall c, f c = true -> g c = true) ->
  all_chars f s = true -> all_chars g s = true.
Proof.
  intros Hfg. induction s as [|c s IH]; cbn [all_chars]; [reflexivity|].
  intros Hs. apply andb_true_iff in Hs as [Hc Hs].
  now rewrite (Hfg c Hc), (IH Hs).
Qed.

Lemma identifier_char_suffix (c : ascii) :
  identifier_char c = true -> suffix_char c = true.
Proof. unfold identifier_char. intros Hc. now apply andb_true_iff in Hc. Qed.

Lemma span_suffix_app (d rest : string) :
  all_chars suffix_char d = true ->
  match rest with
  | String c _ => suffix_char c = false
  | EmptyString => True
  end ->
  span_suffix (d ++ rest) = (d, rest).
Proof.
  intros Hd Hrest. induction d as [|c d IH]; cbn [append].
  - destruct rest as [|c r]; [reflexivity|]. cbn [span_suffix].
    now rewrite Hrest.
  - cbn [all_chars] in Hd. apply andb_true_iff in Hd as [Hc Hd].
    cbn [span_suffix]. now rewrite Hc, (IH Hd).
Qed.

Lemma span_suffix_inv (s d r : string) :
  span_suffix s = (d, r) -> all_chars suffix_char d = true.
Proof.
  revert d r. induction s as [|c s IH]; intros d r; cbn [span_suffix].
  - intros Heq. now injection Heq as <- <-.
  - destruct (suffix_char c) eqn:Hc.
    + destruct (span_suffix s) as [d' rest].
      intros Heq. injection Heq as <- <-.
      cbn [all_chars]. now rewrite Hc, (IH d' rest eq_refl).
    + intros Heq. now injection Heq as <- <-.
Qed.

(** Splitting at the dots: a text without dots goes to the running
    item. *)
Lemma split_dots_item (x s cur : string) :
  all_chars identifier_char x = true ->
  split_dots (x ++ s) cur = split_dots s (cur ++ x).
Proof.
  revert cur. induction x as [|c x IH]; intros cur; cbn [append all_chars].
  - now rewrite append_empty.
  - intros Hx. apply andb_true_iff in Hx as [Hc Hx].
    unfold identifier_char in Hc. apply andb_true_iff in Hc as [_ Hc].
    apply negb_true_iff in Hc.
    replace (split_dots (String c (x ++ s)) cur)
      with (split_dots (x ++ s) (cur ++ String c "")).
    + rewrite (IH _ Hx). f_equal.
      clear. induction cur as [|a cur IH]; cbn [append]; congruence.
    + destruct c as [[] [] [] [] [] [] [] []]; try reflexivity.
      discriminate Hc.
Qed.

Lemma join_cons (sep x y : string) (items : list string) :
  Str.join sep (x :: y :: items) = x ++ sep ++ Str.join sep (y :: items).
Proof. reflexivity. Qed.

Lemma split_dots_join (x : string) (items : list string) (cur : string) :
  forallb (all_chars identifier_char) (x :: items) = true ->
  split_dots (Str.join "." (x :: items)) cur = (cur ++ x) :: items.
Proof.
  revert x cur. induction items as [|y items IH]; intros x cur Hall;
    cbn [forallb] in Hall; apply andb_true_iff in Hall as [Hx Hall].
  - change (Str.join "." [x]) with x.
    rewrite <- (append_empty x) at 1. rewrite (split_dots_item x "" cur Hx).
    reflexivity.
  - rewrite join_cons.
    change (x ++ "." ++ Str.join "." (y :: items))
      with (x ++ String "." (Str.join "." (y :: items))).
    rewrite (split_dots_item x _ cur Hx).
    change (split_dots (String "." (Str.join "." (y :: items))) (cur ++ x))
      with ((cur ++ x) :: split_dots (Str.join "." (y :: items)) "").
    now rewrite (IH y "" Hall).
Qed.

(** The items that splitting gives hold no dot. *)
Lemma split_dots_chars (s cur : string) :
  all_chars suffix_char s = true ->
  all_chars identifier_char cur = true ->
  forallb (all_chars identifier_char) (split_dots s cur) = true.
Proof.
  revert cur. induction s as [|c s IH]; intros cur; cbn [all_chars].
  - intros _ Hcur. cbn [split_dots forallb]. now rewrite Hcur.
  - intros Hs Hcur. apply andb_true_iff in Hs as [Hc Hs].
    destruct (Ascii.eqb c ".") eqn:Hdot.
    + apply Ascii.eqb_eq in Hdot. subst c. cbn [split_dots forallb].
      now rewrite Hcur, (IH "" Hs eq_refl).
    + replace (split_dots (String c s) cur)
        with (split_dots s (cur ++ String c ""))
        by (destruct c as [[] [] [] [] [] [] [] []]; try reflexivity;
            discriminate Hdot).
      apply (IH _ Hs). rewrite all_chars_app, Hcur. cbn [all_chars].
      unfold identifier_char. now rewrite Hc, Hdot.
Qed.

Lemma join_chars (items : list string) :
  forallb (all_chars identifier_char) items = true ->
  all_chars suffix_char (Str.join "." items) = true.
Proof.
  induction items as [|x items IH]; [reflexivity|].
  cbn [forallb]. intros Hall. apply andb_true_iff in Hall as [Hx Hall].
  pose proof (all_chars_weaken _ _ x identifier_char_suffix Hx) as Hx'.
  destruct items as [|y items]; [exact Hx'|].
  rewrite join_cons, all_chars_app, Hx'. cbn [append all_chars].
  now rewrite (IH Hall).
Qed.

Lemma join_nonempty (x : string) (items : list string) :
  x <> "" -> Str.join "." (x :: items) <> "".
Proof.
  unfold Str.join. intros Hx. destruct x as [|c x]; [congruence|].
  destruct items; cbn [String.concat append]; discriminate.
Qed.

Lemma optional_part_absent (marker : ascii) (s : string) :
  match s with
  | String c _ => Ascii.eqb c marker = false
  | EmptyString => True
  end ->
  optional_part marker s = (None, s).
Proof.
  destruct s as [|c r]; [reflexivity|]. cbn [optional_part]. now intros ->.
Qed.

Lemma optional_part_present (marker : ascii) (x : string)
      (items : list string) (rest : string) :
  valid_identifiers true (x :: items) = true ->
  forallb (all_chars identifier_char) (x :: items) = true ->
  match rest with
  | String c _ => suffix_char c = false
  | EmptyString => True
  end ->
  optional_part marker (String marker (Str.join "." (x :: items) ++ rest))
  = (Some (Str.join "." (x :: items)), rest).
Proof.
  intros Hvalid Hchars Hrest. cbn [optional_part].
  rewrite Ascii.eqb_refl.
  rewrite (span_suffix_app _ _ (join_chars _ Hchars) Hrest).
  cbn [valid_identifiers] in Hvalid.
  apply andb_true_iff in Hvalid as [Hx _].
  apply andb_true_iff in Hx as [Hx _]. apply negb_true_iff in Hx.
  assert (Hne : x <> "") by (intros ->; discriminate).
  pose proof (join_nonempty x items Hne) as Hj.
  destruct (Str.join "." (x :: items)); [congruence|reflexivity].
Qed.

Lemma valid_identifiers_weaken (items : list string) :
  valid_identifiers false items = true -> valid_identifiers true items = true.
Proof.
  induction items as [|x items IH]; cbn [valid_identifiers]; [reflexivity|].
  intros Hv. apply andb_true_iff in Hv as [Hx Hv].
  apply andb_true_iff in Hx as [Hx _]. now rewrite Hx, (IH Hv).
Qed.

(** [Version(str(v))] is [v] for every version whose identifiers are
    well formed. *)
Lemma parse_to_string_well_formed (v : Version) :
  well_formed false (prerelease v) = true ->
  well_formed true (build v) = true ->
  parse (to_string v) = Some v.
Proof.
  destruct v as [a b c p q]. cbn [prerelease build].
  unfold well_formed. intros Hp Hq.
  apply andb_true_iff in Hp as [Hpv Hpc].
  apply andb_true_iff in Hq as [Hqv Hqc].
  unfold parse, to_string. cbn [major minor patch prerelease build].
  rewrite (span_digits_app (Str.of_N a)) by (apply of_N_digits || reflexivity).
  cbn [append].
  rewrite (span_digits_app (Str.of_N b)) by (apply of_N_digits || reflexivity).
  cbn [append].
  destruct p as [|x p]; destruct q as [|y q]; cbn [append].
  - rewrite (span_digits_app (Str.of_N c) "") by (apply of_N_digits || exact I).
    cbn [optional_part String.eqb orb identifiers valid_identifiers andb].
    now rewrite !parse_number_of_N.
  - rewrite (span_digits_app (Str.of_N c)) by (apply of_N_digits || reflexivity).
    rewrite optional_part_absent by reflexivity.
    rewrite <- (append_empty (Str.join "." (y :: q))).
    rewrite (optional_part_present "+" y q "" Hqv Hqc I).
    cbn [String.eqb orb identifiers].
    rewrite (split_dots_join y q "" Hqc). cbn [append].
    rewrite !parse_number_of_N, Hqv. reflexivity.
  - rewrite (span_digits_app (Str.of_N c)) by (apply of_N_digits || reflexivity).
    rewrite (optional_part_present "-" x p ""
               (valid_identifiers_weaken _ Hpv) Hpc I).
    cbn [optional_part String.eqb orb identifiers].
    rewrite (split_dots_join x p "" Hpc). cbn [append].
    rewrite !parse_number_of_N, Hpv. reflexivity.
  - rewrite (span_digits_app (Str.of_N c)) by (apply of_N_digits || reflexivity).
    rewrite (optional_part_present "-" x p _
               (valid_identifiers_weaken _ Hpv) Hpc) by reflexivity.
    rewrite <- (append_empty (Str.join "." (y :: q))).
    rewrite (optional_part_present "+" y q "" Hqv Hqc I).
    cbn [String.eqb orb identifiers].
    rewrite (split_dots_join x p "" Hpc), (split_dots_join y q "" Hqc).
    cbn [append].
    rewrite !parse_number_of_N, Hpv, Hqv. reflexivity.
Qed.

(** What [Version] accepts has well-formed identifiers. *)
Lemma parse_well_formed (s : string) (v : Version) :
  parse s = Some v ->
  well_formed false (prerelease v) = true
  /\ well_formed true (build v) = true.
Proof.
  unfold parse.
  destruct (Str.span_digits s) as [a r1].
  destruct r1 as [|c1 r1]; [discriminate|].
  destruct (Ascii.eqb c1 ".") eqn:Hc1.
  2:{ destruct c1 as [[] [] [] [] [] [] [] []]; try discriminate Hc1;
        discriminate. }
  apply Ascii.eqb_eq in Hc1. subst c1.
  destruct (Str.span_digits r1) as [b r2].
  destruct r2 as [|c2 r2]; [discriminate|].
  destruct (Ascii.eqb c2 ".") eqn:Hc2.
  2:{ destruct c2 as [[] [] [] [] [] [] [] []]; try discriminate Hc2;
        discriminate. }
  apply Ascii.eqb_eq in Hc2. subst c2.
  destruct (Str.span_digits r2) as [c r3].
  destruct (optional_part "-" r3) as [pre r4] eqn:Hpre.
  destruct (optional_part "+" r4) as [bld r5] eqn:Hbld.
  destruct (String.eqb r5 "" || String.eqb r5 (String "010" ""));
    [|discriminate].
  destruct (parse_number a); [|discriminate].
  destruct (parse_number b); [|discriminate].
  destruct (parse_number c); [|discriminate].
  destruct (valid_identifiers false (identifiers pre)) eqn:Hvp;
    [|discriminate].
  destruct (valid_identifiers true (identifiers bld)) eqn:Hvb;
    [|discriminate].
  intros Hv. injection Hv as <-. cbn [prerelease build].
  unfold well_formed. rewrite Hvp, Hvb. cbn [andb].
  assert (Hpart : forall marker r part rest,
            optional_part marker r = (part, rest) ->
            forallb (all_chars identifier_char) (identifiers part) = true).
  { intros marker r part rest. destruct r as [|x r]; cbn [optional_part].
    - intros Heq. now injection Heq as <- <-.
    - destruct (Ascii.eqb x marker).
      + destruct (span_suffix r) as [body rest'] eqn:Hspan.
        pose proof (span_suffix_inv _ _ _ Hspan) as Hbody.
        destruct body as [|y body].
        * intros Heq. now injection Heq as <- <-.
        * intros Heq. injection Heq as <- <-. cbn [identifiers].
          now apply split_dots_chars.
      + intros Heq. now injection Heq as <- <-. }
  split; [exact (Hpart _ _ _ _ Hpre)|exact (Hpart _ _ _ _ Hbld)].
Qed.

(** [Version(str(Version(s)))] is [Version(s)]. *)
Lemma parse_to_string_parse (s : string) (v : Version) :
  parse s = Some v -> parse (to_string v) = Some v.
Proof.
  intros Hs. destruct (parse_well_formed _ _ Hs) as [Hp Hq].
  now apply parse_to_string_well_formed.
Qed.

(** ** The version check *)

Lemma check_version_inv (version v' : string) :
  _check_version version = Ok v' ->
  exists v,
    parse (Str.lstrip "v" version) = Some v
    /\ matches minimal_spec v = true
    /\ v' = "v" ++ to_string v.
Proof.
  unfold _check_version.
  destruct (parse (Str.lstrip "v" version)) as [v|]; [|discriminate].
  destruct (matches minimal_spec v) eqn:Hm; cbn [negb]; [|discriminate].
  intros Hv. injection Hv as <-. now exists v.
Qed.

(** The text of a version that was read and passed the check passes it
    again, tag marker or not. *)
Lemma check_version_of_parsed (s : string) (v : Version) :
  parse s = Some v ->
  matches minimal_spec v = true ->
  _check_version ("v" ++ to_string v) = Ok ("v" ++ to_string v).
Proof.
  intros Hparse Hm. unfold _check_version.
  replace (Str.lstrip "v" ("v" ++ to_string v)) with (to_string v)
    by (symmetry; exact (lstrip_to_string v)).
  now rewrite (parse_to_string_parse _ _ Hparse), Hm.
Qed.

(** ** The pragma selector *)

(** C1: on the pragma [>=0.5.0 <0.6.0] the code keeps the last comparator
    of the set only, so it selects like [<0.6.0] on every candidate list;
    with the single candidate 0.4.25 it returns "0.4.25", where the
    selection the specification describes finds no candidate. *)
Theorem select_pragma_version_keeps_last_comparator :
  (forall version_list,
      _select_pragma_version ">=0.5.0 <0.6.0" version_list
      = _select_pragma_version "<0.6.0" version_list)
  /\ _select_pragma_version ">=0.5.0 <0.6.0" [mkVersion 0 4 25]
     = Ok (Some "0.4.25")
  /\ RangeSelector.selectBest ">=0.5.0 <0.6.0" [mkVersion 0 4 25]
     = Some None.
Proof.
  split; [|split].
  - intros version_list. reflexivity.
  - vm_compute. reflexivity.
  - vm_compute. reflexivity.
Qed.

(** *** The selection does not depend on the order of release candidates *)

Lemma release_inv (v : Version) :
  release v = true -> v = mkVersion (major v) (minor v) (patch v).
Proof.
  destruct v as [a b c p q]. unfold release. cbn [prerelease build].
  destruct p; [|discriminate]. destruct q; [|discriminate]. reflexivity.
Qed.

Lemma ltb_spec (a b c a' b' c' : N) :
  ltb (mkVersion a b c) (mkVersion a' b' c') = true
  <-> (a < a' \/ (a = a' /\ (b < b' \/ (b = b' /\ c < c'))))%N.
Proof.
  unfold ltb, compare, mkVersion. cbn [major minor patch prerelease].
  destruct (N.compare_spec a a');
    destruct (N.compare_spec b b');
    destruct (N.compare_spec c c');
    cbn [prerelease_compare];
    split; intros Hlt; try discriminate; try reflexivity; lia.
Qed.

Lemma ltb_false_spec (a b c a' b' c' : N) :
  ltb (mkVersion a b c) (mkVersion a' b' c') = false
  <-> (a' < a \/ (a' = a /\ (b' < b \/ (b' = b /\ c' <= c))))%N.
Proof.
  destruct (ltb (mkVersion a b c) (mkVersion a' b' c')) eqn:Hlt.
  - apply ltb_spec in Hlt. split; [discriminate|lia].
  - split; [intros _|reflexivity].
    assert (Hn : ~ (a < a' \/ (a = a' /\ (b < b' \/ (b = b' /\ c < c'))))%N)
      by (rewrite <- ltb_spec; congruence).
    lia.
Qed.

(** Among release versions precedence is antisymmetric. *)
Lemma version_eq (v w : Version) :
  release v = true -> release w = true ->
  ltb v w = false -> ltb w v = false -> v = w.
Proof.
  intros Hv Hw. rewrite (release_inv v Hv), (release_inv w Hw).
  rewrite !ltb_false_spec. intros Hvw Hwv. f_equal; lia.
Qed.

(** [maximum] answers with a member that no member exceeds. *)
Lemma maximum_greatest (v : Version) (r : list Version) :
  forallb release (v :: r) = true ->
  In (maximum v r) (v :: r)
  /\ forall x, In x (v :: r) -> ltb (maximum v r) x = false.
Proof.
  revert v. induction r as [|y r IH]; intros v Hrel; cbn [maximum].
  - split; [now left|]. intros x [<-|[]].
    cbn [forallb] in Hrel. apply andb_true_iff in Hrel as [Hv _].
    rewrite (release_inv v Hv). apply ltb_false_spec. lia.
  - cbn [forallb] in Hrel. apply andb_true_iff in Hrel as [Hv Hrel].
    apply andb_true_iff in Hrel as [Hy Hrel].
    assert (Hrel' : forallb release ((if ltb v y then y else v) :: r) = true).
    { cbn [forallb]. rewrite Hrel. now destruct (ltb v y); rewrite ?Hv, ?Hy. }
    destruct (IH (if ltb v y then y else v) Hrel') as [Hin Hmax].
    split.
    + destruct Hin as [Hin|Hin]; [|now right; right].
      rewrite <- Hin. destruct (ltb v y); [right; now left|now left].
    + intros x Hx.
      assert (Hbest : ltb (maximum (if ltb v y then y else v) r)
                          (if ltb v y then y else v) = false)
        by (apply Hmax; now left).
      assert (Hm : release (maximum (if ltb v y then y else v) r) = true).
      { apply (proj1 (forallb_forall release _) Hrel'). exact Hin. }
      revert Hbest. rewrite (release_inv _ Hm).
      destruct Hx as [<-|[<-|Hx]].
      * destruct (ltb v y) eqn:Hvy; [|auto].
        revert Hvy. rewrite (release_inv v Hv), (release_inv y Hy).
        rewrite ltb_spec, !ltb_false_spec. lia.
      * destruct (ltb v y) eqn:Hvy; [auto|].
        revert Hvy. rewrite (release_inv v Hv), (release_inv y Hy).
        rewrite !ltb_false_spec. lia.
      * intros _. rewrite <- (release_inv _ Hm). apply Hmax. now right.
Qed.

Lemma filter_permutation {A} (f : A -> bool) (l l' : list A) :
  Permutation l l' -> Permutation (filter f l) (filter f l').
Proof.
  induction 1 as [|x l l' Hp IH|x y l|l l' l'' Hp1 IH1 Hp2 IH2]; cbn [filter].
  - constructor.
  - destruct (f x); [now constructor|exact IH].
  - destruct (f x), (f y); try apply Permutation_refl. constructor.
  - now transitivity (filter f l').
Qed.

Lemma forallb_filter {A} (p f : A -> bool) (l : list A) :
  forallb p l = true -> forallb p (filter f l) = true.
Proof.
  induction l as [|x l IH]; cbn [forallb filter]; [reflexivity|].
  intros Hp. apply andb_true_iff in Hp as [Hx Hl].
  destruct (f x); cbn [forallb]; rewrite ?Hx; auto.
Qed.

Lemma forallb_permutation {A} (p : A -> bool) (l l' : list A) :
  Permutation l l' -> forallb p l = true -> forallb p l' = true.
Proof.
  intros Hperm Hp. apply forallb_forall. intros x Hx.
  apply (proj1 (forallb_forall p l) Hp).
  exact (Permutation_in _ (Permutation_sym Hperm) Hx).
Qed.

Lemma select_permutation (c : Clause) (l l' : list Version) :
  forallb release l = true ->
  Permutation l l' -> select c l = select c l'.
Proof.
  intros Hrel Hp.
  pose proof (forallb_filter release (matches c) l Hrel) as Hf.
  pose proof (forallb_filter release (matches c) l'
                (forallb_permutation _ _ _ Hp Hrel)) as Hf'.
  apply (filter_permutation (matches c)) in Hp. unfold select.
  destruct (filter (matches c) l) as [|v r];
    destruct (filter (matches c) l') as [|v' r'].
  - reflexivity.
  - now apply Permutation_nil in Hp.
  - now apply Permutation_sym, Permutation_nil in Hp.
  - destruct (maximum_greatest v r Hf) as [Hin Hmax].
    destruct (maximum_greatest v' r' Hf') as [Hin' Hmax'].
    f_equal. apply version_eq.
    + exact (proj1 (forallb_forall release _) Hf _ Hin).
    + exact (proj1 (forallb_forall release _) Hf' _ Hin').
    + apply Hmax. exact (Permutation_in _ (Permutation_sym Hp) Hin').
    + apply Hmax'. exact (Permutation_in _ Hp Hin).
Qed.

(** X1 (the order clause of C1, for release versions): on a candidate
    list of release versions, whatever [_select_pragma_version] selects
    it selects for every ordering of the list. *)
Theorem select_pragma_version_order_independent
        (pragma_string : string) (version_list version_list' : list Version) :
  forallb release version_list = true ->
  Permutation version_list version_list' ->
  _select_pragma_version pragma_string version_list
  = _select_pragma_version pragma_string version_list'.
Proof.
  intros Hrel Hp. unfold _select_pragma_version. f_equal.
  generalize (Str.split_bars (Str.remove_char " " pragma_string) "").
  generalize (@None Version).
  intros version sets. revert version.
  induction sets as [|set sets IH]; intros version; cbn [select_loop].
  - reflexivity.
  - destruct (SimpleSpec (findall set)) as [spec|e]; cbn [rbind]; [|reflexivity].
    rewrite (select_permutation spec _ _ Hrel Hp). apply IH.
Qed.

(** X1 on three candidates and a rotation of them. *)
Lemma select_pragma_version_order_independent_witness :
  _select_pragma_version "^0.4.11 || >=0.5.0 <0.6.0"
    [mkVersion 0 4 25; mkVersion 0 5 7; mkVersion 0 6 1]
  = _select_pragma_version "^0.4.11 || >=0.5.0 <0.6.0"
      [mkVersion 0 6 1; mkVersion 0 4 25; mkVersion 0 5 7].
Proof.
  apply (select_pragma_version_order_independent
           "^0.4.11 || >=0.5.0 <0.6.0"
           [mkVersion 0 4 25; mkVersion 0 5 7; mkVersion 0 6 1]
           [mkVersion 0 6 1; mkVersion 0 4 25; mkVersion 0 5 7]).
  - reflexivity.
  - exact (Permutation_sym
             (Permutation_cons_append [mkVersion 0 4 25; mkVersion 0 5 7]
                                      (mkVersion 0 6 1))).
Defined.

(** With build metadata the order of the candidates shows: two builds
    of 0.5.7 have the same precedence, and the first one listed is the
    one selected. *)
Example select_pragma_version_build_metadata :
  _select_pragma_version "^0.5.0"
    [Version_of 0 5 7 [] ["a"]; Version_of 0 5 7 [] ["b"]]
  = Ok (Some "0.5.7+a")
  /\ _select_pragma_version "^0.5.0"
       [Version_of 0 5 7 [] ["b"]; Version_of 0 5 7 [] ["a"]]
     = Ok (Some "0.5.7+b").
Proof. split; vm_compute; reflexivity. Qed.

(** ** Downloads *)

Section Download.

Context {H : Host}.

Lemma download_logs_one_request url show_progress w :
  exists r w',
    _download_solc url show_progress w = (r, w')
    /\ fs w' = fs w /\ cwd w' = cwd w /\ solc_version w' = solc_version w
    /\ held w' = held w /\ trace w' = EvGet url :: trace w.
Proof.
  unfold _download_solc, bind, log, lift, ret, raise. simpl.
  destruct (requests_get url) as [response|e]; simpl; [|eauto 10].
  destruct show_progress; simpl.
  - destruct (content_length response); simpl; [|eauto 10].
    destruct tqdm_imported; simpl; [|eauto 10].
    destruct (accumulate "" (chunks response)); simpl; [|eauto 10].
    destruct (Nat.eqb (status_code response) 200); simpl; eauto 10.
  - destruct (Nat.eqb (status_code response) 200); simpl; eauto 10.
Qed.

Lemma accumulate_raises (l : list Chunk) (acc : string) (e : exn) :
  accumulate acc l = Raise e -> e = TypeError.
Proof.
  revert acc. induction l as [|[d|d] l IH]; simpl; intros acc Hacc.
  - discriminate.
  - eauto.
  - congruence.
Qed.

(** C9: a response whose status is not 200 never yields content, but the
    exception is not a [DownloadError]: building the message reads the
    attribute [status_url], which a response does not have, so without
    progress reporting the call ends in [AttributeError]. *)
Theorem download_non_200_raises_attribute_error
        (url : string) (show_progress : bool) (response : Response)
        (w : World) :
  requests_get url = Ok response ->
  status_code response <> 200 ->
  exists e,
    fst (_download_solc url show_progress w) = Raise e
    /\ (forall msg, e <> DownloadError msg)
    /\ (show_progress = false -> e = AttributeError "status_url").
Proof.
  intros Hget Hstatus.
  apply Nat.eqb_neq in Hstatus.
  unfold _download_solc, bind, log, lift, ret, raise. simpl.
  rewrite Hget. simpl.
  destruct show_progress; simpl.
  - destruct (content_length response) as [z|]; simpl.
    + destruct tqdm_imported; simpl.
      * destruct (accumulate "" (chunks response)) as [c|e] eqn:Hacc; simpl.
        -- rewrite Hstatus. simpl.
           exists (AttributeError "status_url"). repeat split; congruence.
        -- apply accumulate_raises in Hacc. subst e.
           exists TypeError. repeat split; congruence.
      * exists TypeError. repeat split; congruence.
    + eexists. repeat split; congruence.
  - rewrite Hstatus. simpl.
    exists (AttributeError "status_url"). repeat split; congruence.
Qed.

End Download.

(** C9 at a sample host: the server answers 404. *)
Lemma download_non_200_witness :
  exists e,
    fst (_download_solc (H := Samples.host "linux" 404 "Not Found" 0)
           "https://example.org/solc-static-linux" false
           (Samples.world Samples.fresh_fs None)) = Raise e
    /\ (forall msg, e <> DownloadError msg)
    /\ (false = false -> e = AttributeError "status_url").
Proof.
  apply (download_non_200_raises_attribute_error
           (H := Samples.host "linux" 404 "Not Found" 0)
           "https://example.org/solc-static-linux" false
           (mkResponse 404 "Not Found" (Some 9%Z) [BytesChunk "Not Found"])).
  - reflexivity.
  - simpl. lia.
Defined.

(** ** Version extraction *)

Lemma call_kwargs_fresh (k : string) (v : json) (kw : kwargs) :
  has_key k kw = false -> call_kwargs [(k, v)] kw = Ok ((k, v) :: kw).
Proof.
  intros Hk. unfold call_kwargs. now rewrite Hk.
Qed.

(** C8, as the code has it: when the line after the first one starts with
    the version text, [get_solc_version_string] gives "0.8.1"; when the
    version text is the first place where 'V' or '+' occur,
    [_import_version] gives "v0.8.1", tag marker included. *)
Theorem version_extraction
        {T : Toolchain} {H : Host}
        (kw : kwargs) (out : WrapperResult) (first_line rest : string)
        (path : string) (w : World) (pre rest' : string) :
  has_key "version" kw = false ->
  solc_wrapper (("version", JBool true) :: kw) = Ok out ->
  stdoutdata out = first_line ++ newline ++ Samples.version_line ++ rest ->
  Str.has_char LF first_line = false ->
  subprocess_output [path; "--version"] (cwd w) (fs w)
  = Ok (pre ++ Samples.version_line ++ rest') ->
  Str.has_char "V" pre = false ->
  Str.has_char "+" pre = false ->
  get_solc_version_string kw = Ok "0.8.1"
  /\ _import_version path w = (Ok "v0.8.1", w).
Proof.
  intros Hkw Hwrap Hout Hline Hsub HV Hplus. split.
  - unfold get_solc_version_string.
    rewrite (call_kwargs_fresh _ _ _ Hkw). cbn [rbind].
    rewrite Hwrap. cbn [rbind]. rewrite Hout.
    change (first_line ++ newline ++ Samples.version_line ++ rest)
      with (first_line ++ String LF (Samples.version_line ++ rest)).
    rewrite (after_first_skip _ _ _ Hline).
    vm_compute. reflexivity.
  - unfold _import_version. rewrite Hsub.
    rewrite (index_skip "V" "ersion: " pre _ HV) by reflexivity.
    rewrite (index_char_skip "+" pre _ Hplus).
    replace (Str.index "+" (Samples.version_line ++ rest')) with (Some 14)
      by (vm_compute; reflexivity).
    cbn [option_map].
    rewrite slice_skip. vm_compute. reflexivity.
Qed.

(** C8 on the output of a real compiler: a banner line, then the version
    line. *)
Lemma version_extraction_witness :
  get_solc_version_string
    (T := Samples.toolchain
            (Samples.banner ++ newline ++ Samples.version_line) []) []
  = Ok "0.8.1"
  /\ _import_version (H := Samples.host "linux" 200 "" 0) "solc"
       (Samples.world Samples.fresh_fs None)
     = (Ok "v0.8.1", Samples.world Samples.fresh_fs None).
Proof.
  apply (version_extraction
           (T := Samples.toolchain
                   (Samples.banner ++ newline ++ Samples.version_line) [])
           (H := Samples.host "linux" 200 "" 0)
           [] (mkWrapperResult
                 (Samples.banner ++ newline ++ Samples.version_line)
                 "" ["solc"] 0%Z)
           Samples.banner "" "solc"
           (Samples.world Samples.fresh_fs None)
           (Samples.banner ++ newline) "").
  - reflexivity.
  - reflexivity.
  - vm_compute. reflexivity.
  - vm_compute. reflexivity.
  - vm_compute. reflexivity.
  - vm_compute. reflexivity.
  - vm_compute. reflexivity.
Defined.

(** C8 as the claim words it fails: on an output that consists of the
    version line alone [get_solc_version_string] raises, and
    [_import_version] answers with the tag marker in front. *)
Lemma version_extraction_counterexample :
  get_solc_version_string (T := Samples.toolchain Samples.version_line []) []
  = Raise (SolcError "Unable to extract version string from command output")
  /\ fst (_import_version (H := Samples.host "linux" 200 "" 0) "solc"
            (Samples.world Samples.fresh_fs None))
     = Ok "v0.8.1".
Proof.
  split; vm_compute; reflexivity.
Qed.

(** ** Compiler output *)

Section CompilerOutput.

Context {T : Toolchain}.

Lemma diagnostic_inv (e : json) :
  diagnostic e = true ->
  exists sev,
    py_getitem e "severity" = Ok sev
    /\ is_error e = str_eq sev "error"
    /\ (str_eq sev "error" = true ->
        py_getitem e "formattedMessage" = Ok (JStr (formatted e))).
Proof.
  unfold diagnostic, is_error, formatted.
  destruct e as [| | | | |items|fields]; cbn [field]; try discriminate.
  cbn [py_getitem].
  destruct (assoc_get "severity" fields) as [sev|]; [|discriminate].
  intros Hd. exists sev. repeat split.
  intros Hsev. rewrite Hsev in Hd.
  destruct (assoc_get "formattedMessage" fields) as [[| | | |m| |]|];
    try discriminate.
  reflexivity.
Qed.

Lemma any_error_diagnostics (errors : list json) :
  Forall (fun e => diagnostic e = true) errors ->
  any_error errors = Ok (existsb is_error errors).
Proof.
  induction 1 as [|e l He Hl IH]; [reflexivity|].
  destruct (diagnostic_inv e He) as (sev & Hsev & Herr & _).
  cbn [any_error existsb]. rewrite Hsev, Herr. cbn [rbind].
  destruct (str_eq sev "error"); [reflexivity|exact IH].
Qed.

Lemma error_messages_diagnostics (errors : list json) :
  Forall (fun e => diagnostic e = true) errors ->
  error_messages errors
  = Ok (map (fun e => JStr (formatted e)) (filter is_error errors)).
Proof.
  induction 1 as [|e l He Hl IH]; [reflexivity|].
  destruct (diagnostic_inv e He) as (sev & Hsev & Herr & Hmsg).
  cbn [error_messages filter]. rewrite Hsev, Herr. cbn [rbind].
  destruct (str_eq sev "error"); [|exact IH].
  rewrite (Hmsg eq_refl), IH. reflexivity.
Qed.

Lemma py_join_strings (sep : string) (l : list string) :
  py_join sep (map JStr l) = Ok (Str.join sep l).
Proof.
  unfold py_join.
  assert (Hs : strings_of (map JStr l) = Ok l).
  { induction l as [|x l IH]; [reflexivity|].
    cbn [map strings_of]. now rewrite IH. }
  now rewrite Hs.
Qed.

(** C5: when the compiler's answer carries an [errors] array of
    diagnostics, [compile_standard] returns the whole parsed answer if
    no entry has severity "error" (so in particular when all are
    warnings), and otherwise raises [SolcError] whose message is the
    [formattedMessage] of the error entries, and of those only, joined
    by newlines. *)
Theorem compile_standard_reports_errors
        (input_data : json) (allow_empty : bool) (kw : kwargs)
        (sources : json) (out : WrapperResult)
        (fields : list (string * json)) (errors : list json) :
  py_get input_data "sources" JNull = Ok sources ->
  truthy sources || allow_empty = true ->
  has_key "stdin" kw = false ->
  has_key "standard_json" kw = false ->
  solc_wrapper (("stdin", JStr (json_dumps input_data))
                  :: ("standard_json", JBool true) :: kw) = Ok out ->
  json_loads (stdoutdata out) = Ok (JObj fields) ->
  assoc_get "errors" fields = Some (JArr errors) ->
  Forall (fun e => diagnostic e = true) errors ->
  compile_standard input_data allow_empty kw
  = if existsb is_error errors
    then Raise (SolcError
                  (Str.join newline (map formatted (filter is_error errors))))
    else Ok (JObj fields).
Proof.
  intros Hsrc Hgo Hstdin Hstd Hwrap Hloads Herrors Hdiag.
  unfold compile_standard. rewrite Hsrc. cbn [rbind].
  replace (negb (truthy sources) && negb allow_empty) with false
    by (destruct (truthy sources), allow_empty; simpl in *; congruence).
  cbn [call_kwargs]. rewrite Hstdin, Hstd. cbn [rbind].
  rewrite Hwrap. cbn [rbind]. rewrite Hloads. cbn [rbind py_in py_getitem].
  unfold has_key. rewrite Herrors. cbn [rbind py_iter].
  rewrite (any_error_diagnostics _ Hdiag). cbn [rbind].
  destruct (existsb is_error errors); [|reflexivity].
  rewrite (error_messages_diagnostics _ Hdiag). cbn [rbind].
  rewrite <- map_map, py_join_strings. reflexivity.
Qed.

End CompilerOutput.

(** C5 at a sample answer: one warning and the errors X and Y. *)
Lemma compile_standard_reports_errors_witness :
  compile_standard
    (T := Samples.toolchain "answer" [("answer", Samples.standard_output)])
    Samples.standard_input false []
  = Raise (SolcError ("X" ++ newline ++ "Y")).
Proof.
  apply (compile_standard_reports_errors
           (T := Samples.toolchain "answer" [("answer", Samples.standard_output)])
           Samples.standard_input false []
           (JObj [("a.sol", JObj [("content", JStr "contract A {}")])])
           (mkWrapperResult "answer" "" ["solc"] 0%Z)
           [("errors", JArr Samples.standard_errors)]
           Samples.standard_errors).
  - reflexivity.
  - reflexivity.
  - reflexivity.
  - reflexivity.
  - reflexivity.
  - reflexivity.
  - reflexivity.
  - repeat constructor.
Defined.

(** The two answers the specification quotes: a lone warning, and a lone
    error with message X. *)
Example compile_standard_lone_warning :
  compile_standard
    (T := Samples.toolchain "answer"
            [("answer", JObj [("errors", JArr [Samples.diagnostic_entry "warning" "W"])])])
    Samples.standard_input false []
  = Ok (JObj [("errors", JArr [Samples.diagnostic_entry "warning" "W"])]).
Proof. vm_compute. reflexivity. Qed.

Example compile_standard_lone_error :
  compile_standard
    (T := Samples.toolchain "answer"
            [("answer", JObj [("errors",
                 JArr [JObj [("severity", JStr "error");
                             ("formattedMessage", JStr "X")]])])])
    Samples.standard_input false []
  = Raise (SolcError "X").
Proof. vm_compute. reflexivity. Qed.

Section CombinedOutput.

Context {T : Toolchain}.

Lemma assoc_get_set_same {A} (k : string) (v : A) (l : list (string * A)) :
  assoc_get k (assoc_set k v l) = Some v.
Proof.
  induction l as [|[k' v'] l IH]; cbn [assoc_set assoc_get].
  - now rewrite String.eqb_refl.
  - destruct (String.eqb k k') eqn:Hk; cbn [assoc_get]; now rewrite Hk.
Qed.

Lemma assoc_get_set_other {A} (k k' : string) (v : A) (l : list (string * A)) :
  String.eqb k' k = false ->
  assoc_get k' (assoc_set k v l) = assoc_get k' l.
Proof.
  intros Hne. induction l as [|[k0 v0] l IH]; cbn [assoc_set assoc_get].
  - now rewrite Hne.
  - destruct (String.eqb k k0) eqn:Hk; cbn [assoc_get].
    + apply String.eqb_eq in Hk. subst k0. now rewrite Hne.
    + now rewrite IH.
Qed.

(** The loop keeps every key in its place and puts the processed entry
    under it. *)
Lemma parse_loop_lookup (sources : json) (items items' : list (string * json))
      (key : string) (data : json) :
  parse_loop sources items = Ok items' ->
  assoc_get key items = Some data ->
  exists data',
    parse_entry sources key data = Ok data'
    /\ assoc_get key items' = Some data'.
Proof.
  revert items'. induction items as [|[k d] items IH]; intros items' Hloop Hget.
  - discriminate.
  - cbn [parse_loop] in Hloop. cbn [assoc_get] in Hget.
    destruct (parse_entry sources k d) as [d'|] eqn:Hd; [|discriminate].
    cbn [rbind] in Hloop.
    destruct (parse_loop sources items) as [rest|] eqn:Hrest; [|discriminate].
    cbn [rbind] in Hloop. injection Hloop as <-.
    cbn [assoc_get].
    destruct (String.eqb key k) eqn:Hk.
    + apply String.eqb_eq in Hk. subst k. injection Hget as <-. eauto.
    + eauto.
Qed.

Lemma parse_loop_total (sources : json) (items : list (string * json)) :
  Forall (fun kv => is_ok (parse_entry sources (fst kv) (snd kv)) = true) items ->
  exists items', parse_loop sources items = Ok items'.
Proof.
  induction 1 as [|[k d] items Hd Hitems [rest IH]]; [now exists []|].
  cbn [parse_loop]. cbn [fst snd] in Hd.
  destruct (parse_entry sources k d) as [d'|]; [|discriminate].
  cbn [rbind]. rewrite IH. cbn [rbind]. eauto.
Qed.

Lemma parse_entry_abi_and_ast
      (sources : list (string * json)) (key : string)
      (data : list (string * json)) (abi_text : string) (abi : json)
      (source : list (string * json)) (ast : json) :
  assoc_get "abi" data = Some (JStr abi_text) ->
  json_loads abi_text = Ok abi ->
  assoc_get (Str.before_last ":" key) sources = Some (JObj source) ->
  assoc_get "AST" source = Some ast ->
  parse_entry (JObj sources) key (JObj data)
  = Ok (JObj (assoc_set "ast" ast (assoc_set "abi" abi data))).
Proof.
  intros Habi Hparse Hsrc Hast.
  unfold parse_entry, py_in, py_getitem, py_get, py_setitem, has_key,
    loads_value.
  rewrite Habi. cbn [rbind]. rewrite Hparse. cbn [rbind].
  rewrite Hsrc. cbn [rbind]. rewrite Hast. cbn [rbind]. reflexivity.
Qed.

(** C6: a contract entry whose [abi] is embedded JSON text, and whose
    source (the key up to its last ':') carries an AST, comes out of
    [_parse_compiler_output] under its own key with the parsed ABI in
    place of the text and the AST under [ast]; the call returns as soon
    as every contract entry is one the loop accepts. *)
Theorem parse_compiler_output_abi_and_ast
        (stdout : string) (top contracts sources : list (string * json))
        (key : string) (data : list (string * json))
        (abi_text : string) (abi : json)
        (source : list (string * json)) (ast : json) :
  json_loads stdout = Ok (JObj top) ->
  assoc_get "contracts" top = Some (JObj contracts) ->
  assoc_get "sources" top = Some (JObj sources) ->
  Forall (fun kv => is_ok (parse_entry (JObj sources) (fst kv) (snd kv)) = true)
         contracts ->
  assoc_get key contracts = Some (JObj data) ->
  assoc_get "abi" data = Some (JStr abi_text) ->
  json_loads abi_text = Ok abi ->
  assoc_get (Str.before_last ":" key) sources = Some (JObj source) ->
  assoc_get "AST" source = Some ast ->
  exists result data',
    _parse_compiler_output stdout = Ok (JObj result)
    /\ assoc_get key result = Some (JObj data')
    /\ assoc_get "abi" data' = Some abi
    /\ assoc_get "ast" data' = Some ast.
Proof.
  intros Hloads Hcontracts Hsources Hall Hkey Habi Hparse Hsrc Hast.
  destruct (parse_loop_total _ _ Hall) as [result Hloop].
  destruct (parse_loop_lookup _ _ _ _ _ Hloop Hkey) as (data' & Hentry & Hres).
  exists result, (assoc_set "ast" ast (assoc_set "abi" abi data)).
  split; [|split; [|split]].
  - unfold _parse_compiler_output. rewrite Hloads.
    cbn [rbind py_get]. rewrite Hcontracts, Hsources.
    cbn [rbind py_items]. rewrite Hloop. reflexivity.
  - rewrite Hres.
    rewrite (parse_entry_abi_and_ast _ _ _ _ _ _ _
               Habi Hparse Hsrc Hast) in Hentry.
    congruence.
  - rewrite assoc_get_set_other by reflexivity. apply assoc_get_set_same.
  - apply assoc_get_set_same.
Qed.

(** C7: when the parsed answer has an empty contracts map,
    [compile_source] and [compile_files] raise [ContractsNotFound]
    unless [allow_empty] is set, and return the empty map if it is. *)
Theorem compile_empty_contracts
        (source : string) (source_files : list string) (allow_empty : bool)
        (output_values : list string) (kw : kwargs)
        (out_source out_files : WrapperResult)
        (answer_source answer_files : json) :
  has_key "stdin" kw = false ->
  has_key "combined_json" kw = false ->
  has_key "source_files" kw = false ->
  solc_wrapper (("stdin", JStr source)
                  :: ("combined_json", JStr (Str.join "," output_values))
                  :: kw) = Ok out_source ->
  solc_wrapper (("source_files", JArr (map JStr source_files))
                  :: ("combined_json", JStr (Str.join "," output_values))
                  :: kw) = Ok out_files ->
  json_loads (stdoutdata out_source) = Ok answer_source ->
  json_loads (stdoutdata out_files) = Ok answer_files ->
  py_get answer_source "contracts" (JObj []) = Ok (JObj []) ->
  py_get answer_files "contracts" (JObj []) = Ok (JObj []) ->
  compile_source source allow_empty output_values kw
  = (if allow_empty then Ok (JObj []) else Raise ContractsNotFound)
  /\ compile_files source_files allow_empty output_values kw
     = (if allow_empty then Ok (JObj []) else Raise ContractsNotFound).
Proof.
  intros Hstdin Hcombined Hfiles Hws Hwf Hls Hlf Hcs Hcf.
  assert (Hparse : forall stdout answer,
             json_loads stdout = Ok answer ->
             py_get answer "contracts" (JObj []) = Ok (JObj []) ->
             _parse_compiler_output stdout = Ok (JObj [])).
  { intros stdout answer Hl Hc. unfold _parse_compiler_output.
    rewrite Hl. cbn [rbind]. rewrite Hc. cbn [rbind].
    destruct answer as [| | | | |items|fields]; try discriminate.
    cbn [py_get]. now destruct (assoc_get "sources" fields). }
  split.
  - unfold compile_source. rewrite Hstdin, Hcombined.
    cbn [call_kwargs]. rewrite Hstdin, Hcombined. cbn [rbind].
    rewrite Hws. cbn [rbind]. rewrite (Hparse _ _ Hls Hcs). cbn [rbind truthy].
    now destruct allow_empty.
  - unfold compile_files. rewrite Hcombined.
    cbn [call_kwargs]. rewrite Hfiles, Hcombined. cbn [rbind].
    rewrite Hwf. cbn [rbind]. rewrite (Hparse _ _ Hlf Hcf). cbn [rbind truthy].
    now destruct allow_empty.
Qed.

End CombinedOutput.

(** C6 at a sample answer: contract [a.sol:A] and the AST of [a.sol]. *)
Lemma parse_compiler_output_abi_and_ast_witness :
  exists result data',
    _parse_compiler_output
      (T := Samples.toolchain "answer"
              [("answer", Samples.combined_output);
               (Samples.abi_text, Samples.abi_value)])
      "answer" = Ok (JObj result)
    /\ assoc_get "a.sol:A" result = Some (JObj data')
    /\ assoc_get "abi" data' = Some Samples.abi_value
    /\ assoc_get "ast" data' = Some Samples.ast_value.
Proof.
  apply (parse_compiler_output_abi_and_ast
           (T := Samples.toolchain "answer"
                   [("answer", Samples.combined_output);
                    (Samples.abi_text, Samples.abi_value)])
           "answer"
           [("contracts",
             JObj [("a.sol:A", JObj [("abi", JStr Samples.abi_text);
                                     ("bin", JStr "6080")])]);
            ("sources", JObj [("a.sol", JObj [("AST", Samples.ast_value)])])]
           [("a.sol:A", JObj [("abi", JStr Samples.abi_text); ("bin", JStr "6080")])]
           [("a.sol", JObj [("AST", Samples.ast_value)])]
           "a.sol:A"
           [("abi", JStr Samples.abi_text); ("bin", JStr "6080")]
           Samples.abi_text Samples.abi_value
           [("AST", Samples.ast_value)] Samples.ast_value).
  - reflexivity.
  - reflexivity.
  - reflexivity.
  - repeat constructor.
  - reflexivity.
  - reflexivity.
  - vm_compute. reflexivity.
  - reflexivity.
  - reflexivity.
Defined.

(** C7 at the answer [{"contracts": {}}], empty results not allowed. *)
Lemma compile_empty_contracts_witness :
  compile_source
    (T := Samples.toolchain Samples.empty_contracts_text
            [(Samples.empty_contracts_text, Samples.empty_contracts)])
    "contract A {}" false ALL_OUTPUT_VALUES []
  = Raise ContractsNotFound
  /\ compile_files
       (T := Samples.toolchain Samples.empty_contracts_text
               [(Samples.empty_contracts_text, Samples.empty_contracts)])
       ["a.sol"] false ALL_OUTPUT_VALUES []
     = Raise ContractsNotFound.
Proof.
  apply (compile_empty_contracts
           (T := Samples.toolchain Samples.empty_contracts_text
                   [(Samples.empty_contracts_text, Samples.empty_contracts)])
           "contract A {}" ["a.sol"] false ALL_OUTPUT_VALUES []
           (mkWrapperResult Samples.empty_contracts_text "" ["solc"] 0%Z)
           (mkWrapperResult Samples.empty_contracts_text "" ["solc"] 0%Z)
           Samples.empty_contracts Samples.empty_contracts).
  - reflexivity.
  - reflexivity.
  - reflexivity.
  - reflexivity.
  - reflexivity.
  - vm_compute. reflexivity.
  - vm_compute. reflexivity.
  - reflexivity.
  - reflexivity.
Defined.

(** The same answer with [allow_empty] set. *)
Example compile_empty_contracts_allowed :
  compile_source
    (T := Samples.toolchain Samples.empty_contracts_text
            [(Samples.empty_contracts_text, Samples.empty_contracts)])
    "contract A {}" true ALL_OUTPUT_VALUES []
  = Ok (JObj []).
Proof. vm_compute. reflexivity. Qed.

(** ** The active version *)

Lemma check_version_tagged (version v' : string) :
  _check_version version = Ok v' -> exists s, v' = String "v" s.
Proof.
  unfold _check_version.
  destruct (parse (Str.lstrip "v" version)) as [v|]; [|discriminate].
  destruct (negb (matches minimal_spec v)); [discriminate|].
  intros Hv. injection Hv as <-. now exists (to_string v).
Qed.

Section ActiveVersion.

Context {H : Host}.

Lemma get_solc_folder_frame (solcx_binary_path : option path) (w : World) :
  cwd (snd (get_solc_folder solcx_binary_path w)) = cwd w
  /\ solc_version (snd (get_solc_folder solcx_binary_path w)) = solc_version w
  /\ held (snd (get_solc_folder solcx_binary_path w)) = held w
  /\ trace (snd (get_solc_folder solcx_binary_path w)) = trace w.
Proof.
  unfold get_solc_folder.
  destruct getenv_binary_path; [now cbn|].
  destruct solcx_binary_path; [now cbn|].
  unfold bind, mkdir, write_node, set_fs, ret.
  destruct (lookup (fs w) (joinpath home [".solcx"])) as [[c x|entries]|];
    cbn; auto.
  destruct (put (fs w) (joinpath home [".solcx"]) (Some (Dir []))); cbn; auto.
Qed.


End ActiveVersion.


(** The other branch: with v0.5.0 in place the call makes it active. *)
Example set_solc_version_installed :
  set_solc_version (H := Samples.host "linux" 200 "" 0) "0.5.0" false None
    (Samples.world (Samples.fs_with "solc-v0.5.0" (File "ELF" true))
                   (Some "v0.4.25"))
  = (Ok tt,
     Samples.world (Samples.fs_with "solc-v0.5.0" (File "ELF" true))
                   (Some "v0.5.0")).
Proof. vm_compute. reflexivity. Qed.

(** ** The file system *)

Lemma entry_get_put_same (k : string) (v : option node) (l : list (string * node)) :
  entry_get k (entry_put k v l) = v.
Proof.
  induction l as [|[k' v'] l IH]; cbn [entry_put entry_get].
  - destruct v; cbn [entry_get]; [now rewrite String.eqb_refl|reflexivity].
  - destruct (String.eqb k k') eqn:Hk.
    + destruct v; cbn [entry_get]; [now rewrite Hk|exact IH].
    + cbn [entry_get]. now rewrite Hk.
Qed.

Lemma entry_get_put_other (k k' : string) (v : option node)
      (l : list (string * node)) :
  String.eqb k' k = false ->
  entry_get k' (entry_put k v l) = entry_get k' l.
Proof.
  intros Hne. induction l as [|[k0 v0] l IH]; cbn [entry_put entry_get].
  - destruct v; cbn [entry_get]; [now rewrite Hne|reflexivity].
  - destruct (String.eqb k k0) eqn:Hk.
    + apply String.eqb_eq in Hk. subst k0. rewrite Hne.
      destruct v; cbn [entry_get]; [now rewrite Hne|exact IH].
    + cbn [entry_get]. now rewrite IH.
Qed.

Lemma lookup_app (n : node) (p q : path) :
  lookup n (p ++ q)%list
  = match lookup n p with
    | Some m => lookup m q
    | None => None
    end.
Proof.
  revert n. induction p as [|c p IH]; intros n; [reflexivity|].
  cbn [app lookup]. destruct n as [|entries]; [reflexivity|].
  destruct (entry_get c entries); [apply IH|reflexivity].
Qed.

(** What lies below an existing path has a directory above it. *)
Lemma lookup_parent (n : node) (p : path) (c : string) (q : path) :
  exists_ n (p ++ c :: q)%list = true -> is_dir n p = true.
Proof.
  unfold exists_, is_dir. rewrite lookup_app.
  destruct (lookup n p) as [[|entries]|]; cbn [lookup]; congruence.
Qed.

Lemma put_cons (entries : list (string * node)) (c : string) (p : path)
      (v : option node) :
  put (Dir entries) (c :: p) v
  = match p with
    | [] => Some (Dir (entry_put c v entries))
    | _ :: _ =>
        match entry_get c entries with
        | Some child =>
            match put child p v with
            | Some child' => Some (Dir (entry_put c (Some child') entries))
            | None => None
            end
        | None => None
        end
    end.
Proof. reflexivity. Qed.

Lemma put_cons_deeper (entries : list (string * node)) (c : string) (d : path)
      (c' : string) (v : option node) :
  put (Dir entries) (c :: d ++ [c'])%list v
  = match entry_get c entries with
    | Some child =>
        match put child (d ++ [c'])%list v with
        | Some child' => Some (Dir (entry_put c (Some child') entries))
        | None => None
        end
    | None => None
    end.
Proof. rewrite put_cons. now destruct d. Qed.

(** Writing below an existing directory succeeds. *)
Lemma put_in_dir (n : node) (d : path) (c : string) (v : option node) :
  is_dir n d = true -> exists n', put n (d ++ [c])%list v = Some n'.
Proof.
  unfold is_dir. revert n. induction d as [|c0 d IH]; intros n Hd.
  - cbn [lookup] in Hd. destruct n as [|entries]; [discriminate|].
    cbn. eauto.
  - cbn [lookup] in Hd. destruct n as [|entries]; [discriminate|].
    destruct (entry_get c0 entries) as [child|] eqn:Hc; [|discriminate].
    destruct (IH child Hd) as [child' Hput].
    cbn [app]. rewrite put_cons_deeper, Hc, Hput. eauto.
Qed.

Lemma lookup_put_same (n n' : node) (p : path) (v : option node) :
  put n p v = Some n' -> lookup n' p = v.
Proof.
  revert n n'. induction p as [|c p IH]; intros n n' Hput; [discriminate|].
  destruct n as [|entries]; [discriminate|].
  rewrite put_cons in Hput. destruct p as [|c1 p].
  - injection Hput as <-. cbn [lookup]. rewrite entry_get_put_same.
    now destruct v.
  - destruct (entry_get c entries) as [child|]; [|discriminate].
    destruct (put child (c1 :: p) v) as [child'|] eqn:Hchild; [|discriminate].
    injection Hput as <-. cbn [lookup]. rewrite entry_get_put_same.
    exact (IH _ _ Hchild).
Qed.

(** The directory written into is still a directory afterwards. *)
Lemma put_keeps_dir (n n' : node) (d : path) (c : string) (v : option node) :
  put n (d ++ [c])%list v = Some n' -> is_dir n' d = true.
Proof.
  unfold is_dir. revert n n'. induction d as [|c0 d IH]; intros n n' Hput.
  - cbn [app] in Hput. destruct n as [|entries]; [discriminate|].
    rewrite put_cons in Hput. injection Hput as <-. reflexivity.
  - cbn [app] in Hput. destruct n as [|entries]; [discriminate|].
    rewrite put_cons_deeper in Hput.
    destruct (entry_get c0 entries) as [child|]; [|discriminate].
    destruct (put child (d ++ [c])%list v) as [child'|] eqn:Hchild; [|discriminate].
    injection Hput as <-. cbn [lookup]. rewrite entry_get_put_same.
    exact (IH _ _ Hchild).
Qed.

(** Writing at [p] changes nothing at a path apart from [p]. *)
Lemma lookup_put_apart (n n' : node) (p q : path) (v : option node) :
  put n p v = Some n' -> apart p q = true -> lookup n' q = lookup n q.
Proof.
  unfold apart. revert n n' q. induction p as [|c p IH]; intros n n' q Hput Hapart.
  - discriminate.
  - destruct n as [|entries]; [discriminate|].
    destruct q as [|b q]; [cbn in Hapart; discriminate|].
    cbn [is_prefix] in Hapart. rewrite (String.eqb_sym b c) in Hapart.
    rewrite put_cons in Hput.
    cbn [lookup].
    destruct (String.eqb c b) eqn:Hcb.
    + apply String.eqb_eq in Hcb. subst b. cbn [andb] in Hapart.
      destruct p as [|c1 p]; [discriminate|].
      destruct (entry_get c entries) as [child|] eqn:Hc; [|discriminate].
      destruct (put child (c1 :: p) v) as [child'|] eqn:Hchild; [|discriminate].
      injection Hput as <-. cbn [lookup]. rewrite entry_get_put_same.
      exact (IH _ _ _ Hchild Hapart).
    + assert (Hget : forall l, entry_get b (entry_put c l entries) = entry_get b entries).
      { intros l. apply entry_get_put_other. now rewrite String.eqb_sym. }
      destruct p as [|c1 p].
      * injection Hput as <-. cbn [lookup]. now rewrite Hget.
      * destruct (entry_get c entries) as [child|]; [|discriminate].
        destruct (put child (c1 :: p) v) as [child'|]; [|discriminate].
        injection Hput as <-. cbn [lookup]. now rewrite Hget.
Qed.

(** ** What a call adds to the trace *)

Lemma downloads_app (a b : list Event) :
  downloads (a ++ b) = downloads a + downloads b.
Proof.
  induction a as [|[] a IH]; cbn [app downloads]; lia.
Qed.

Lemma lock_attempts_app (a b : list Event) :
  lock_attempts (a ++ b) = lock_attempts a + lock_attempts b.
Proof.
  induction a as [|[] a IH]; cbn [app lock_attempts]; lia.
Qed.

Lemma lock_attempts_quiet (evs : list Event) :
  forallb (fun e => negb (lock_event e)) evs = true -> lock_attempts evs = 0.
Proof.
  induction evs as [|[] evs IH]; cbn; auto; discriminate.
Qed.

Lemma quiet_weaken {A} (d d' : nat) (m : M A) :
  d <= d' -> quiet d m -> quiet d' m.
Proof.
  intros Hd Hm w. destruct (Hm w) as (Hh & evs & Ht & Hn & Hl).
  split; [exact Hh|]. exists evs. repeat split; auto. lia.
Qed.

Lemma quiet_same {A} (m : M A) :
  (forall w, held (snd (m w)) = held w /\ trace (snd (m w)) = trace w) ->
  quiet 0 m.
Proof.
  intros Hm w. destruct (Hm w) as [Hh Ht].
  split; [exact Hh|]. exists []. now rewrite Ht.
Qed.

Lemma quiet_bind {A B} (d1 d2 : nat) (m : M A) (k : A -> M B) :
  quiet d1 m -> (forall a, quiet d2 (k a)) -> quiet (d1 + d2) (bind m k).
Proof.
  intros Hm Hk w. unfold bind.
  destruct (Hm w) as (Hh & evs & Ht & Hn & Hl).
  destruct (m w) as [[a|e] w1]; cbn [snd] in *.
  - destruct (Hk a w1) as (Hh' & evs' & Ht' & Hn' & Hl').
    split; [congruence|]. exists (evs' ++ evs)%list.
    rewrite Ht', Ht, app_assoc, downloads_app, forallb_app, Hl, Hl'.
    repeat split; auto. lia.
  - split; [exact Hh|]. exists evs. repeat split; auto. lia.
Qed.

Lemma quiet_then {A B} (d : nat) (m : M A) (k : A -> M B) :
  quiet 0 m -> (forall a, quiet d (k a)) -> quiet d (bind m k).
Proof. intros Hm Hk. exact (quiet_bind 0 d m k Hm Hk). Qed.

Lemma quiet_first {A B} (d : nat) (m : M A) (k : A -> M B) :
  quiet d m -> (forall a, quiet 0 (k a)) -> quiet d (bind m k).
Proof.
  intros Hm Hk. apply (quiet_weaken (d + 0)); [lia|].
  exact (quiet_bind d 0 m k Hm Hk).
Qed.

Lemma quiet_try_finally {A} (d : nat) (body : M A) (cleanup : M unit) :
  quiet d body -> quiet 0 cleanup -> quiet d (try_finally body cleanup).
Proof.
  intros Hb Hc w. unfold try_finally.
  destruct (Hb w) as (Hh & evs & Ht & Hn & Hl).
  destruct (body w) as [r w1]; cbn [snd] in *.
  destruct (Hc w1) as (Hh' & evs' & Ht' & Hn' & Hl').
  assert (Hevs' : downloads evs' = 0) by lia.
  destruct (cleanup w1) as [[u|e] w2]; cbn [snd] in *.
  - split; [congruence|]. exists (evs' ++ evs)%list.
    rewrite Ht', Ht, app_assoc, downloads_app, forallb_app, Hl, Hl'.
    repeat split; auto. lia.
  - split; [congruence|]. exists (evs' ++ evs)%list.
    rewrite Ht', Ht, app_assoc, downloads_app, forallb_app, Hl, Hl'.
    repeat split; auto. lia.
Qed.

Lemma quiet_except {A} (d : nat) (body : M A) (handler : nat -> M A) :
  quiet d body -> (forall code, quiet 0 (handler code)) ->
  quiet d (except_CalledProcessError body handler).
Proof.
  intros Hb Hh w. unfold except_CalledProcessError.
  destruct (Hb w) as (Hheld & evs & Ht & Hn & Hl).
  destruct (body w) as [[a|e] w1]; cbn [snd] in *;
    try (split; [exact Hheld|]; exists evs; repeat split; auto; fail).
  destruct e as [| | | | | | | | |code| | | | |];
    try (split; [exact Hheld|]; exists evs; repeat split; auto; fail).
  destruct (Hh code w1) as (Hheld' & evs' & Ht' & Hn' & Hl').
  split; [congruence|]. exists (evs' ++ evs)%list.
  rewrite Ht', Ht, app_assoc, downloads_app, forallb_app, Hl, Hl'.
  repeat split; auto. lia.
Qed.

(** Taking apart the matches of a computation that is written as a
    function of the world. *)
Ltac break_match :=
  match goal with
  | |- context [match ?x with _ => _ end] =>
      lazymatch x with
      | context [match _ with _ => _ end] => fail
      | _ => destruct x
      end
  end.

Ltac same_world := apply quiet_same; intros ?w; repeat break_match; cbn; auto.

Lemma quiet_ret {A} (a : A) : quiet 0 (ret a).
Proof. unfold ret. same_world. Qed.

Lemma quiet_raise {A} (e : exn) : quiet 0 (@raise A e).
Proof. unfold raise. same_world. Qed.

Lemma quiet_lift {A} (r : Res A) : quiet 0 (lift r).
Proof. unfold lift. same_world. Qed.

Lemma quiet_get_world : quiet 0 get_world.
Proof. unfold get_world. same_world. Qed.

Lemma quiet_set_fs (n : node) : quiet 0 (set_fs n).
Proof. unfold set_fs. same_world. Qed.

Lemma quiet_set_cwd (p : path) : quiet 0 (set_cwd p).
Proof. unfold set_cwd. same_world. Qed.

Lemma quiet_set_global (v : option string) : quiet 0 (set_global_solc_version v).
Proof. unfold set_global_solc_version. same_world. Qed.

Lemma quiet_path_exists (p : path) : quiet 0 (path_exists p).
Proof. unfold path_exists. same_world. Qed.

Lemma quiet_write_node (p : path) (v : option node) : quiet 0 (write_node p v).
Proof. unfold write_node, set_fs. same_world. Qed.

Lemma quiet_mkdir (exist_ok : bool) (p : path) : quiet 0 (mkdir exist_ok p).
Proof. unfold mkdir, write_node, set_fs. same_world. Qed.

Lemma quiet_rmtree (p : path) : quiet 0 (rmtree p).
Proof. unfold rmtree, write_node, set_fs. same_world. Qed.

Lemma quiet_write_file (p : path) (c : string) : quiet 0 (write_file p c).
Proof. unfold write_file, write_node, set_fs. same_world. Qed.

Lemma quiet_chmod (p : path) : quiet 0 (_chmod_plus_x p).
Proof. unfold _chmod_plus_x, write_node, set_fs. same_world. Qed.

Lemma quiet_chdir (p : path) : quiet 0 (chdir p).
Proof. unfold chdir, set_cwd. same_world. Qed.

Create HintDb quiet.

#[local] Hint Resolve quiet_ret quiet_raise quiet_lift quiet_get_world
  quiet_set_fs quiet_set_cwd quiet_set_global quiet_path_exists
  quiet_write_node quiet_mkdir quiet_rmtree quiet_write_file quiet_chmod
  quiet_chdir : quiet.

(** A computation built from quiet steps with [bind], [if] and [match]. *)
Ltac quiet_steps :=
  repeat first
    [ progress intros
    | progress cbv zeta
    | solve [auto with quiet]
    | apply quiet_then
    | apply quiet_try_finally
    | apply quiet_except
    | match goal with
      | |- quiet _ (if ?b then _ else _) => destruct b
      | |- quiet _ (match ?x with _ => _ end) => destruct x
      end ].

Lemma quiet_extract_into (dir : path) (entries : list (string * node)) :
  quiet 0 (extract_into dir entries).
Proof.
  induction entries as [|[name n] entries IH]; cbn [extract_into]; quiet_steps.
Qed.

#[local] Hint Resolve quiet_extract_into : quiet.

Section QuietInstall.

Context {H : Host}.

Lemma quiet_rename (src dst : path) : quiet 0 (rename src dst).
Proof. unfold rename, set_fs. same_world. Qed.

Lemma quiet_get_solc_folder (p : option path) : quiet 0 (get_solc_folder p).
Proof. unfold get_solc_folder. quiet_steps. Qed.

Hint Resolve quiet_rename quiet_get_solc_folder : quiet.

Lemma quiet_get_executable (version : option string) (p : option path) :
  quiet 0 (get_executable version p).
Proof. unfold get_executable. quiet_steps. Qed.

Hint Resolve quiet_get_executable : quiet.

Lemma quiet_set_solc_version (version : string) (silent : bool)
      (p : option path) :
  quiet 0 (set_solc_version version silent p).
Proof. unfold set_solc_version. quiet_steps. Qed.

Lemma quiet_check_subprocess_call (command : list string) :
  quiet 0 (_check_subprocess_call command).
Proof.
  intros w. unfold _check_subprocess_call.
  destruct (subprocess_run command (cwd w) (fs w)) as [[[|n]|e] n'];
    cbn; (split; [reflexivity|]); exists [EvExec command]; auto.
Qed.

Lemma quiet_check_for_installed_version (version : string) (p : option path) :
  quiet 0 (_check_for_installed_version version p).
Proof. unfold _check_for_installed_version. quiet_steps. Qed.

Lemma quiet_get_temp_folder : quiet 0 _get_temp_folder.
Proof. unfold _get_temp_folder. quiet_steps. Qed.

Lemma quiet_download_solc (url : string) (show_progress : bool) :
  quiet 1 (_download_solc url show_progress).
Proof.
  intros w.
  destruct (download_logs_one_request url show_progress w)
    as (r & w' & -> & _ & _ & _ & Hh & Ht).
  cbn [snd]. split; [exact Hh|]. exists [EvGet url]. rewrite Ht. auto.
Qed.

End QuietInstall.

Section QuietPlatforms.

Context {H : Host}.

Hint Resolve quiet_rename quiet_get_solc_folder quiet_get_executable
  quiet_set_solc_version quiet_check_subprocess_call
  quiet_check_for_installed_version quiet_get_temp_folder : quiet.

(** Quiet steps around one download. *)
Ltac quiet_around_download :=
  repeat first
    [ progress intros
    | progress cbv zeta
    | solve [auto with quiet]
    | solve [apply (quiet_weaken 0 1); [lia | quiet_steps]]
    | match goal with
      | |- quiet 1 (bind (_download_solc _ _) _) =>
          apply quiet_first; [apply quiet_download_solc|]
      | |- quiet 1 (bind _ _) => apply quiet_then
      | |- quiet _ (if ?b then _ else _) => destruct b
      | |- quiet _ (match ?x with _ => _ end) => destruct x
      end
    | quiet_steps ].

Lemma quiet_build_steps (cmds : list (list string)) : quiet 0 (build_steps cmds).
Proof.
  induction cmds as [|cmd cmds IH]; cbn [build_steps]; quiet_steps.
Qed.

Hint Resolve quiet_build_steps : quiet.

Lemma quiet_install_solc_linux (version : string) (show_progress : bool)
      (p : option path) :
  quiet 1 (_install_solc_linux version show_progress p).
Proof. unfold _install_solc_linux. quiet_around_download. Qed.

Lemma quiet_install_solc_windows (version : string) (show_progress : bool)
      (p : option path) :
  quiet 1 (_install_solc_windows version show_progress p).
Proof. unfold _install_solc_windows. quiet_around_download. Qed.

Lemma quiet_install_solc_osx (version : string) (allow_osx show_progress : bool)
      (p : option path) :
  quiet 1 (_install_solc_osx version allow_osx show_progress p).
Proof. unfold _install_solc_osx. quiet_around_download. Qed.

Lemma quiet_install_locked (platform version : string)
      (allow_osx show_progress : bool) (p : option path) :
  quiet 1 (install_locked platform version allow_osx show_progress p).
Proof.
  unfold install_locked. apply quiet_first.
  - unfold install_platform.
    destruct (String.eqb platform "linux"); [apply quiet_install_solc_linux|].
    destruct (String.eqb platform "darwin"); [apply quiet_install_solc_osx|].
    destruct (String.eqb platform "win32"); [apply quiet_install_solc_windows|].
    apply (quiet_weaken 0 1); [lia|apply quiet_ret].
  - quiet_steps.
Qed.

End QuietPlatforms.

(** ** The install lock *)

Lemma holds_after_drop (lock : string) (l : list string) (w : World) :
  held w = drop_lock lock l -> holds w lock = false.
Proof.
  unfold holds, drop_lock. intros ->.
  induction l as [|x l IH]; [reflexivity|].
  cbn [filter]. destruct (String.eqb x lock) eqn:Hx; cbn [negb]; [exact IH|].
  cbn [existsb]. now rewrite String.eqb_sym, Hx.
Qed.

Lemma no_acquisition_in_quiet (evs : list Event) (lock : string) :
  forallb (fun e => negb (lock_event e)) evs = true ->
  ~ In (EvLockAcquired lock) evs.
Proof.
  intros Hq Hin. rewrite forallb_forall in Hq.
  specialize (Hq _ Hin). discriminate.
Qed.

Section Lock.

Context {H : Host}.

(** The four ways through [install_solc]. *)
Lemma install_solc_bad_platform script version allow_osx show_progress p w e :
  _get_platform = Raise e ->
  install_solc script version allow_osx show_progress p w = (Raise e, w).
Proof.
  intros Hp. destruct script; cbn [install_solc]; unfold bind, lift;
    now rewrite Hp.
Qed.

Lemma install_solc_bad_version script version allow_osx show_progress p w
      platform e :
  _get_platform = Ok platform ->
  _check_version version = Raise e ->
  install_solc script version allow_osx show_progress p w = (Raise e, w).
Proof.
  intros Hp Hv. destruct script; cbn [install_solc]; unfold bind, lift;
    now rewrite Hp, Hv.
Qed.

Lemma install_solc_acquired script version allow_osx show_progress p w
      platform v' :
  _get_platform = Ok platform ->
  _check_version version = Ok v' ->
  uncontended script = true ->
  install_solc script version allow_osx show_progress p w
  = bind (lock_acquired (get_process_lock v'))
      (fun _ =>
         try_finally
           (install_locked platform v' allow_osx show_progress p)
           (lock_release (get_process_lock v'))) w.
Proof.
  intros Hp Hv Hs.
  destruct script as [|[|others] later]; try discriminate;
    cbn [install_solc]; unfold bind at 1 2, lift; now rewrite Hp, Hv.
Qed.

Lemma install_solc_busy others later version allow_osx show_progress p w
      platform v' :
  _get_platform = Ok platform ->
  _check_version version = Ok v' ->
  install_solc (Busy others :: later) version allow_osx show_progress p w
  = match _check_for_installed_version v' None
            (mkWorld (others (fs w)) (cwd w) (solc_version w) (held w)
                     (EvLockWaited v' :: EvLockBlocked v' :: trace w)) with
    | (Ok None, w2) => (Ok tt, w2)
    | (Ok (Some _), w2) => install_solc later v' allow_osx false None w2
    | (Raise e, w2) => (Raise e, w2)
    end.
Proof.
  intros Hp Hv. cbn [install_solc]. unfold bind at 1 2, lift.
  rewrite Hp, Hv. unfold get_process_lock.
  unfold bind at 1. unfold lock_blocked at 1, log at 1.
  unfold bind at 1. unfold lock_wait at 1.
  unfold bind at 1, get_world at 1. unfold bind at 1, set_fs at 1.
  unfold log at 1. cbn [fs cwd solc_version held trace].
  unfold bind at 1.
  destruct (_check_for_installed_version v' None _) as [[[q|]|e] w2];
    reflexivity.
Qed.

(** What the locked part of the call adds. *)
Lemma locked_run (platform v' : string) (allow_osx show_progress : bool)
      (p : option path) (w : World) :
  let run :=
    bind (lock_acquired v')
      (fun _ => try_finally
                  (install_locked platform v' allow_osx show_progress p)
                  (lock_release v')) w in
  held (snd run) = drop_lock v' (v' :: held w)
  /\ exists body,
       trace (snd run)
       = (EvLockReleased v' :: body ++ EvLockAcquired v' :: trace w)%list
       /\ downloads body <= 1
       /\ forallb (fun e => negb (lock_event e)) body = true.
Proof.
  cbv zeta. unfold bind, lock_acquired, bind, get_world, set_held, log.
  cbn [fs cwd solc_version held trace].
  unfold try_finally.
  set (wA := mkWorld (fs w) (cwd w) (solc_version w) (v' :: held w)
                     (EvLockAcquired v' :: trace w)).
  destruct (quiet_install_locked platform v' allow_osx show_progress p wA)
    as (Hh & body & Ht & Hn & Hl).
  destruct (install_locked platform v' allow_osx show_progress p wA)
    as [r wB]. cbn [snd] in *.
  unfold lock_release, bind, get_world, set_held, log.
  cbn [fs cwd solc_version held trace snd].
  rewrite Hh, Ht. split; [reflexivity|].
  exists body. auto.
Qed.

(** C4: whatever [install_solc] returns or raises, if the call took the
    lock then releasing it is the last thing the call did, and the
    process does not hold it afterwards. *)
Theorem install_solc_releases_lock
        (script : list LockEvent) (version : string)
        (allow_osx show_progress : bool) (solcx_binary_path : option path)
        (w : World) :
  exists evs,
    trace (snd (install_solc script version allow_osx show_progress
                             solcx_binary_path w))
    = (evs ++ trace w)%list
    /\ forall lock,
         In (EvLockAcquired lock) evs ->
         hd_error evs = Some (EvLockReleased lock)
         /\ holds (snd (install_solc script version allow_osx show_progress
                                     solcx_binary_path w)) lock = false.
Proof.
  revert version allow_osx show_progress solcx_binary_path w.
  induction script as [|now later IH];
    intros version allow_osx show_progress p w.
  all: destruct _get_platform as [platform|e] eqn:Hp;
    [|rewrite (install_solc_bad_platform _ _ _ _ _ _ _ Hp); exists [];
      split; [reflexivity|intros ? []]].
  all: destruct (_check_version version) as [v'|e] eqn:Hv;
    [|rewrite (install_solc_bad_version _ _ _ _ _ _ _ _ Hp Hv); exists [];
      split; [reflexivity|intros ? []]].
  all: assert (Hacquired :
    forall script', uncontended script' = true ->
      exists evs,
        trace (snd (install_solc script' version allow_osx show_progress p w))
        = (evs ++ trace w)%list
        /\ forall lock,
             In (EvLockAcquired lock) evs ->
             hd_error evs = Some (EvLockReleased lock)
             /\ holds (snd (install_solc script' version allow_osx
                                         show_progress p w)) lock = false).
  1,3: intros script' Hs;
    rewrite (install_solc_acquired _ _ _ _ _ _ _ _ Hp Hv Hs);
    unfold get_process_lock;
    destruct (locked_run platform v' allow_osx show_progress p w)
      as (Hheld & body & Ht & _ & Hquiet);
    exists (EvLockReleased v' :: body ++ [EvLockAcquired v'])%list;
    split; [rewrite Ht; cbn [app]; now rewrite <- app_assoc|];
    intros lock [Hin|Hin]; [discriminate|];
    apply in_app_or in Hin as [Hin|[Hin|[]]];
    [now apply no_acquisition_in_quiet in Hin|];
    injection Hin as <-; split; [reflexivity|];
    exact (holds_after_drop _ _ _ Hheld).
  - now apply Hacquired.
  - destruct now as [|others]; [now apply Hacquired|].
    rewrite (install_solc_busy _ _ _ _ _ _ _ _ _ Hp Hv).
    set (w1 := mkWorld (others (fs w)) (cwd w) (solc_version w) (held w)
                       (EvLockWaited v' :: EvLockBlocked v' :: trace w)).
    destruct (quiet_check_for_installed_version v' None w1)
      as (_ & evs_c & Ht & _ & Hquiet).
    destruct (_check_for_installed_version v' None w1) as [[[q|]|e] w2];
      cbn [snd] in Ht.
    + destruct (IH v' allow_osx false None w2) as (evs_r & Htr & Hrel).
      exists (evs_r ++ evs_c ++ [EvLockWaited v'; EvLockBlocked v'])%list.
      split.
      * rewrite Htr, Ht. unfold w1. cbn [trace].
        now rewrite <- !app_assoc.
      * intros lock Hin.
        apply in_app_or in Hin as [Hin|Hin].
        -- destruct (Hrel lock Hin) as [Hhd Hholds]. split; [|exact Hholds].
           destruct evs_r; [destruct Hin|exact Hhd].
        -- apply in_app_or in Hin as [Hin|[Hin|[Hin|[]]]]; try discriminate.
           now apply no_acquisition_in_quiet in Hin.
    + exists (evs_c ++ [EvLockWaited v'; EvLockBlocked v'])%list.
      split.
      * cbn [snd]. rewrite Ht. unfold w1. cbn [trace].
        now rewrite <- !app_assoc.
      * intros lock Hin.
        apply in_app_or in Hin as [Hin|[Hin|[Hin|[]]]]; try discriminate.
        now apply no_acquisition_in_quiet in Hin.
    + exists (evs_c ++ [EvLockWaited v'; EvLockBlocked v'])%list.
      split.
      * cbn [snd]. rewrite Ht. unfold w1. cbn [trace].
        now rewrite <- !app_assoc.
      * intros lock Hin.
        apply in_app_or in Hin as [Hin|[Hin|[Hin|[]]]]; try discriminate.
        now apply no_acquisition_in_quiet in Hin.
Qed.

End Lock.

(** ** Installing twice *)

Lemma bind_ok {A B} (m : M A) (k : A -> M B) (w w' : World) (b : B) :
  bind m k w = (Ok b, w') ->
  exists a w1, m w = (Ok a, w1) /\ k a w1 = (Ok b, w').
Proof.
  unfold bind. destruct (m w) as [[a|e] w1]; [eauto|discriminate].
Qed.

Lemma try_finally_ok {A} (body : M A) (cleanup : M unit) (w w' : World) (a : A) :
  try_finally body cleanup w = (Ok a, w') ->
  exists w1 u, body w = (Ok a, w1) /\ cleanup w1 = (Ok u, w').
Proof.
  unfold try_finally. destruct (body w) as [r w1].
  destruct (cleanup w1) as [[u|e] w2] eqn:Hc; [|discriminate].
  intros Heq. injection Heq as -> ->. eauto.
Qed.

Lemma world_eta (w : World) :
  mkWorld (fs w) (cwd w) (solc_version w) (held w) (trace w) = w.
Proof. now destruct w. Qed.

Section Folder.

Context {H : Host}.

Lemma solc_bin_path_below (folder : path) (v : string) :
  exists q, solc_bin_path folder v = (folder ++ ("solc-" ++ v)%string :: q)%list.
Proof.
  unfold solc_bin_path, joinpath.
  destruct (String.eqb sys_platform "win32").
  - exists ["solc.exe"]. now rewrite <- app_assoc.
  - now exists [].
Qed.

Lemma executable_below_install (n : node) (v : string) (p : option path) :
  exists_ n (executable_path v p) = true -> exists_ n (install_path v p) = true.
Proof.
  unfold executable_path, install_path, solc_bin_path, joinpath, exists_.
  destruct (String.eqb sys_platform "win32"); [|auto].
  rewrite lookup_app.
  now destruct (lookup n (solc_folder p ++ [("solc-" ++ v)%string])%list).
Qed.

Lemma get_solc_folder_found (p : option path) (w : World) :
  is_dir (fs w) (solc_folder p) = true ->
  get_solc_folder p w = (Ok (solc_folder p), w).
Proof.
  unfold get_solc_folder, solc_folder, is_dir.
  destruct getenv_binary_path; [reflexivity|].
  destruct p; [reflexivity|].
  unfold bind, mkdir, ret.
  destruct (lookup (fs w) (joinpath home [".solcx"])) as [[c x|entries]|];
    try discriminate.
  reflexivity.
Qed.

Lemma get_solc_folder_ok_inv (p : option path) (w w1 : World) (folder : path) :
  get_solc_folder p w = (Ok folder, w1) ->
  folder = solc_folder p
  /\ forall c q, exists_ (fs w1) (folder ++ c :: q)%list = true -> w1 = w.
Proof.
  unfold get_solc_folder, solc_folder.
  destruct getenv_binary_path as [e|].
  { unfold ret. intros Heq. injection Heq as <- <-. auto. }
  destruct p as [p|].
  { unfold ret. intros Heq. injection Heq as <- <-. auto. }
  unfold bind, mkdir, ret, write_node, set_fs.
  destruct (lookup (fs w) (joinpath home [".solcx"])) as [[c x|entries]|] eqn:Hl.
  - discriminate.
  - intros Heq. injection Heq as <- <-. auto.
  - destruct (put (fs w) (joinpath home [".solcx"]) (Some (Dir [])))
      as [n'|] eqn:Hput; [|discriminate].
    intros Heq. injection Heq as <- <-. split; [reflexivity|].
    intros c q. unfold exists_. cbn [fs]. rewrite lookup_app.
    rewrite (lookup_put_same _ _ _ _ Hput). cbn. discriminate.
Qed.

Lemma get_executable_found (v : string) (tl : string) (p : option path)
      (w : World) :
  v = String "v" tl ->
  exists_ (fs w) (executable_path v p) = true ->
  get_executable (Some v) p w = (Ok (path_str (executable_path v p)), w).
Proof.
  intros -> Hex. unfold executable_path in *.
  destruct (solc_bin_path_below (solc_folder p) (String "v" tl)) as [q Hq].
  assert (Hdir : is_dir (fs w) (solc_folder p) = true).
  { rewrite Hq in Hex. exact (lookup_parent _ _ _ _ Hex). }
  unfold get_executable, bind, get_world, given.
  change (String.eqb (String "v" tl) "") with false. cbn [negb].
  change (String.eqb (String "v" tl) "") with false. cbv beta iota.
  rewrite (get_solc_folder_found _ _ Hdir).
  unfold path_exists. rewrite Hex. reflexivity.
Qed.

Lemma get_executable_ok_inv (v : string) (tl : string) (p : option path)
      (w w1 : World) (bin : string) :
  v = String "v" tl ->
  get_executable (Some v) p w = (Ok bin, w1) ->
  w1 = w
  /\ bin = path_str (executable_path v p)
  /\ exists_ (fs w) (executable_path v p) = true.
Proof.
  intros ->. unfold executable_path, get_executable, bind, get_world, given.
  change (String.eqb (String "v" tl) "") with false. cbn [negb].
  change (String.eqb (String "v" tl) "") with false. cbv beta iota.
  destruct (get_solc_folder p w) as [[folder|e] w0] eqn:Hf; [|discriminate].
  destruct (get_solc_folder_ok_inv _ _ _ _ Hf) as [-> Hsame].
  unfold path_exists, raise, ret.
  destruct (exists_ (fs w0) (solc_bin_path (solc_folder p) (String "v" tl)))
    eqn:Hex; cbn [negb]; [|discriminate].
  intros Heq. injection Heq as <- <-.
  destruct (solc_bin_path_below (solc_folder p) (String "v" tl)) as [q Hq].
  assert (Hw : w0 = w)
    by (apply (Hsame ("solc-" ++ String "v" tl)%string q); now rewrite <- Hq).
  subst w0. auto.
Qed.

Lemma check_for_installed_found (v : string) (p : option path) (w : World) :
  exists_ (fs w) (install_path v p) = true ->
  _check_for_installed_version v p w = (Ok None, w).
Proof.
  intros Hex. unfold install_path, joinpath in Hex.
  assert (Hdir : is_dir (fs w) (solc_folder p) = true)
    by exact (lookup_parent _ _ _ _ Hex).
  unfold _check_for_installed_version, bind.
  rewrite (get_solc_folder_found _ _ Hdir).
  unfold path_exists, joinpath. rewrite Hex. reflexivity.
Qed.

End Folder.

(** ** Waiting for the lock *)

Section LockWait.

Context {H : Host}.

Lemma check_for_installed_frame (version : string) (p : option path)
      (w : World) :
  cwd (snd (_check_for_installed_version version p w)) = cwd w
  /\ solc_version (snd (_check_for_installed_version version p w))
     = solc_version w
  /\ held (snd (_check_for_installed_version version p w)) = held w
  /\ trace (snd (_check_for_installed_version version p w)) = trace w.
Proof.
  pose proof (get_solc_folder_frame p w) as Hf.
  unfold _check_for_installed_version, bind, path_exists, ret.
  destruct (get_solc_folder p w) as [[folder|e] w1]; cbn [snd] in *;
    [|exact Hf].
  destruct (exists_ (fs w1) (joinpath folder ["solc-" ++ version]));
    exact Hf.
Qed.

Lemma check_for_installed_missing (v : string) (p : option path) (w : World) :
  is_dir (fs w) (solc_folder p) = true ->
  exists_ (fs w) (install_path v p) = false ->
  _check_for_installed_version v p w = (Ok (Some (install_path v p)), w).
Proof.
  intros Hdir Hex. unfold _check_for_installed_version, bind.
  rewrite (get_solc_folder_found _ _ Hdir).
  unfold path_exists, install_path in *. now rewrite Hex.
Qed.

(** A call with the checked version is the call with the version as it
    was given. *)
Lemma install_solc_checked (script : list LockEvent) (version v' : string)
      (allow_osx show_progress : bool) (p : option path) (w : World) :
  _check_version version = Ok v' ->
  install_solc script v' allow_osx show_progress p w
  = install_solc script version allow_osx show_progress p w.
Proof.
  intros Hv.
  destruct (check_version_inv _ _ Hv) as (v & Hparse & Hm & Hv').
  pose proof (check_version_of_parsed _ _ Hparse Hm) as Hagain.
  rewrite <- Hv' in Hagain.
  destruct script as [|[|others] later]; cbn [install_solc];
    unfold bind at 1 2, lift;
    destruct _get_platform; try reflexivity; now rewrite Hv, Hagain.
Qed.

(** An uncontended call asks for the lock once. *)
Lemma install_solc_one_attempt (script : list LockEvent) (version : string)
      (allow_osx show_progress : bool) (p : option path) (w : World)
      (platform v' : string) :
  _get_platform = Ok platform ->
  _check_version version = Ok v' ->
  uncontended script = true ->
  lock_attempts (trace (snd (install_solc script version allow_osx
                                          show_progress p w)))
  = lock_attempts (trace w) + 1.
Proof.
  intros Hp Hv Hs.
  rewrite (install_solc_acquired _ _ _ _ _ _ _ _ Hp Hv Hs).
  unfold get_process_lock, bind, lock_acquired, bind, get_world, set_held,
    log. cbn [fs cwd solc_version held trace].
  set (wA := mkWorld (fs w) (cwd w) (solc_version w) (v' :: held w)
                     (EvLockAcquired v' :: trace w)).
  assert (Htr : trace (snd (try_finally
                              (install_locked platform v' allow_osx
                                              show_progress p)
                              (lock_release v') wA))
                = EvLockReleased v'
                  :: trace (snd (install_locked platform v' allow_osx
                                                show_progress p wA))).
  { unfold try_finally, lock_release, bind, get_world, set_held, log.
    now destruct (install_locked platform v' allow_osx show_progress p wA). }
  rewrite Htr.
  destruct (quiet_install_locked platform v' allow_osx show_progress p wA)
    as (_ & evs & -> & _ & Hquiet).
  cbn [lock_attempts]. rewrite lock_attempts_app.
  rewrite (lock_attempts_quiet _ Hquiet). unfold wA.
  cbn [trace lock_attempts]. lia.
Qed.

(** C3, as the code has it, for a call with the default install folder
    and without a progress bar.  A call that finds the lock held waits.
    If the version is in place after the wait the call is over,
    successfully: it has sent no request and has not asked for the lock
    again.  If it is not in place the call goes on as the same call
    started afresh in the world the wait left, which may find the lock
    held again.  So the retries are not limited to one: when the lock
    is found held [k] times in a row while nobody installs the version,
    the call asks for the lock [k + 1] times. *)
Theorem install_solc_waits_then_rechecks
        (others : node -> node) (later : list LockEvent) (version : string)
        (allow_osx : bool) (w : World) (platform v' : string) :
  _get_platform = Ok platform ->
  _check_version version = Ok v' ->
  (exists_ (others (fs w)) (install_path v' None) = true ->
   install_solc (Busy others :: later) version allow_osx false None w
   = (Ok tt, waited v' others w))
  /\ (forall (missing : path) (w2 : World),
         _check_for_installed_version v' None (waited v' others w)
         = (Ok (Some missing), w2) ->
         install_solc (Busy others :: later) version allow_osx false None w
         = install_solc later version allow_osx false None w2
         /\ trace w2 = EvLockWaited v' :: EvLockBlocked v' :: trace w
         /\ held w2 = held w)
  /\ (forall k : nat,
         uncontended later = true ->
         is_dir (fs w) (solc_folder None) = true ->
         exists_ (fs w) (install_path v' None) = false ->
         lock_attempts
           (trace (snd (install_solc (repeat (Busy (fun n => n)) k ++ later)
                                     version allow_osx false None w)))
         = lock_attempts (trace w) + k + 1).
Proof.
  intros Hp Hv. split; [|split].
  - intros Hex.
    rewrite (install_solc_busy _ _ _ _ _ _ _ _ _ Hp Hv).
    fold (waited v' others w).
    now rewrite (check_for_installed_found v' None (waited v' others w) Hex).
  - intros missing w2 Hcheck.
    pose proof (check_for_installed_frame v' None (waited v' others w))
      as (_ & _ & Hh & Ht).
    rewrite Hcheck in Hh, Ht. cbn [snd] in Hh, Ht.
    rewrite (install_solc_busy _ _ _ _ _ _ _ _ _ Hp Hv).
    fold (waited v' others w). rewrite Hcheck.
    rewrite (install_solc_checked later version v' allow_osx false None w2 Hv).
    auto.
  - intros k Hlater. revert w.
    induction k as [|k IH]; intros w Hdir Hex; cbn [repeat app].
    + rewrite (install_solc_one_attempt _ _ _ _ _ _ _ _ Hp Hv Hlater). lia.
    + rewrite (install_solc_busy _ _ _ _ _ _ _ _ _ Hp Hv).
      fold (waited v' (fun n => n) w).
      rewrite (check_for_installed_missing v' None
                 (waited v' (fun n => n) w) Hdir Hex).
      rewrite (install_solc_checked _ version v' allow_osx false None _ Hv).
      rewrite (IH (waited v' (fun n => n) w) Hdir Hex).
      cbn [waited trace lock_attempts]. lia.
Qed.

End LockWait.

(** C3 where the holder of the lock installs v0.5.0 meanwhile: the call
    returns without a download of its own; and where the lock is found
    held twice while nobody installs: the call asks for it three
    times. *)
Lemma install_solc_waits_then_rechecks_witness :
  install_solc (H := Samples.host "linux" 200 "ELF" 0)
    [Busy (fun _ => Samples.fs_with "solc-v0.5.0" (File "ELF" true))]
    "0.5.0" false false None (Samples.world Samples.fresh_fs None)
  = (Ok tt,
     mkWorld (Samples.fs_with "solc-v0.5.0" (File "ELF" true))
             ["home"; "user"] None []
             [EvLockWaited "v0.5.0"; EvLockBlocked "v0.5.0"])
  /\ lock_attempts
       (trace (snd (install_solc (H := Samples.host "linux" 200 "ELF" 0)
                      [Busy (fun n => n); Busy (fun n => n)]
                      "0.5.0" false false None
                      (Samples.world (Samples.fs_with "solc-v0.4.25"
                                                      (File "ELF" true))
                                     None))))
     = 3.
Proof.
  split.
  - exact (proj1 (install_solc_waits_then_rechecks
                    (H := Samples.host "linux" 200 "ELF" 0)
                    (fun _ => Samples.fs_with "solc-v0.5.0" (File "ELF" true))
                    [] "0.5.0" false
                    (Samples.world Samples.fresh_fs None) "linux" "v0.5.0"
                    eq_refl eq_refl)
                 eq_refl).
  - exact (proj2 (proj2 (install_solc_waits_then_rechecks
                           (H := Samples.host "linux" 200 "ELF" 0)
                           (fun n => n) [] "0.5.0" false
                           (Samples.world (Samples.fs_with "solc-v0.4.25"
                                                           (File "ELF" true))
                                          None)
                           "linux" "v0.5.0" eq_refl eq_refl))
                 2 eq_refl eq_refl eq_refl).
Defined.

(** C3 as the claim words it fails: when the lock is found held twice and
    nobody installs the version, the call asks for the lock three times,
    which is the first call and two retries, before it installs. *)
Lemma install_solc_retries_counterexample :
  lock_attempts
    (trace (snd (install_solc (H := Samples.host "linux" 200 "ELF" 0)
                   [Busy (fun n => n); Busy (fun n => n)]
                   "0.5.0" false false None
                   (Samples.world Samples.fresh_fs None))))
  = 3
  /\ fst (install_solc (H := Samples.host "linux" 200 "ELF" 0)
            [Busy (fun n => n); Busy (fun n => n)]
            "0.5.0" false false None
            (Samples.world Samples.fresh_fs None))
     = Ok tt.
Proof.
  split; vm_compute; reflexivity.
Qed.

Section TempFolder.

Context {H : Host}.

(** Whatever [_get_temp_folder] does, it does it at [temp_path]. *)
Lemma get_temp_folder_inv (w wT : World) (r : Res path) :
  _get_temp_folder w = (r, wT) ->
  cwd wT = cwd w /\ solc_version wT = solc_version w
  /\ held wT = held w /\ trace wT = trace w
  /\ forall q, apart temp_path q = true -> lookup (fs wT) q = lookup (fs w) q.
Proof.
  assert (Hdone : forall n,
    (forall q, apart temp_path q = true -> lookup n q = lookup (fs w) q) ->
    forall r', (r', mkWorld n (cwd w) (solc_version w) (held w) (trace w))
               = (r, wT) ->
    cwd wT = cwd w /\ solc_version wT = solc_version w
    /\ held wT = held w /\ trace wT = trace w
    /\ forall q, apart temp_path q = true -> lookup (fs wT) q = lookup (fs w) q).
  { intros n Hn r' Heq. injection Heq as <- <-. cbn. auto. }
  assert (Hmk : forall n,
    (forall q, apart temp_path q = true -> lookup n q = lookup (fs w) q) ->
    bind (mkdir false temp_path) (fun _ => ret temp_path)
         (mkWorld n (cwd w) (solc_version w) (held w) (trace w)) = (r, wT) ->
    cwd wT = cwd w /\ solc_version wT = solc_version w
    /\ held wT = held w /\ trace wT = trace w
    /\ forall q, apart temp_path q = true -> lookup (fs wT) q = lookup (fs w) q).
  { intros n Hn. unfold bind, mkdir, write_node, set_fs, ret. cbn [fs].
    destruct (lookup n temp_path) as [[c x|entries]|];
      try (apply Hdone; exact Hn).
    destruct (put n temp_path (Some (Dir []))) as [n2|] eqn:H2;
      cbn [fs cwd solc_version held trace]; [|apply Hdone; exact Hn].
    apply Hdone. intros q Hq.
    rewrite (lookup_put_apart _ _ _ _ _ H2 Hq). auto. }
  unfold _get_temp_folder. cbv zeta.
  unfold bind at 1. unfold path_exists at 1.
  destruct (exists_ (fs w) temp_path).
  - unfold bind at 1. unfold rmtree, write_node, set_fs.
    destruct (lookup (fs w) temp_path) as [[c x|entries]|].
    + rewrite <- (world_eta w) at 1. apply Hdone. auto.
    + destruct (put (fs w) temp_path None) as [n1|] eqn:H1.
      * apply Hmk. intros q Hq. exact (lookup_put_apart _ _ _ _ _ H1 Hq).
      * rewrite <- (world_eta w) at 1. apply Hdone. auto.
    + rewrite <- (world_eta w) at 1. apply Hdone. auto.
  - unfold bind at 1. unfold ret at 1.
    rewrite <- (world_eta w) at 1. apply Hmk. auto.
Qed.

Lemma get_temp_folder_ready (w : World) :
  temp_dir_ready (fs w) = true ->
  exists wT, _get_temp_folder w = (Ok temp_path, wT).
Proof.
  unfold temp_dir_ready. intros Hready.
  apply andb_true_iff in Hready as [Hdir Hnofile].
  unfold _get_temp_folder. cbv zeta.
  unfold bind, path_exists, exists_, rmtree, mkdir, write_node, set_fs, ret.
  unfold temp_path, joinpath in *.
  set (name := "solcx-tmp-" ++ Str.of_N getpid) in *.
  destruct (lookup (fs w) (gettempdir ++ [name])%list) as [[c x|entries]|]
    eqn:Hl; [discriminate| |].
  - destruct (put_in_dir (fs w) gettempdir name None Hdir) as [n1 H1].
    rewrite H1, Hl. cbn [fs].
    rewrite (lookup_put_same _ _ _ _ H1).
    destruct (put_in_dir n1 gettempdir name (Some (Dir []))
                         (put_keeps_dir _ _ _ _ _ H1)) as [n2 H2].
    rewrite H2. eauto.
  - rewrite Hl.
    destruct (put_in_dir (fs w) gettempdir name (Some (Dir [])) Hdir)
      as [n2 H2].
    rewrite H2. eauto.
Qed.

End TempFolder.

Section Twice.

Context {H : Host}.

Lemma get_platform_darwin :
  _get_platform = Ok "darwin" -> sys_platform = "darwin".
Proof.
  unfold _get_platform.
  destruct (Str.startswith sys_platform "linux"); [discriminate|].
  destruct (String.eqb sys_platform "darwin") eqn:Hd.
  - intros _. now apply String.eqb_eq.
  - destruct (String.eqb sys_platform "win32"); cbn [orb]; [|discriminate].
    intros Heq. now injection Heq.
Qed.

Lemma executable_path_darwin (v : string) (p : option path) :
  sys_platform = "darwin" -> executable_path v p = install_path v p.
Proof.
  intros Hd. unfold executable_path, install_path, solc_bin_path.
  now rewrite Hd.
Qed.

(** The platform step on a machine that has the version: no event, and
    no change to the files but at the temporary folder. *)
Lemma install_platform_installed
      (platform v' : string) (allow_osx show_progress : bool)
      (w w' : World) (r : Res unit) :
  exists_ (fs w) (install_path v' None) = true ->
  (platform = "darwin" -> apart temp_path (install_path v' None) = true) ->
  install_platform platform v' allow_osx show_progress None w = (r, w') ->
  cwd w' = cwd w /\ solc_version w' = solc_version w
  /\ held w' = held w /\ trace w' = trace w
  /\ forall q, (platform = "darwin" -> apart temp_path q = true) ->
               lookup (fs w') q = lookup (fs w) q.
Proof.
  intros Hex Hapart Hrun. unfold install_platform in Hrun.
  destruct (String.eqb platform "linux").
  { unfold _install_solc_linux, bind in Hrun.
    rewrite (check_for_installed_found _ _ _ Hex) in Hrun.
    unfold ret in Hrun. injection Hrun as <- <-. auto. }
  destruct (String.eqb platform "darwin") eqn:Hd.
  { apply String.eqb_eq in Hd. specialize (Hapart Hd).
    unfold _install_solc_osx in Hrun.
    destruct (Str.startswith v' "v0.4" && negb allow_osx).
    { unfold raise in Hrun. injection Hrun as <- <-. auto. }
    unfold bind at 1 in Hrun.
    destruct (_get_temp_folder w) as [[tp|e] wT] eqn:Ht.
    - destruct (get_temp_folder_inv _ _ _ Ht) as (Hc & Hs & Hh & Htr & Hl).
      assert (HexT : exists_ (fs wT) (install_path v' None) = true).
      { unfold exists_. rewrite (Hl _ Hapart). exact Hex. }
      cbv zeta in Hrun. unfold bind at 1 in Hrun.
      rewrite (check_for_installed_found _ _ _ HexT) in Hrun.
      unfold ret in Hrun. injection Hrun as <- <-. auto 10.
    - destruct (get_temp_folder_inv _ _ _ Ht) as (Hc & Hs & Hh & Htr & Hl).
      injection Hrun as <- <-. auto 10. }
  destruct (String.eqb platform "win32").
  { unfold _install_solc_windows, bind in Hrun.
    rewrite (check_for_installed_found _ _ _ Hex) in Hrun.
    unfold ret in Hrun. injection Hrun as <- <-. auto. }
  unfold ret in Hrun. injection Hrun as <- <-. auto.
Qed.

Lemma install_platform_again
      (platform v' : string) (allow_osx show_progress : bool) (w : World) :
  exists_ (fs w) (install_path v' None) = true ->
  (platform = "darwin" ->
   apart temp_path (install_path v' None) = true
   /\ Str.startswith v' "v0.4" && negb allow_osx = false
   /\ temp_dir_ready (fs w) = true) ->
  fst (install_platform platform v' allow_osx show_progress None w) = Ok tt.
Proof.
  intros Hex Hmac. unfold install_platform.
  destruct (String.eqb platform "linux").
  { unfold _install_solc_linux, bind.
    now rewrite (check_for_installed_found _ _ _ Hex). }
  destruct (String.eqb platform "darwin") eqn:Hd.
  { apply String.eqb_eq in Hd.
    destruct (Hmac Hd) as (Hapart & Hold & Hready).
    unfold _install_solc_osx. rewrite Hold.
    destruct (get_temp_folder_ready _ Hready) as [wT Ht].
    destruct (get_temp_folder_inv _ _ _ Ht) as (_ & _ & _ & _ & Hl).
    assert (HexT : exists_ (fs wT) (install_path v' None) = true).
    { unfold exists_. rewrite (Hl _ Hapart). exact Hex. }
    unfold bind at 1. rewrite Ht. cbv zeta. unfold bind at 1.
    now rewrite (check_for_installed_found _ _ _ HexT). }
  destruct (String.eqb platform "win32").
  { unfold _install_solc_windows, bind.
    now rewrite (check_for_installed_found _ _ _ Hex). }
  reflexivity.
Qed.

(** After the platform step the call sends no request. *)
Lemma install_locked_split
      (platform v' : string) (allow_osx show_progress : bool)
      (p : option path) :
  exists k,
    install_locked platform v' allow_osx show_progress p
    = bind (install_platform platform v' allow_osx show_progress p) k
    /\ forall a, quiet 0 (k a).
Proof.
  eexists. split; [reflexivity|].
  pose proof quiet_get_executable. pose proof quiet_set_solc_version.
  pose proof quiet_check_subprocess_call.
  intros a. quiet_steps.
Qed.

Lemma install_locked_no_download
      (platform v' : string) (allow_osx show_progress : bool) (w : World) :
  exists_ (fs w) (install_path v' None) = true ->
  (platform = "darwin" -> apart temp_path (install_path v' None) = true) ->
  downloads (trace (snd (install_locked platform v' allow_osx show_progress
                                        None w)))
  = downloads (trace w).
Proof.
  intros Hex Hapart.
  destruct (install_locked_split platform v' allow_osx show_progress None)
    as (k & -> & Hk).
  unfold bind.
  destruct (install_platform platform v' allow_osx show_progress None w)
    as [[u|e] wC] eqn:Hstep;
    destruct (install_platform_installed _ _ _ _ _ _ _ Hex Hapart Hstep)
      as (_ & _ & _ & Ht & _).
  - destruct (Hk u wC) as (_ & evs & Hevs & Hn & _).
    rewrite Hevs, downloads_app, Ht. lia.
  - cbn [snd]. now rewrite Ht.
Qed.

End Twice.

Section TwiceInARow.

Context {H : Host}.

(** What a successful run of the locked part leaves behind. *)
Lemma install_locked_ok_inv
      (platform v' tl : string) (allow_osx show_progress : bool)
      (wA wB : World) :
  v' = String "v" tl ->
  version_query_pure ->
  install_locked platform v' allow_osx show_progress None wA = (Ok tt, wB) ->
  exists_ (fs wB) (executable_path v' None) = true
  /\ fst (subprocess_run [path_str (executable_path v' None); "--version"]
                         (cwd wB) (fs wB)) = Ok 0
  /\ given (solc_version wB) = true
  /\ (platform = "darwin" ->
      Str.startswith v' "v0.4" && negb allow_osx = false).
Proof.
  intros Hv Hpure Hrun. unfold install_locked in Hrun.
  apply bind_ok in Hrun as (u & wC & Hstep & Hrest).
  apply bind_ok in Hrest as (bin & wD & Hexe & Hrest).
  destruct (get_executable_ok_inv _ _ _ _ _ _ Hv Hexe) as (HwD & Hbin & Hex).
  subst wD bin.
  apply bind_ok in Hrest as (n & wE & Hverify & Hrest).
  unfold _check_subprocess_call in Hverify.
  pose proof (Hpure (path_str (executable_path v' None)) (cwd wC) (fs wC))
    as Hsame.
  destruct (subprocess_run [path_str (executable_path v' None); "--version"]
                           (cwd wC) (fs wC)) as [[[|k]|e] n'] eqn:Hquery;
    try discriminate.
  injection Hverify as <- <-. cbn [snd] in Hsame. subst n'.
  apply bind_ok in Hrest as (w & wE' & Hget & Hrest).
  unfold get_world in Hget. injection Hget as <- <-.
  cbn [solc_version] in Hrest.
  assert (Hmac : platform = "darwin" ->
                 Str.startswith v' "v0.4" && negb allow_osx = false).
  { intros ->. unfold install_platform in Hstep. cbn [String.eqb Ascii.eqb] in Hstep.
    change (String.eqb "darwin" "linux") with false in Hstep.
    change (String.eqb "darwin" "darwin") with true in Hstep.
    cbv iota in Hstep. unfold _install_solc_osx in Hstep.
    destruct (Str.startswith v' "v0.4" && negb allow_osx); [|reflexivity].
    discriminate. }
  destruct (given (solc_version wC)) eqn:Hg; cbn [negb] in Hrest.
  - unfold ret in Hrest. injection Hrest as <-. cbn [fs cwd solc_version].
    rewrite Hquery. auto.
  - unfold set_solc_version in Hrest.
    apply bind_ok in Hrest as (v'' & w2 & Hcheck & Hrest).
    unfold lift in Hcheck. injection Hcheck as Hcheck <-.
    destruct (check_version_tagged _ _ Hcheck) as [tl' Hv''].
    apply bind_ok in Hrest as (bin' & w3 & Hexe' & Hrest).
    destruct (get_executable_ok_inv _ _ _ _ _ _ Hv'' Hexe') as (Hw3 & _ & _).
    subst w3. unfold set_global_solc_version in Hrest.
    injection Hrest as <-. cbn [fs cwd solc_version].
    rewrite Hquery. subst v''. auto.
Qed.

(** The locked part on a machine that has a working compiler of the
    version and an active version. *)
Lemma install_locked_again
      (platform v' tl : string) (allow_osx show_progress : bool) (w : World) :
  v' = String "v" tl ->
  version_query_pure ->
  version_query_by_binary (executable_path v' None) ->
  _get_platform = Ok platform ->
  exists_ (fs w) (executable_path v' None) = true ->
  fst (subprocess_run [path_str (executable_path v' None); "--version"]
                      (cwd w) (fs w)) = Ok 0 ->
  given (solc_version w) = true ->
  (platform = "darwin" ->
   apart temp_path (install_path v' None) = true
   /\ Str.startswith v' "v0.4" && negb allow_osx = false
   /\ temp_dir_ready (fs w) = true) ->
  fst (install_locked platform v' allow_osx show_progress None w) = Ok tt.
Proof.
  intros Hv Hpure Hdet Hplat Hex Hquery Hgiven Hmac.
  pose proof (executable_below_install _ _ _ Hex) as Hinst.
  assert (Hapart : platform = "darwin" ->
                   apart temp_path (install_path v' None) = true)
    by (intros Hd; now destruct (Hmac Hd)).
  pose proof (install_platform_again platform v' allow_osx show_progress w
                                     Hinst Hmac) as Hstep_ok.
  unfold install_locked. unfold bind at 1.
  destruct (install_platform platform v' allow_osx show_progress None w)
    as [r wC] eqn:Hstep.
  cbn [fst] in Hstep_ok. subst r.
  destruct (install_platform_installed _ _ _ _ _ _ _ Hinst Hapart Hstep)
    as (Hc & Hs & _ & _ & Hl).
  assert (Hlook : lookup (fs wC) (executable_path v' None)
                  = lookup (fs w) (executable_path v' None)).
  { apply Hl. intros Hd. subst platform.
    rewrite (executable_path_darwin _ _ (get_platform_darwin Hplat)).
    now apply Hapart. }
  assert (HexC : exists_ (fs wC) (executable_path v' None) = true)
    by (unfold exists_ in *; now rewrite Hlook).
  unfold bind at 1. rewrite (get_executable_found _ _ _ _ Hv HexC).
  unfold bind at 1. unfold _check_subprocess_call.
  pose proof (Hdet (cwd wC) (cwd w) _ _ Hlook) as Hfst.
  rewrite Hquery in Hfst.
  destruct (subprocess_run [path_str (executable_path v' None); "--version"]
                           (cwd wC) (fs wC)) as [r n'].
  cbn [fst] in Hfst. subst r.
  unfold bind at 1, get_world. cbn [solc_version].
  rewrite Hs, Hgiven. reflexivity.
Qed.

End TwiceInARow.

Section Idempotence.

Context {H : Host}.

Lemma release_after (A : Type) (body : M A) (lock : string) (w : World) :
  fst (try_finally body (lock_release lock) w) = fst (body w)
  /\ fs (snd (try_finally body (lock_release lock) w)) = fs (snd (body w))
  /\ cwd (snd (try_finally body (lock_release lock) w)) = cwd (snd (body w))
  /\ solc_version (snd (try_finally body (lock_release lock) w))
     = solc_version (snd (body w))
  /\ trace (snd (try_finally body (lock_release lock) w))
     = EvLockReleased lock :: trace (snd (body w)).
Proof.
  unfold try_finally, lock_release, bind, get_world, set_held, log.
  destruct (body w) as [r w1]. cbn. auto.
Qed.

(** C2, as the code has it, under the default install folder and with
    nobody else at the lock.  A call that finds the version's path in
    place sends no request, whatever becomes of the call.  And on a
    host whose compilers answer the version query without writing and
    by their binary alone: after a call that succeeded, a second call
    with the same arguments sends no request and succeeds as well, the
    first having sent one request at most.  (On a Mac the temporary
    folder has to lie apart from the install path, and it has to be
    usable again for the second call.) *)
Theorem install_solc_twice
        (second : list LockEvent) (version v' : string)
        (allow_osx show_progress : bool) :
  uncontended second = true ->
  _check_version version = Ok v' ->
  (sys_platform = "darwin" ->
   apart temp_path (install_path v' None) = true) ->
  (forall w,
      exists_ (fs w) (install_path v' None) = true ->
      downloads (trace (snd (install_solc second version allow_osx
                                          show_progress None w)))
      = downloads (trace w))
  /\ (version_query_pure ->
      version_query_by_binary (executable_path v' None) ->
      forall (first : list LockEvent) (w0 w1 : World),
        uncontended first = true ->
        install_solc first version allow_osx show_progress None w0
        = (Ok tt, w1) ->
        (sys_platform = "darwin" -> temp_dir_ready (fs w1) = true) ->
        downloads (trace w1) <= downloads (trace w0) + 1
        /\ exists_ (fs w1) (install_path v' None) = true
        /\ fst (install_solc second version allow_osx show_progress None w1)
           = Ok tt
        /\ downloads (trace (snd (install_solc second version allow_osx
                                               show_progress None w1)))
           = downloads (trace w1)).
Proof.
  intros Hsecond Hv Hapart.
  destruct (check_version_tagged _ _ Hv) as [tl Htl].
  assert (Hnone : forall w,
             exists_ (fs w) (install_path v' None) = true ->
             downloads (trace (snd (install_solc second version allow_osx
                                                 show_progress None w)))
             = downloads (trace w)).
  { intros w Hex.
    destruct _get_platform as [platform|e] eqn:Hplat;
      [|now rewrite (install_solc_bad_platform _ _ _ _ _ _ _ Hplat)].
    assert (Hmac : platform = "darwin" -> sys_platform = "darwin")
      by (intros ->; exact (get_platform_darwin Hplat)).
    rewrite (install_solc_acquired _ _ _ _ _ _ _ _ Hplat Hv Hsecond).
    unfold get_process_lock, bind, lock_acquired, bind, get_world, set_held,
      log. cbn [fs cwd solc_version held trace].
    set (wA := mkWorld (fs w) (cwd w) (solc_version w) (v' :: held w)
                       (EvLockAcquired v' :: trace w)).
    destruct (release_after unit
                (install_locked platform v' allow_osx show_progress None)
                v' wA) as (_ & _ & _ & _ & ->).
    cbn [downloads].
    rewrite (install_locked_no_download platform v' allow_osx show_progress
               wA Hex (fun Hd => Hapart (Hmac Hd))).
    reflexivity. }
  split; [exact Hnone|].
  intros Hpure Hdet first w0 w1 Hfirst Hrun Hready.
  destruct _get_platform as [platform|e] eqn:Hplat;
    [|rewrite (install_solc_bad_platform _ _ _ _ _ _ _ Hplat) in Hrun;
      discriminate].
  assert (Hmac : platform = "darwin" -> sys_platform = "darwin")
    by (intros ->; exact (get_platform_darwin Hplat)).
  rewrite (install_solc_acquired _ _ _ _ _ _ _ _ Hplat Hv Hfirst) in Hrun.
  apply bind_ok in Hrun as (u & wA & Hacq & Hrun).
  unfold get_process_lock, lock_acquired, bind, get_world, set_held, log
    in Hacq. injection Hacq as _ <-.
  set (wA := mkWorld (fs w0) (cwd w0) (solc_version w0) (v' :: held w0)
                     (EvLockAcquired v' :: trace w0)) in *.
  destruct (release_after unit
              (install_locked platform v' allow_osx show_progress None)
              v' wA) as (Hr & Hfs & Hcwd & Hsv & Htr).
  unfold get_process_lock in Hrun. rewrite Hrun in Hr, Hfs, Hcwd, Hsv, Htr.
  cbn [fst snd] in Hr, Hfs, Hcwd, Hsv, Htr.
  destruct (quiet_install_locked platform v' allow_osx show_progress None wA)
    as (_ & evs & Hevs & Hone & _).
  destruct (install_locked platform v' allow_osx show_progress None wA)
    as [r wB] eqn:Hlocked.
  cbn [fst snd] in Hr, Hfs, Hcwd, Hsv, Htr, Hevs. subst r.
  destruct (install_locked_ok_inv _ _ _ _ _ _ _ Htl Hpure Hlocked)
    as (Hex & Hquery & Hgiven & Hold).
  rewrite <- Hfs in Hex. rewrite <- Hfs, <- Hcwd in Hquery.
  rewrite <- Hsv in Hgiven.
  pose proof (executable_below_install _ _ _ Hex) as Hinst.
  split; [|split; [exact Hinst|split; [|exact (Hnone w1 Hinst)]]].
  - rewrite Htr, Hevs. cbn [downloads]. rewrite downloads_app.
    unfold wA. cbn [trace downloads]. lia.
  - rewrite (install_solc_acquired _ _ _ _ _ _ _ _ Hplat Hv Hsecond).
    unfold get_process_lock, bind, lock_acquired, bind, get_world, set_held,
      log. cbn [fs cwd solc_version held trace].
    set (wA' := mkWorld (fs w1) (cwd w1) (solc_version w1) (v' :: held w1)
                        (EvLockAcquired v' :: trace w1)).
    destruct (release_after unit
                (install_locked platform v' allow_osx show_progress None)
                v' wA') as (-> & _).
    apply (install_locked_again platform v' tl allow_osx show_progress wA'
             Htl Hpure Hdet Hplat Hex Hquery Hgiven).
    intros Hd. auto.
Qed.

End Idempotence.

(** C2 on a Mac with nothing installed: the first call builds v0.5.0 with
    one download, the second finds it and downloads nothing. *)
Lemma install_solc_twice_witness :
  downloads (trace (snd (install_solc (H := Samples.mac) [] "0.5.0" false false
                           None (Samples.world Samples.fresh_fs None))))
  <= downloads (trace (Samples.world Samples.fresh_fs None)) + 1
  /\ exists_ (fs (snd (install_solc (H := Samples.mac) [] "0.5.0" false false
                         None (Samples.world Samples.fresh_fs None))))
             (install_path (H := Samples.mac) "v0.5.0" None) = true
  /\ fst (install_solc (H := Samples.mac) [] "0.5.0" false false None
            (snd (install_solc (H := Samples.mac) [] "0.5.0" false false
                    None (Samples.world Samples.fresh_fs None))))
     = Ok tt
  /\ downloads
       (trace (snd (install_solc (H := Samples.mac) [] "0.5.0" false false None
                      (snd (install_solc (H := Samples.mac) [] "0.5.0" false
                              false None
                              (Samples.world Samples.fresh_fs None))))))
     = downloads
         (trace (snd (install_solc (H := Samples.mac) [] "0.5.0" false false
                        None (Samples.world Samples.fresh_fs None)))).
Proof.
  refine (proj2 (install_solc_twice (H := Samples.mac) [] "0.5.0" "v0.5.0"
                   false false _ _ _)
                _ _ [] (Samples.world Samples.fresh_fs None)
                (snd (install_solc (H := Samples.mac) [] "0.5.0" false false
                        None (Samples.world Samples.fresh_fs None)))
                _ _ _).
  - reflexivity.
  - vm_compute. reflexivity.
  - intros _. vm_compute. reflexivity.
  - intros bin c n. cbn [subprocess_run Samples.mac].
    now destruct (Samples.start [bin; "--version"] c n).
  - intros c c' n n' Hsame.
    change (executable_path (H := Samples.mac) "v0.5.0" None)
      with ["home"; "user"; ".solcx"; "solc-v0.5.0"] in *.
    change (path_str ["home"; "user"; ".solcx"; "solc-v0.5.0"])
      with "/home/user/.solcx/solc-v0.5.0".
    cbn [subprocess_run Samples.mac].
    unfold Samples.start.
    change (Str.has_char "/" "/home/user/.solcx/solc-v0.5.0") with true.
    cbv iota.
    change (Samples.program_path c "/home/user/.solcx/solc-v0.5.0")
      with ["home"; "user"; ".solcx"; "solc-v0.5.0"].
    change (Samples.program_path c' "/home/user/.solcx/solc-v0.5.0")
      with ["home"; "user"; ".solcx"; "solc-v0.5.0"].
    rewrite Hsame.
    now destruct (lookup n' ["home"; "user"; ".solcx"; "solc-v0.5.0"])
      as [[content []|entries]|].
  - reflexivity.
  - vm_compute. reflexivity.
  - intros _. vm_compute. reflexivity.
Defined.

(** C2 as the claim words it fails: the path of v0.5.0 is in place, but
    what lies there is no program, and the call raises instead of
    reporting success (it sends no request). *)
Lemma install_solc_broken_binary_counterexample :
  exists_ (Samples.fs_with "solc-v0.5.0" (File "junk" false))
          (install_path (H := Samples.host "linux" 200 "ELF" 0) "v0.5.0" None)
  = true
  /\ install_solc (H := Samples.host "linux" 200 "ELF" 0) [] "0.5.0" false false
       None
       (Samples.world (Samples.fs_with "solc-v0.5.0" (File "junk" false)) None)
     = (Raise PermissionError,
        mkWorld (Samples.fs_with "solc-v0.5.0" (File "junk" false))
                ["home"; "user"] None []
                [EvLockReleased "v0.5.0";
                 EvExec ["/home/user/.solcx/solc-v0.5.0"; "--version"];
                 EvLockAcquired "v0.5.0"]).
Proof.
  split; vm_compute; reflexivity.
Qed.

(** Two calls in a row on Linux and on Windows: one download in all. *)
Example install_solc_twice_linux :
  let w1 := snd (install_solc (H := Samples.host "linux" 200 "ELF" 0) []
                   "0.5.0" false false None
                   (Samples.world Samples.fresh_fs None)) in
  let r2 := install_solc (H := Samples.host "linux" 200 "ELF" 0) []
              "0.5.0" false false None w1 in
  fst r2 = Ok tt /\ downloads (trace (snd r2)) = 1.
Proof. vm_compute. auto. Qed.

Example install_solc_twice_windows :
  let w1 := snd (install_solc (H := Samples.host "win32" 200 "PE" 0) []
                   "0.5.0" false false None
                   (Samples.world Samples.fresh_fs None)) in
  let r2 := install_solc (H := Samples.host "win32" 200 "PE" 0) []
              "0.5.0" false false None w1 in
  fst r2 = Ok tt /\ downloads (trace (snd r2)) = 1.
Proof. vm_compute. auto. Qed.

(** The lock is released when the install step raises, too: here the
    download fails. *)
Example install_solc_releases_lock_on_error :
  install_solc (H := Samples.host "linux" 404 "Not Found" 0) [] "0.5.0" false
    false None (Samples.world Samples.fresh_fs None)
  = (Raise (AttributeError "status_url"),
     mkWorld (Dir [("home", Dir [("user", Dir [(".solcx", Dir [])])]);
                   ("tmp", Dir [])])
             ["home"; "user"] None []
             [EvLockReleased "v0.5.0";
              EvGet "https://github.com/ethereum/solidity/releases/download/v0.5.0/solc-static-linux";
              EvLockAcquired "v0.5.0"]).
Proof. vm_compute. reflexivity. Qed.


(** ** The version check *)

(** X2: what [_check_version] answers is a fixed point of it: checking a
    checked version gives the same string back. *)
Theorem check_version_idempotent (version v' : string) :
  _check_version version = Ok v' -> _check_version v' = Ok v'.
Proof.
  intros Hv. destruct (check_version_inv _ _ Hv) as (v & Hparse & Hm & ->).
  exact (check_version_of_parsed _ _ Hparse Hm).
Qed.

(** X2 on a nightly build written without the tag marker. *)
Lemma check_version_idempotent_witness :
  _check_version "v0.5.0-nightly.2019.1.1" = Ok "v0.5.0-nightly.2019.1.1".
Proof.
  apply (check_version_idempotent "0.5.0-nightly.2019.1.1"
           "v0.5.0-nightly.2019.1.1").
  vm_compute. reflexivity.
Defined.

(** A line feed at the end of the version goes, and a prerelease of
    0.4.11 is below the line. *)
Example check_version_samples :
  _check_version ("0.5.0" ++ newline) = Ok "v0.5.0"
  /\ _check_version "vv0.6.1+commit.abc" = Ok "v0.6.1+commit.abc"
  /\ _check_version "0.4.11-rc1"
     = Raise (ValueError "py-solc-x does not support solc versions <0.4.11")
  /\ _check_version "0.5" = Raise (ValueError "Invalid version string").
Proof. repeat split; vm_compute; reflexivity. Qed.

(** X3: [_check_version] draws the line at 0.4.11.  The text of a
    version below it is refused with the "does not support" error, the
    text of any other version comes back with the tag marker in front. *)
Theorem check_version_threshold (major minor patch : N) :
  _check_version (to_string (mkVersion major minor patch))
  = if ltb (mkVersion major minor patch) (mkVersion 0 4 11)
    then Raise (ValueError "py-solc-x does not support solc versions <0.4.11")
    else Ok ("v" ++ to_string (mkVersion major minor patch)).
Proof.
  unfold _check_version.
  rewrite lstrip_to_string, parse_to_string.
  unfold matches, minimal_spec, leb. cbn [c_op c_target].
  rewrite negb_involutive. reflexivity.
Qed.

(** ** The version of the compiler *)

Lemma substring_head (b c : string) :
  String.substring 0 (String.length b) (b ++ c) = b.
Proof.
  induction b as [|x b IH]; cbn [append String.length String.substring].
  - now destruct c.
  - now rewrite IH.
Qed.

Lemma has_char_app (c : ascii) (a b : string) :
  Str.has_char c (a ++ b) = Str.has_char c a || Str.has_char c b.
Proof.
  induction a as [|x a IH]; cbn [append Str.has_char]; [reflexivity|].
  now rewrite IH, orb_assoc.
Qed.

Lemma digits_without (c : ascii) (d : string) :
  Str.is_digit c = false -> all_digits d = true -> Str.has_char c d = false.
Proof.
  intros Hc. induction d as [|x d IH]; cbn [all_digits Str.has_char];
    [reflexivity|].
  intros Hd. apply andb_true_iff in Hd as [Hx Hd]. rewrite (IH Hd).
  destruct (Ascii.eqb x c) eqn:Hxc; [|reflexivity].
  apply Ascii.eqb_eq in Hxc. congruence.
Qed.

(** The text of a release version holds digits and dots. *)
Lemma to_string_without (c : ascii) (major minor patch : N) :
  Str.is_digit c = false -> Ascii.eqb "." c = false ->
  Str.has_char c (to_string (mkVersion major minor patch)) = false.
Proof.
  intros Hc Hdot. rewrite to_string_release.
  rewrite !has_char_app.
  rewrite (digits_without c (Str.of_N major)),
    (digits_without c (Str.of_N minor)),
    (digits_without c (Str.of_N patch)) by (auto using of_N_digits).
  cbn [Str.has_char]. now rewrite Hdot.
Qed.

Lemma string_length_app (a b : string) :
  String.length (a ++ b) = String.length a + String.length b.
Proof. induction a; cbn [append String.length Nat.add]; congruence. Qed.

Section CompilerVersion.

Context {T : Toolchain}.

(** X4: [get_solc_version] reads back the version the compiler prints.
    When the compiler's answer is a first line, then the text "Version: ",
    the text of a release version and a '+', the call returns that
    version, whatever follows the '+'. *)
Theorem get_solc_version_reads_version
        (kw : kwargs) (out : WrapperResult) (first_line rest : string)
        (major minor patch : N) :
  has_key "version" kw = false ->
  solc_wrapper (("version", JBool true) :: kw) = Ok out ->
  stdoutdata out
  = first_line ++ newline ++ "Version: "
    ++ to_string (mkVersion major minor patch) ++ "+" ++ rest ->
  Str.has_char LF first_line = false ->
  get_solc_version kw = Ok (mkVersion major minor patch).
Proof.
  intros Hkw Hwrap Hout Hline.
  set (v := mkVersion major minor patch) in *.
  unfold get_solc_version, get_solc_version_string.
  rewrite (call_kwargs_fresh _ _ _ Hkw). cbn [rbind].
  rewrite Hwrap. cbn [rbind]. rewrite Hout.
  change (first_line ++ newline ++ "Version: " ++ to_string v ++ "+" ++ rest)
    with (first_line ++ String LF ("Version: " ++ to_string v ++ "+" ++ rest)).
  rewrite (after_first_skip _ _ _ Hline).
  unfold Str.startswith. rewrite prefix_app.
  rewrite (index_at_head _ _ (prefix_app _ _)).
  change (String.eqb ("Version: " ++ to_string v ++ "+" ++ rest) "")
    with false.
  cbn [orb negb].
  replace ("Version: " ++ to_string v ++ "+" ++ rest)
    with (("Version: " ++ to_string v) ++ "+" ++ rest)
    by (cbn [append]; reflexivity).
  rewrite (index_char_skip "+" ("Version: " ++ to_string v)).
  2:{ rewrite has_char_app. cbn.
      apply to_string_without; reflexivity. }
  replace (Str.index "+" ("+" ++ rest)) with (Some 0)
    by (symmetry; apply index_at_head; cbn; now destruct rest).
  cbn [option_map rbind].
  rewrite string_length_app. cbn [String.length].
  replace (("Version: " ++ to_string v) ++ "+" ++ rest)
    with ("Version: " ++ (to_string v ++ "+" ++ rest))
    by (cbn [append]; reflexivity).
  change (0 + 9) with (String.length "Version: " + 0).
  replace (9 + String.length (to_string v) + 0)
    with (String.length "Version: " + String.length (to_string v))
    by (cbn [String.length]; lia).
  rewrite slice_skip. unfold Str.slice. rewrite Nat.sub_0_r.
  rewrite substring_head. unfold v. now rewrite parse_to_string.
Qed.

End CompilerVersion.

(** X4 on the answer of a real compiler. *)
Lemma get_solc_version_reads_version_witness :
  get_solc_version
    (T := Samples.toolchain
            (Samples.banner ++ newline ++ Samples.version_line) []) []
  = Ok (mkVersion 0 8 1).
Proof.
  apply (get_solc_version_reads_version
           (T := Samples.toolchain
                   (Samples.banner ++ newline ++ Samples.version_line) [])
           [] (mkWrapperResult
                 (Samples.banner ++ newline ++ Samples.version_line)
                 "" ["solc"] 0%Z)
           Samples.banner ("commit.abc" ++ newline) 0%N 8%N 1%N).
  - reflexivity.
  - reflexivity.
  - vm_compute. reflexivity.
  - vm_compute. reflexivity.
Defined.

(** ** The temporary folder *)

Section FreshTempFolder.

Context {H : Host}.

(** X5: when [_get_temp_folder] returns, it returns [temp_path], an
    empty directory lies there, whatever was there before, and nothing
    has changed at the paths apart from it. *)
Theorem get_temp_folder_fresh (w w' : World) (p : path) :
  _get_temp_folder w = (Ok p, w') ->
  p = temp_path
  /\ lookup (fs w') temp_path = Some (Dir [])
  /\ forall q, apart temp_path q = true -> lookup (fs w') q = lookup (fs w) q.
Proof.
  intros Hrun.
  destruct (get_temp_folder_inv _ _ _ Hrun) as (_ & _ & _ & _ & Hframe).
  unfold _get_temp_folder in Hrun. cbv zeta in Hrun.
  apply bind_ok in Hrun as (e & w1 & _ & Hrun).
  apply bind_ok in Hrun as (u & w2 & _ & Hrun).
  apply bind_ok in Hrun as (u' & w3 & Hmk & Hrun).
  unfold ret in Hrun. injection Hrun as <- <-.
  split; [reflexivity|]. split; [|exact Hframe].
  unfold mkdir, write_node, set_fs in Hmk.
  destruct (lookup (fs w2) temp_path) as [[c x|entries]|]; try discriminate.
  destruct (put (fs w2) temp_path (Some (Dir []))) as [n|] eqn:Hput;
    [|discriminate].
  injection Hmk as _ <-. cbn [fs].
  exact (lookup_put_same _ _ _ _ Hput).
Qed.

End FreshTempFolder.

(** X5 where an earlier run left files in the folder. *)
Lemma get_temp_folder_fresh_witness :
  lookup
    (fs (snd (_get_temp_folder (H := Samples.host "linux" 200 "" 0)
                (Samples.world
                   (Dir [("home", Dir [("user", Dir [])]);
                         ("tmp", Dir [("solcx-tmp-4242",
                                       Dir [("solc.exe", File "old" true)])])])
                   None))))
    (temp_path (H := Samples.host "linux" 200 "" 0))
  = Some (Dir []).
Proof.
  refine (proj1 (proj2 (get_temp_folder_fresh
                          (H := Samples.host "linux" 200 "" 0)
                          (Samples.world
                             (Dir [("home", Dir [("user", Dir [])]);
                                   ("tmp", Dir [("solcx-tmp-4242",
                                       Dir [("solc.exe", File "old" true)])])])
                             None)
                          _ ["tmp"; "solcx-tmp-4242"] _))).
  vm_compute. reflexivity.
Defined.

(** ** Downloads with a progress bar *)


Section Progress.

Context {H : Host}.

(** X6: with [show_progress] set and tqdm not importable,
    [_download_solc] raises [TypeError] (the name [tqdm] is [None] and
    gets called), after the request has been sent and whatever the
    server answered. *)
Theorem download_progress_needs_tqdm
        (url : string) (response : Response) (total_size : Z) (w : World) :
  tqdm_imported = false ->
  requests_get url = Ok response ->
  content_length response = Some total_size ->
  _download_solc url true w
  = (Raise TypeError,
     mkWorld (fs w) (cwd w) (solc_version w) (held w) (EvGet url :: trace w)).
Proof.
  intros Htqdm Hget Hlen.
  unfold _download_solc, bind, log, lift, ret, raise. cbn [negb].
  now rewrite Hget, Hlen, Htqdm.
Qed.


End Progress.

(** X6 on a Linux machine without tqdm, the server answering 200. *)
Lemma download_progress_needs_tqdm_witness :
  _download_solc
    (H := Samples.without_tqdm (Samples.host "linux" 200 "ELF" 0))
    "https://example.org/solc" true (Samples.world Samples.fresh_fs None)
  = (Raise TypeError,
     mkWorld Samples.fresh_fs ["home"; "user"] None []
             [EvGet "https://example.org/solc"]).
Proof.
  exact (download_progress_needs_tqdm
           (H := Samples.without_tqdm (Samples.host "linux" 200 "ELF" 0))
           "https://example.org/solc"
           (mkResponse 200 "ELF" (Some 3%Z) [BytesChunk "ELF"]) 3%Z
           (Samples.world Samples.fresh_fs None)
           eq_refl eq_refl eq_refl).
Defined.


(** ** The Linux installer *)

Section LinuxInstaller.

Context {H : Host}.

Lemma download_ok_inv (url : string) (show_progress : bool) (w w' : World)
      (body : string) :
  _download_solc url show_progress w = (Ok body, w') ->
  exists response,
    requests_get url = Ok response
    /\ status_code response = 200
    /\ w' = mkWorld (fs w) (cwd w) (solc_version w) (held w)
                    (EvGet url :: trace w)
    /\ (show_progress = false -> body = content response).
Proof.
  unfold _download_solc, bind, log, lift, ret, raise.
  cbn [fs cwd solc_version held trace].
  destruct (requests_get url) as [response|e]; [|discriminate].
  intros Hrun. exists response.
  destruct show_progress; cbn [negb] in Hrun.
  - destruct (content_length response); [|discriminate].
    destruct tqdm_imported; [|discriminate].
    destruct (accumulate "" (chunks response)); [|discriminate].
    destruct (Nat.eqb (status_code response) 200) eqn:Hs; cbn [negb] in Hrun.
    + apply Nat.eqb_eq in Hs. injection Hrun as <- <-.
      split; [reflexivity|split; [exact Hs|split; [reflexivity|discriminate]]].
    + destruct (Response_attr url response "status_url"); discriminate.
  - destruct (Nat.eqb (status_code response) 200) eqn:Hs; cbn [negb] in Hrun.
    + apply Nat.eqb_eq in Hs. injection Hrun as <- <-.
      split; [reflexivity|split; [exact Hs|split; reflexivity]].
    + destruct (Response_attr url response "status_url"); discriminate.
Qed.

(** X8: when [_install_solc_linux] succeeds for a version that was not
    in place, it has sent one request, to the release asset
    [solc-static-linux] of that version, the server has answered 200,
    and the answer lies at the version's path as an executable file
    (without progress bar: the body of the response). *)
Theorem install_solc_linux_writes_executable
        (version : string) (show_progress : bool)
        (solcx_binary_path : option path) (w w' : World) :
  exists_ (fs w) (install_path version solcx_binary_path) = false ->
  _install_solc_linux version show_progress solcx_binary_path w = (Ok tt, w') ->
  exists response body,
    requests_get (DOWNLOAD_BASE version "solc-static-linux") = Ok response
    /\ status_code response = 200
    /\ lookup (fs w') (install_path version solcx_binary_path)
       = Some (File body true)
    /\ (show_progress = false -> body = content response)
    /\ trace w'
       = EvGet (DOWNLOAD_BASE version "solc-static-linux") :: trace w.
Proof.
  intros Hmissing Hrun. unfold _install_solc_linux in Hrun. cbv zeta in Hrun.
  apply bind_ok in Hrun as (binary_path & w1 & Hcheck & Hrun).
  pose proof (check_for_installed_frame version solcx_binary_path w)
    as (_ & _ & _ & Htrace).
  rewrite Hcheck in Htrace. cbn [snd] in Htrace.
  unfold _check_for_installed_version in Hcheck.
  apply bind_ok in Hcheck as (folder & w0 & Hfolder & Hcheck).
  destruct (get_solc_folder_ok_inv _ _ _ _ Hfolder) as [-> Hsame].
  unfold bind, path_exists, ret in Hcheck.
  fold (install_path version solcx_binary_path) in Hcheck.
  destruct (exists_ (fs w0) (install_path version solcx_binary_path))
    eqn:Hex.
  { unfold install_path, joinpath in Hex.
    rewrite (Hsame _ [] Hex) in Hex.
    unfold install_path, joinpath in Hmissing. congruence. }
  injection Hcheck as <- <-.
  apply bind_ok in Hrun as (body & w2 & Hdown & Hrun).
  destruct (download_ok_inv _ _ _ _ _ Hdown) as (response & Hget & Hs & -> & Hb).
  exists response, body.
  apply bind_ok in Hrun as (u & w3 & Hwrite & Hrun).
  unfold write_file, write_node, set_fs in Hwrite.
  cbn [fs cwd solc_version held trace] in Hwrite.
  unfold exists_ in Hex.
  destruct (lookup (fs w0) (install_path version solcx_binary_path));
    [discriminate|].
  destruct (put (fs w0) (install_path version solcx_binary_path)
                (Some (File body false))) as [n|] eqn:Hput; [|discriminate].
  injection Hwrite as _ <-.
  unfold _chmod_plus_x, write_node, set_fs in Hrun.
  cbn [fs cwd solc_version held trace] in Hrun.
  rewrite (lookup_put_same _ _ _ _ Hput) in Hrun.
  destruct (put n (install_path version solcx_binary_path)
                (Some (File body true))) as [n'|] eqn:Hput'; [|discriminate].
  injection Hrun as <-. cbn [fs trace].
  rewrite (lookup_put_same _ _ _ _ Hput'), Htrace. auto.
Qed.

End LinuxInstaller.

(** X8 on a fresh Linux account. *)
Lemma install_solc_linux_writes_executable_witness :
  exists response body,
    requests_get (Host := Samples.host "linux" 200 "ELF" 0)
      (DOWNLOAD_BASE "v0.5.0" "solc-static-linux") = Ok response
    /\ status_code response = 200
    /\ lookup (fs (snd (_install_solc_linux
                          (H := Samples.host "linux" 200 "ELF" 0)
                          "v0.5.0" false None
                          (Samples.world Samples.fresh_fs None))))
              (install_path (H := Samples.host "linux" 200 "ELF" 0)
                            "v0.5.0" None)
       = Some (File body true)
    /\ (false = false -> body = content response)
    /\ trace (snd (_install_solc_linux
                     (H := Samples.host "linux" 200 "ELF" 0)
                     "v0.5.0" false None
                     (Samples.world Samples.fresh_fs None)))
       = EvGet (DOWNLOAD_BASE "v0.5.0" "solc-static-linux")
         :: trace (Samples.world Samples.fresh_fs None).
Proof.
  apply (install_solc_linux_writes_executable
           (H := Samples.host "linux" 200 "ELF" 0)
           "v0.5.0" false None (Samples.world Samples.fresh_fs None)).
  - reflexivity.
  - vm_compute. reflexivity.
Defined.

(** ** The active version during an installation *)

Lemma keeps_bind {A B} (m : M A) (k : A -> M B) :
  keeps_version m -> (forall a, keeps_version (k a)) ->
  keeps_version (bind m k).
Proof.
  intros Hm Hk w. unfold bind. specialize (Hm w).
  destruct (m w) as [[a|e] w1]; cbn [snd] in *; [|exact Hm].
  now rewrite (Hk a w1).
Qed.

Lemma keeps_try_finally {A} (body : M A) (cleanup : M unit) :
  keeps_version body -> keeps_version cleanup ->
  keeps_version (try_finally body cleanup).
Proof.
  intros Hb Hc w. unfold try_finally. specialize (Hb w).
  destruct (body w) as [r w1]; cbn [snd] in *. specialize (Hc w1).
  destruct (cleanup w1) as [[u|e] w2]; cbn [snd] in *; congruence.
Qed.

Lemma keeps_except {A} (body : M A) (handler : nat -> M A) :
  keeps_version body -> (forall code, keeps_version (handler code)) ->
  keeps_version (except_CalledProcessError body handler).
Proof.
  intros Hb Hh w. unfold except_CalledProcessError. specialize (Hb w).
  destruct (body w) as [[a|e] w1]; cbn [snd] in *; [exact Hb|].
  destruct e as [| | | | | | | | |code| | | | |]; try exact Hb.
  now rewrite (Hh code w1).
Qed.

Ltac same_version := intros ?w; repeat break_match; cbn; auto.

Lemma keeps_ret {A} (a : A) : keeps_version (ret a).
Proof. unfold ret. same_version. Qed.

Lemma keeps_raise {A} (e : exn) : keeps_version (@raise A e).
Proof. unfold raise. same_version. Qed.

Lemma keeps_lift {A} (r : Res A) : keeps_version (lift r).
Proof. unfold lift. same_version. Qed.

Lemma keeps_get_world : keeps_version get_world.
Proof. unfold get_world. same_version. Qed.

Lemma keeps_log (e : Event) : keeps_version (log e).
Proof. unfold log. same_version. Qed.

Lemma keeps_set_fs (n : node) : keeps_version (set_fs n).
Proof. unfold set_fs. same_version. Qed.

Lemma keeps_set_held (l : list string) : keeps_version (set_held l).
Proof. unfold set_held. same_version. Qed.

Lemma keeps_path_exists (p : path) : keeps_version (path_exists p).
Proof. unfold path_exists. same_version. Qed.

Lemma keeps_write_node (p : path) (v : option node) :
  keeps_version (write_node p v).
Proof. unfold write_node, set_fs. same_version. Qed.

Lemma keeps_mkdir (exist_ok : bool) (p : path) : keeps_version (mkdir exist_ok p).
Proof. unfold mkdir, write_node, set_fs. same_version. Qed.

Lemma keeps_rmtree (p : path) : keeps_version (rmtree p).
Proof. unfold rmtree, write_node, set_fs. same_version. Qed.

Lemma keeps_write_file (p : path) (c : string) : keeps_version (write_file p c).
Proof. unfold write_file, write_node, set_fs. same_version. Qed.

Lemma keeps_chmod (p : path) : keeps_version (_chmod_plus_x p).
Proof. unfold _chmod_plus_x, write_node, set_fs. same_version. Qed.

Lemma keeps_chdir (p : path) : keeps_version (chdir p).
Proof. unfold chdir, set_cwd. same_version. Qed.

Create HintDb keeps.

#[local] Hint Resolve keeps_ret keeps_raise keeps_lift keeps_get_world
  keeps_log keeps_set_fs keeps_set_held keeps_path_exists keeps_write_node
  keeps_mkdir keeps_rmtree keeps_write_file keeps_chmod keeps_chdir : keeps.

(** A computation built from such steps with [bind], [if] and [match]. *)
Ltac keeps_steps :=
  repeat first
    [ progress intros
    | progress cbv zeta
    | solve [auto with keeps]
    | apply keeps_bind
    | apply keeps_try_finally
    | apply keeps_except
    | match goal with
      | |- keeps_version (if ?b then _ else _) => destruct b
      | |- keeps_version (match ?x with _ => _ end) => destruct x
      end ].

Lemma keeps_extract_into (dir : path) (entries : list (string * node)) :
  keeps_version (extract_into dir entries).
Proof.
  induction entries as [|[name n] entries IH]; cbn [extract_into]; keeps_steps.
Qed.

Section KeepsVersion.

Context {H : Host}.

Lemma keeps_rename (src dst : path) : keeps_version (rename src dst).
Proof. unfold rename, set_fs. same_version. Qed.

Lemma keeps_get_solc_folder (p : option path) :
  keeps_version (get_solc_folder p).
Proof. unfold get_solc_folder. keeps_steps. Qed.

Hint Resolve keeps_extract_into keeps_rename keeps_get_solc_folder : keeps.

Lemma keeps_get_executable (version : option string) (p : option path) :
  keeps_version (get_executable version p).
Proof. unfold get_executable. keeps_steps. Qed.

Lemma keeps_check_subprocess_call (command : list string) :
  keeps_version (_check_subprocess_call command).
Proof.
  intros w. unfold _check_subprocess_call.
  now destruct (subprocess_run command (cwd w) (fs w)) as [[[|n]|e] n'].
Qed.

Lemma keeps_check_for_installed_version (version : string) (p : option path) :
  keeps_version (_check_for_installed_version version p).
Proof. unfold _check_for_installed_version. keeps_steps. Qed.

Lemma keeps_get_temp_folder : keeps_version _get_temp_folder.
Proof. unfold _get_temp_folder. keeps_steps. Qed.

Lemma keeps_download_solc (url : string) (show_progress : bool) :
  keeps_version (_download_solc url show_progress).
Proof.
  intros w.
  destruct (download_logs_one_request url show_progress w)
    as (r & w' & -> & _ & _ & Hs & _). exact Hs.
Qed.

Hint Resolve keeps_get_executable keeps_check_subprocess_call
  keeps_check_for_installed_version keeps_get_temp_folder
  keeps_download_solc : keeps.

Lemma keeps_build_steps (cmds : list (list string)) :
  keeps_version (build_steps cmds).
Proof.
  induction cmds as [|cmd cmds IH]; cbn [build_steps]; keeps_steps.
Qed.

Hint Resolve keeps_build_steps : keeps.

Lemma keeps_install_platform (platform version : string)
      (allow_osx show_progress : bool) (p : option path) :
  keeps_version (install_platform platform version allow_osx show_progress p).
Proof.
  unfold install_platform, _install_solc_linux, _install_solc_osx,
    _install_solc_windows.
  keeps_steps.
Qed.

(** The locked part of the call leaves a version that is active
    active. *)
Lemma install_locked_keeps (platform version : string)
      (allow_osx show_progress : bool) (p : option path) (w : World) :
  given (solc_version w) = true ->
  solc_version (snd (install_locked platform version allow_osx show_progress
                                    p w))
  = solc_version w.
Proof.
  intros Hgiven. unfold install_locked. unfold bind at 1.
  pose proof (keeps_install_platform platform version allow_osx show_progress
                                     p w) as H1.
  destruct (install_platform platform version allow_osx show_progress p w)
    as [[u|e] w1]; cbn [snd] in *; [|exact H1].
  unfold bind at 1.
  pose proof (keeps_get_executable (Some version) p w1) as H2.
  destruct (get_executable (Some version) p w1) as [[bin|e] w2];
    cbn [snd] in *; [|congruence].
  unfold bind at 1.
  pose proof (keeps_check_subprocess_call [bin; "--version"] w2) as H3.
  destruct (_check_subprocess_call [bin; "--version"] w2) as [[n|e] w3];
    cbn [snd] in *; [|congruence].
  unfold bind, get_world.
  replace (solc_version w3) with (solc_version w) by congruence.
  rewrite Hgiven. cbn [negb ret snd]. congruence.
Qed.

(** X9: [install_solc] never changes an active version.  If a version
    is active when the call starts, the same version is active when the
    call returns or raises, whether the lock was free or held, and
    whatever went on in the installation. *)
Theorem install_solc_keeps_active_version
        (script : list LockEvent) (version : string)
        (allow_osx show_progress : bool) (solcx_binary_path : option path)
        (w : World) :
  given (solc_version w) = true ->
  solc_version (snd (install_solc script version allow_osx show_progress
                                  solcx_binary_path w))
  = solc_version w.
Proof.
  revert version show_progress solcx_binary_path w.
  induction script as [|event later IH];
    intros version show_progress solcx_binary_path w Hgiven.
  - destruct _get_platform as [platform|e] eqn:Hp;
      [|now rewrite (install_solc_bad_platform _ _ _ _ _ _ _ Hp)].
    destruct (_check_version version) as [v'|e] eqn:Hv;
      [|now rewrite (install_solc_bad_version _ _ _ _ _ _ _ _ Hp Hv)].
    rewrite (install_solc_acquired [] _ _ _ _ _ _ _ Hp Hv eq_refl).
    unfold get_process_lock, bind, lock_acquired, bind, get_world, set_held,
      log. cbn [fs cwd solc_version held trace].
    set (wA := mkWorld (fs w) (cwd w) (solc_version w) (v' :: held w)
                       (EvLockAcquired v' :: trace w)).
    destruct (release_after unit
                (install_locked platform v' allow_osx show_progress
                                solcx_binary_path)
                v' wA) as (_ & _ & _ & -> & _).
    now rewrite (install_locked_keeps platform v' allow_osx show_progress
                   solcx_binary_path wA Hgiven).
  - destruct _get_platform as [platform|e] eqn:Hp;
      [|now rewrite (install_solc_bad_platform _ _ _ _ _ _ _ Hp)].
    destruct (_check_version version) as [v'|e] eqn:Hv;
      [|now rewrite (install_solc_bad_version _ _ _ _ _ _ _ _ Hp Hv)].
    destruct event as [|others].
    + rewrite (install_solc_acquired (Free :: later) _ _ _ _ _ _ _ Hp Hv
                 eq_refl).
      unfold get_process_lock, bind, lock_acquired, bind, get_world, set_held,
        log. cbn [fs cwd solc_version held trace].
      set (wA := mkWorld (fs w) (cwd w) (solc_version w) (v' :: held w)
                         (EvLockAcquired v' :: trace w)).
      destruct (release_after unit
                  (install_locked platform v' allow_osx show_progress
                                  solcx_binary_path)
                  v' wA) as (_ & _ & _ & -> & _).
      now rewrite (install_locked_keeps platform v' allow_osx show_progress
                     solcx_binary_path wA Hgiven).
    + rewrite (install_solc_busy _ _ _ _ _ _ _ _ _ Hp Hv).
      fold (waited v' others w).
      pose proof (keeps_check_for_installed_version v' None
                    (waited v' others w)) as Hk.
      destruct (_check_for_installed_version v' None (waited v' others w))
        as [[[missing|]|e] w2]; cbn [snd] in *; try exact Hk.
      rewrite (IH v' false None w2); [exact Hk|].
      now rewrite Hk.
Qed.

(** X10: the first successful installation makes its version active.
    When no version is active and nobody else holds the lock, a call
    of [install_solc] that succeeds leaves the checked version
    active. *)
Theorem install_solc_activates_first_version
        (script : list LockEvent) (version v' : string)
        (allow_osx show_progress : bool) (solcx_binary_path : option path)
        (w w' : World) :
  uncontended script = true ->
  given (solc_version w) = false ->
  _check_version version = Ok v' ->
  install_solc script version allow_osx show_progress solcx_binary_path w
  = (Ok tt, w') ->
  solc_version w' = Some v'.
Proof.
  intros Hfree Hnone Hv Hrun.
  destruct _get_platform as [platform|e] eqn:Hp;
    [|rewrite (install_solc_bad_platform _ _ _ _ _ _ _ Hp) in Hrun;
      discriminate].
  rewrite (install_solc_acquired _ _ _ _ _ _ _ _ Hp Hv Hfree) in Hrun.
  apply bind_ok in Hrun as (u & wA & Hacq & Hrun).
  unfold get_process_lock, lock_acquired, bind, get_world, set_held, log
    in Hacq. injection Hacq as _ <-.
  set (wA := mkWorld (fs w) (cwd w) (solc_version w) (v' :: held w)
                     (EvLockAcquired v' :: trace w)) in *.
  destruct (release_after unit
              (install_locked platform v' allow_osx show_progress
                              solcx_binary_path)
              v' wA) as (Hr & _ & _ & Hsv & _).
  unfold get_process_lock in Hrun. rewrite Hrun in Hr, Hsv.
  cbn [fst snd] in Hr, Hsv. rewrite Hsv. clear Hrun Hsv.
  destruct (install_locked platform v' allow_osx show_progress
                           solcx_binary_path wA) as [r wB] eqn:Hlocked.
  cbn [fst snd] in *. subst r.
  unfold install_locked in Hlocked.
  apply bind_ok in Hlocked as (u1 & w1 & H1 & Hlocked).
  apply bind_ok in Hlocked as (bin & w2 & H2 & Hlocked).
  apply bind_ok in Hlocked as (n & w3 & H3 & Hlocked).
  apply bind_ok in Hlocked as (w4 & w5 & H4 & Hlocked).
  unfold get_world in H4. injection H4 as <- <-.
  pose proof (keeps_install_platform platform v' allow_osx show_progress
                                     solcx_binary_path wA) as K1.
  pose proof (keeps_get_executable (Some v') solcx_binary_path w1) as K2.
  pose proof (keeps_check_subprocess_call [bin; "--version"] w2) as K3.
  rewrite H1 in K1. rewrite H2 in K2. rewrite H3 in K3. cbn [snd] in *.
  assert (Hsame : solc_version w3 = solc_version w)
    by (unfold wA in K1; cbn [solc_version] in K1; congruence).
  rewrite Hsame, Hnone in Hlocked. cbn [negb] in Hlocked.
  unfold set_solc_version in Hlocked.
  apply bind_ok in Hlocked as (v'' & w6 & Hcheck & Hlocked).
  unfold lift in Hcheck. injection Hcheck as Hcheck <-.
  destruct (check_version_inv _ _ Hv) as (v & Hparse & Hm & Hv').
  pose proof (check_version_of_parsed _ _ Hparse Hm) as Hagain.
  rewrite <- Hv' in Hagain. rewrite Hagain in Hcheck.
  injection Hcheck as <-.
  apply bind_ok in Hlocked as (bin' & w7 & _ & Hlocked).
  unfold set_global_solc_version in Hlocked. now injection Hlocked as <-.
Qed.

End KeepsVersion.

(** X9 on a Linux machine where v0.4.25 is active and v0.5.0 gets
    installed. *)
Lemma install_solc_keeps_active_version_witness :
  solc_version
    (snd (install_solc (H := Samples.host "linux" 200 "ELF" 0) [] "0.5.0"
            false false None
            (Samples.world (Samples.fs_with "solc-v0.4.25" (File "ELF" true))
                           (Some "v0.4.25"))))
  = Some "v0.4.25".
Proof.
  exact (install_solc_keeps_active_version
           (H := Samples.host "linux" 200 "ELF" 0) [] "0.5.0" false false None
           (Samples.world (Samples.fs_with "solc-v0.4.25" (File "ELF" true))
                          (Some "v0.4.25"))
           eq_refl).
Defined.

(** X10 on a fresh Linux account. *)
Lemma install_solc_activates_first_version_witness :
  solc_version
    (snd (install_solc (H := Samples.host "linux" 200 "ELF" 0) [] "0.5.0"
            false false None (Samples.world Samples.fresh_fs None)))
  = Some "v0.5.0".
Proof.
  apply (install_solc_activates_first_version
           (H := Samples.host "linux" 200 "ELF" 0) [] "0.5.0" "v0.5.0"
           false false None (Samples.world Samples.fresh_fs None)).
  - reflexivity.
  - reflexivity.
  - vm_compute. reflexivity.
  - vm_compute. reflexivity.
Defined.

(** ** What the normalisation of the combined output leaves alone *)

Section Untouched.

Context {T : Toolchain}.

Lemma field_set_other (k k' : string) (x : json) (fields : list (string * json)) :
  k <> k' ->
  field k (JObj (assoc_set k' x fields)) = field k (JObj fields).
Proof.
  intros Hk. cbn [field]. apply assoc_get_set_other.
  apply String.eqb_neq. exact Hk.
Qed.

Lemma py_setitem_other (v v' : json) (k k' : string) (x : json) :
  py_setitem v k' x = Ok v' -> k <> k' -> field k v' = field k v.
Proof.
  destruct v; try discriminate. cbn [py_setitem].
  intros Hv Hk. injection Hv as <-. now apply field_set_other.
Qed.

Lemma parse_entry_other (sources : json) (path_str : string)
      (data data' : json) (k : string) :
  parse_entry sources path_str data = Ok data' ->
  k <> "abi" -> k <> "ast" ->
  field k data' = field k data.
Proof.
  intros Hrun Habi Hast. unfold parse_entry in Hrun.
  destruct (py_in "abi" data) as [has_abi|]; [|discriminate].
  cbn [rbind] in Hrun.
  assert (Hdata1 : forall data1,
            (if has_abi
             then (let? raw := py_getitem data "abi" in
                   let? abi := loads_value raw in
                   py_setitem data "abi" abi)%res
             else Ok data) = Ok data1 ->
            field k data1 = field k data).
  { intros data1. destruct has_abi.
    - destruct (py_getitem data "abi") as [raw|]; [|discriminate].
      cbn [rbind]. destruct (loads_value raw) as [abi|]; [|discriminate].
      cbn [rbind]. intros Hset. exact (py_setitem_other _ _ _ _ _ Hset Habi).
    - intros Heq. now injection Heq as <-. }
  destruct (if has_abi
            then (let? raw := py_getitem data "abi" in
                  let? abi := loads_value raw in
                  py_setitem data "abi" abi)%res
            else Ok data) as [data1|]; [|discriminate].
  specialize (Hdata1 data1 eq_refl). cbn [rbind] in Hrun.
  destruct (py_get sources (Str.before_last ":" path_str) (JObj []))
    as [source|]; [|discriminate].
  cbn [rbind] in Hrun.
  destruct (py_in "AST" source) as [[|]|]; [| |discriminate];
    cbn [rbind] in Hrun.
  - destruct (py_getitem sources (Str.before_last ":" path_str))
      as [entry|]; [|discriminate].
    cbn [rbind] in Hrun.
    destruct (py_getitem entry "AST") as [ast|]; [|discriminate].
    cbn [rbind] in Hrun.
    now rewrite (py_setitem_other _ _ _ _ _ Hrun Hast).
  - now injection Hrun as <-.
Qed.

Lemma parse_loop_other (sources : json) (items items' : list (string * json)) :
  parse_loop sources items = Ok items' ->
  Forall2 (fun kv kv' =>
             fst kv' = fst kv
             /\ forall k, k <> "abi" -> k <> "ast" ->
                          field k (snd kv') = field k (snd kv))
          items items'.
Proof.
  revert items'. induction items as [|[key data] items IH]; intros items'.
  - cbn [parse_loop]. intros Heq. injection Heq as <-. constructor.
  - cbn [parse_loop].
    destruct (parse_entry sources key data) as [data'|] eqn:Hentry;
      [|discriminate].
    cbn [rbind].
    destruct (parse_loop sources items) as [rest|]; [|discriminate].
    cbn [rbind]. intros Heq. injection Heq as <-.
    constructor; [|now apply IH].
    cbn [fst snd]. split; [reflexivity|].
    intros k Habi Hast. exact (parse_entry_other _ _ _ _ _ Hentry Habi Hast).
Qed.

(** X11: [_parse_compiler_output] touches the "abi" and "ast" fields
    only.  What it returns has the contracts of the compiler's output
    under the same keys and in the same order, and in each contract
    every other field is what the compiler printed. *)
Theorem parse_compiler_output_keeps_other_fields
        (stdout : string) (output : json) (contracts : list (string * json))
        (result : json) :
  json_loads stdout = Ok output ->
  py_get output "contracts" (JObj []) = Ok (JObj contracts) ->
  _parse_compiler_output stdout = Ok result ->
  exists contracts',
    result = JObj contracts'
    /\ map fst contracts' = map fst contracts
    /\ Forall2 (fun kv kv' =>
                  fst kv' = fst kv
                  /\ forall k, k <> "abi" -> k <> "ast" ->
                               field k (snd kv') = field k (snd kv))
               contracts contracts'.
Proof.
  intros Hloads Hcontracts Hrun. unfold _parse_compiler_output in Hrun.
  rewrite Hloads in Hrun. cbn [rbind] in Hrun.
  rewrite Hcontracts in Hrun. cbn [rbind] in Hrun.
  destruct (py_get output "sources" (JObj [])) as [sources|]; [|discriminate].
  cbn [rbind py_items] in Hrun.
  destruct (parse_loop sources contracts) as [contracts'|] eqn:Hloop;
    [|discriminate].
  cbn [rbind] in Hrun. injection Hrun as <-.
  exists contracts'. split; [reflexivity|].
  pose proof (parse_loop_other _ _ _ Hloop) as Hall.
  split; [|exact Hall].
  clear Hloop Hcontracts.
  induction Hall as [|kv kv' l l' [Hk _] _ IH]; [reflexivity|].
  cbn [map]. f_equal; [exact Hk|exact IH].
Qed.

End Untouched.

(** X11 on the output of a compiler for one contract with its ABI and
    its bytecode. *)
Lemma parse_compiler_output_keeps_other_fields_witness :
  exists contracts',
    JObj [("a.sol:A",
           JObj [("abi", Samples.abi_value); ("bin", JStr "6080");
                 ("ast", Samples.ast_value)])]
    = JObj contracts'
    /\ map fst contracts' = ["a.sol:A"]
    /\ Forall2 (fun kv kv' =>
                  fst kv' = fst kv
                  /\ forall k, k <> "abi" -> k <> "ast" ->
                               field k (snd kv') = field k (snd kv))
               [("a.sol:A",
                 JObj [("abi", JStr Samples.abi_text); ("bin", JStr "6080")])]
               contracts'.
Proof.
  apply (parse_compiler_output_keeps_other_fields
           (T := Samples.toolchain "combined"
                   [("combined", Samples.combined_output);
                    (Samples.abi_text, Samples.abi_value)])
           "combined" Samples.combined_output
           [("a.sol:A",
             JObj [("abi", JStr Samples.abi_text); ("bin", JStr "6080")])]).
  - reflexivity.
  - reflexivity.
  - vm_compute. reflexivity.
Defined.

(** ** The installed versions *)

Lemma insert_sorted_in (x y : string) (l : list string) :
  In y (Str.insert_sorted x l) <-> y = x \/ In y l.
Proof.
  induction l as [|z l IH]; cbn [Str.insert_sorted In].
  - intuition.
  - destruct (String.leb x z); cbn [In]; rewrite ?IH; intuition.
Qed.

Lemma sorted_in (y : string) (l : list string) :
  In y (Str.sorted l) <-> In y l.
Proof.
  induction l as [|x l IH]; cbn [Str.sorted In]; [reflexivity|].
  rewrite insert_sorted_in, IH. intuition.
Qed.



Lemma prefix_inv (p s : string) :
  String.prefix p s = true -> exists r, s = p ++ r.
Proof.
  revert s. induction p as [|c p IH]; intros s.
  - intros _. now exists s.
  - destruct s as [|a s]; cbn [String.prefix]; [discriminate|].
    destruct (ascii_dec c a) as [->|]; [|discriminate].
    intros Hp. destruct (IH s Hp) as [r ->]. now exists r.
Qed.

Lemma entry_get_in (k : string) (l : list (string * node)) :
  In k (map fst l) <-> entry_get k l <> None.
Proof.
  induction l as [|[k' v] l IH]; cbn [map fst In entry_get].
  - intuition.
  - destruct (String.eqb k k') eqn:Hk.
    + apply String.eqb_eq in Hk. subst k'. split; [discriminate|auto].
    + apply String.eqb_neq in Hk. rewrite <- IH. split; [|auto].
      intros [Heq|Hin]; [congruence|exact Hin].
Qed.

Section Installed.

Context {H : Host}.

(** Away from Windows a string that starts with "v" is listed exactly
    when its path is in place. *)
Lemma installed_versions_in (solcx_binary_path : option path) (w w' : World)
      (versions : list string) (v : string) :
  get_installed_solc_versions solcx_binary_path w = (Ok versions, w') ->
  String.eqb sys_platform "win32" = false ->
  In v versions
  <-> Str.startswith v "v" = true
      /\ exists_ (fs w') (install_path v solcx_binary_path) = true.
Proof.
  intros Hrun Hplatform. unfold get_installed_solc_versions in Hrun.
  apply bind_ok in Hrun as (folder & w1 & Hfolder & Hrun).
  destruct (get_solc_folder_ok_inv _ _ _ _ Hfolder) as [-> _].
  unfold bind, get_world, ret in Hrun. injection Hrun as <- <-.
  rewrite sorted_in, in_map_iff.
  unfold glob_solc_v, install_path, exists_, joinpath. rewrite lookup_app.
  destruct (lookup (fs w1) (solc_folder solcx_binary_path))
    as [[c x|entries]|].
  - split; [now intros (name & _ & [])|now intros [_ Hex]].
  - cbn [lookup]. split.
    + intros (name & <- & Hin). apply filter_In in Hin as [Hin Hglob].
      unfold names in Hin. rewrite nodup_In in Hin.
      unfold glob_match in Hglob. rewrite Hplatform in Hglob.
      unfold Str.startswith in Hglob.
      destruct (prefix_inv _ _ Hglob) as [r ->].
      change (Str.drop 5 ("solc-v" ++ r)) with (String "v" r).
      split; [now destruct r|].
      apply entry_get_in in Hin.
      change (match
                match entry_get ("solc-v" ++ r) entries with
                | Some child => Some child
                | None => None
                end
              with
              | Some _ => true
              | None => false
              end = true).
      now destruct (entry_get ("solc-v" ++ r) entries).
    + intros [Hv Hex]. unfold Str.startswith in Hv.
      destruct (prefix_inv _ _ Hv) as [r ->].
      exists ("solc-v" ++ r). split; [reflexivity|].
      apply filter_In. split.
      * unfold names. rewrite nodup_In. apply entry_get_in.
        change ("solc-" ++ "v" ++ r) with ("solc-v" ++ r) in Hex.
        now destruct (entry_get ("solc-v" ++ r) entries).
      * unfold glob_match. rewrite Hplatform. unfold Str.startswith.
        apply (prefix_app "solc-v" r).
  - split; [now intros (name & _ & [])|now intros [_ Hex]].
Qed.


End Installed.


(** ** The available versions *)

Lemma field_getitem (name : string) (j x : json) :
  field name j = Some x -> py_getitem j name = Ok x.
Proof.
  destruct j; try discriminate. cbn [field py_getitem]. now intros ->.
Qed.

Lemma field_truthy (name : string) (j x : json) :
  field name j = Some x -> truthy j = true.
Proof.
  destruct j as [| | | | | |fields]; try discriminate.
  cbn [field truthy]. now destruct fields.
Qed.

Lemma first_asset_found (pattern : string) (names : list string)
      (items : list json) :
  Forall2 asset_named names items ->
  exists asset,
    first_asset pattern items = Ok asset
    /\ truthy asset = existsb (Re.matches (Re.compile pattern)) names.
Proof.
  induction 1 as [|name j names items Hname _ [asset [IH1 IH2]]].
  - now exists (JBool false).
  - unfold asset_named in Hname. cbn [first_asset existsb].
    rewrite (field_getitem _ _ _ Hname). cbn [rbind re_match].
    destruct (Re.matches (Re.compile pattern) name).
    + exists j. split; [reflexivity|]. exact (field_truthy _ _ _ Hname).
    + now exists asset.
Qed.

Lemma scan_releases_spec (pattern : string) (releases : list Release)
      (items versions : list json) :
  Forall2 release_of releases items ->
  scan_releases pattern items versions
  = Ok (versions
        ++ map (fun r => JStr (tag_name r))
               (filter (has_asset pattern) (up_to_minimal releases)))%list.
Proof.
  intros Hall. revert versions.
  induction Hall as [|r j releases items [Htag (assets' & Hassets & Hnames)]
                      _ IH]; intros versions.
  - cbn. now rewrite app_nil_r.
  - cbn [scan_releases up_to_minimal].
    rewrite (field_getitem _ _ _ Hassets). cbn [rbind py_iter].
    destruct (first_asset_found pattern _ _ Hnames) as (asset & -> & Htruthy).
    cbn [rbind]. rewrite Htruthy. fold (has_asset pattern r).
    rewrite (field_getitem _ _ _ Htag).
    destruct (has_asset pattern r) eqn:Hhas; cbn [rbind str_eq];
      destruct (String.eqb (tag_name r) MINIMAL_SOLC_VERSION);
      cbn [filter map]; rewrite ?Hhas; cbn [filter map];
      rewrite ?IH, <- ?app_assoc, ?app_nil_r; reflexivity.
Qed.

Section Available.

Context {H : Host} {G : Github}.

(** X13: on a feed of release objects [get_available_solc_versions]
    answers, in the order of the feed, with the tags of the releases
    that have an asset matching the platform's pattern, and it reads
    the feed no further than the first release tagged v0.4.11: what
    comes after that release is never listed. *)
Theorem get_available_solc_versions_scans_to_minimal
        (headers : option Headers) (w : World) (platform pattern : string)
        (data : ApiResponse) (releases : list Release) (items : list json) :
  _get_platform = Ok platform ->
  assoc_get platform VERSION_REGEX = Some pattern ->
  requests_get_headers ALL_RELEASES (request_headers headers) = Ok data ->
  api_status_code data = 200 ->
  api_json data = Ok (JArr items) ->
  Forall2 release_of releases items ->
  get_available_solc_versions headers w
  = (Ok (map (fun r => JStr (tag_name r))
             (filter (has_asset pattern) (up_to_minimal releases))),
     mkWorld (fs w) (cwd w) (solc_version w) (held w)
             (EvGet ALL_RELEASES :: trace w)).
Proof.
  intros Hplatform Hpattern Hget Hstatus Hjson Hall.
  unfold get_available_solc_versions, bind, lift, log.
  rewrite Hplatform, Hpattern. cbv zeta.
  cbn [fs cwd solc_version held trace].
  rewrite Hget, Hstatus. cbn [Nat.eqb negb]. rewrite Hjson.
  cbn [py_iter].
  now rewrite (scan_releases_spec pattern releases items [] Hall).
Qed.

End Available.

(** X13 on a Linux machine: of four releases the two with a Linux binary
    down to v0.4.11 are listed, the older v0.4.10 is not. *)
Lemma get_available_solc_versions_scans_to_minimal_witness :
  get_available_solc_versions
    (H := Samples.host "linux" 200 "" 0)
    (G := Samples.github 200 (Ok Samples.feed))
    None (Samples.world Samples.fresh_fs None)
  = (Ok [JStr "v0.5.7"; JStr "v0.4.11"],
     mkWorld Samples.fresh_fs ["home"; "user"] None [] [EvGet ALL_RELEASES]).
Proof.
  apply (get_available_solc_versions_scans_to_minimal
           (H := Samples.host "linux" 200 "" 0)
           (G := Samples.github 200 (Ok Samples.feed))
           None (Samples.world Samples.fresh_fs None)
           "linux" "solc-static-linux"
           (mkApiResponse 200 (Ok Samples.feed))
           [mkRelease "v0.5.7"
              ["solc-static-linux"; "solidity-windows.zip";
               "solidity_0.5.7.tar.gz"];
            mkRelease "v0.5.6" ["solidity_0.5.6.tar.gz"];
            mkRelease "v0.4.11" ["solc-static-linux"; "solidity-windows.zip"];
            mkRelease "v0.4.10" ["solc-static-linux"]]
           Samples.feed_items).
  - reflexivity.
  - reflexivity.
  - reflexivity.
  - reflexivity.
  - reflexivity.
  - repeat constructor; eexists; split; try reflexivity; repeat constructor.
Defined.

(** The three asset patterns on asset names: the dots of a pattern
    stand for any character, and a name may go on after the match. *)
Example asset_patterns :
  Re.matches (Re.compile "solidity_[0-9].[0-9].[0-9]{1,}.tar.gz")
             "solidity_0.5.12.tar.gz" = true
  /\ Re.matches (Re.compile "solidity_[0-9].[0-9].[0-9]{1,}.tar.gz")
                "solidity_0.5.12-tar-gz.sig" = true
  /\ Re.matches (Re.compile "solidity_[0-9].[0-9].[0-9]{1,}.tar.gz")
                "solidity_0.10.1.tar.gz" = false
  /\ Re.matches (Re.compile "solidity_[0-9].[0-9].[0-9]{1,}.tar.gz")
                "solidity_0.5.123tar.gz" = true
  /\ Re.matches (Re.compile "solc-static-linux") "solc-static-linux.asc" = true
  /\ Re.matches (Re.compile "solidity-windows.zip") "solidity-windows_zip" = true
  /\ Re.matches (Re.compile "solidity-windows.zip") "solidity-windows" = false.
Proof. repeat split; vm_compute; reflexivity. Qed.

(** ** Linking *)

Lemma replace_from_plain (code rest : string) (fuel : nat) :
  plain_code code = true ->
  Str.replace_from (String.length code + fuel) "Linking completed." ""
                   (code ++ rest)
  = code ++ Str.replace_from fuel "Linking completed." "" rest.
Proof.
  unfold plain_code.
  induction code as [|a code IH];
    cbn [list_ascii_of_string forallb append String.length Nat.add];
    [reflexivity|].
  intros Hplain. apply andb_true_iff in Hplain as [Ha Hcode].
  apply andb_true_iff in Ha as [_ Ha]. apply negb_true_iff in Ha.
  cbn [Str.replace_from String.prefix].
  destruct (ascii_dec "L" a) as [<-|_]; [discriminate|].
  now rewrite (IH Hcode).
Qed.

Lemma lstrip_space_plain (code rest : string) :
  plain_code code = true -> Str.all_space rest = true ->
  Str.lstrip_space (code ++ rest)
  = match code with EmptyString => "" | _ => code ++ rest end.
Proof.
  unfold plain_code. destruct code as [|a code];
    cbn [list_ascii_of_string forallb append].
  - intros _. induction rest as [|b rest IH];
      cbn [Str.all_space Str.lstrip_space]; [reflexivity|].
    intros Hrest. apply andb_true_iff in Hrest as [-> Hrest]. exact (IH Hrest).
  - intros Hplain _. apply andb_true_iff in Hplain as [Ha _].
    apply andb_true_iff in Ha as [Ha _]. apply negb_true_iff in Ha.
    cbn [Str.lstrip_space]. now rewrite Ha.
Qed.

Lemma rstrip_space_plain (code rest : string) :
  plain_code code = true -> Str.all_space rest = true ->
  Str.rstrip_space (code ++ rest) = code.
Proof.
  unfold plain_code. intros Hplain Hrest.
  induction code as [|a code IH];
    cbn [list_ascii_of_string forallb append] in *.
  - destruct rest as [|b rest]; [reflexivity|].
    cbn [Str.rstrip_space]. now rewrite Hrest.
  - apply andb_true_iff in Hplain as [Ha Hcode].
    apply andb_true_iff in Ha as [Ha _]. apply negb_true_iff in Ha.
    cbn [Str.rstrip_space Str.all_space]. rewrite Ha. cbn [andb].
    now rewrite (IH Hcode).
Qed.

Lemma library_args_strings (libraries : list (string * string)) :
  library_args (map (fun kv => (fst kv, JStr (snd kv))) libraries)
  = Ok (map (fun kv => fst kv ++ ":" ++ snd kv) libraries).
Proof.
  induction libraries as [|[name address] libraries IH];
    cbn [map library_args fst snd]; [reflexivity|].
  rewrite IH. reflexivity.
Qed.

Section Linking.

Context {T : Toolchain}.

(** X14: [link_code] hands the compiler the bytecode on its standard
    input, the [link] flag and the libraries as [name:address] items
    separated by commas, in the order of the dict; and when the compiler
    prints the linked code, a line feed, its closing line
    "Linking completed." and a line feed, the call returns the linked
    code alone. *)
Theorem link_code_returns_linked_code
        (unlinked_bytecode code : string) (libraries : list (string * string))
        (out : WrapperResult) :
  solc_wrapper
    [("stdin", JStr unlinked_bytecode); ("link", JBool true);
     ("libraries",
      JStr (Str.join "," (map (fun kv => fst kv ++ ":" ++ snd kv) libraries)))]
  = Ok out ->
  stdoutdata out = code ++ newline ++ "Linking completed." ++ newline ->
  plain_code code = true ->
  link_code unlinked_bytecode
            (JObj (map (fun kv => (fst kv, JStr (snd kv))) libraries))
  = Ok code.
Proof.
  intros Hwrap Hout Hplain. unfold link_code. cbn [py_items rbind].
  rewrite library_args_strings. cbn [rbind]. rewrite Hwrap. cbn [rbind].
  rewrite Hout. f_equal. unfold Str.replace.
  assert (Hlen : exists fuel,
             S (String.length (code ++ newline ++ "Linking completed."
                                    ++ newline))
             = String.length code + S (S (S (S fuel)))).
  { exists 17. rewrite string_length_app.
    change (String.length (newline ++ "Linking completed." ++ newline))
      with 20.
    lia. }
  destruct Hlen as [fuel ->].
  rewrite (replace_from_plain code _ _ Hplain).
  change (Str.replace_from (S (S (S (S fuel)))) "Linking completed." ""
            (newline ++ "Linking completed." ++ newline))
    with (newline ++ newline).
  unfold Str.strip.
  rewrite (lstrip_space_plain code (newline ++ newline) Hplain eq_refl).
  destruct code as [|a code]; [reflexivity|].
  exact (rstrip_space_plain (String a code) (newline ++ newline) Hplain
                            eq_refl).
Qed.

End Linking.

(** X14 on a bytecode with one library. *)
Lemma link_code_returns_linked_code_witness :
  link_code
    (T := Samples.toolchain
            ("6060f00d" ++ newline ++ "Linking completed." ++ newline) [])
    "6060__Lib__" (JObj [("Lib", JStr "0xf00d")])
  = Ok "6060f00d".
Proof.
  apply (link_code_returns_linked_code
           (T := Samples.toolchain
                   ("6060f00d" ++ newline ++ "Linking completed." ++ newline)
                   [])
           "6060__Lib__" "6060f00d" [("Lib", "0xf00d")]
           (mkWrapperResult
              ("6060f00d" ++ newline ++ "Linking completed." ++ newline)
              "" ["solc"] 0%Z)).
  - reflexivity.
  - reflexivity.
  - reflexivity.
Defined.

(** ** The feed, the headers and the pragma *)

Lemma to_string_not_empty (v : Version) : String.eqb (to_string v) "" = false.
Proof.
  unfold to_string.
  destruct (Str.of_N (major v)); reflexivity.
Qed.

Lemma select_pragma_version_not_empty (pragma_string : string)
      (version_list : list Version) (version : string) :
  _select_pragma_version pragma_string version_list = Ok (Some version) ->
  String.eqb version "" = false.
Proof.
  unfold _select_pragma_version.
  destruct (select_loop _ version_list None) as [[v|]|e]; cbn [rbind option_map];
    try discriminate.
  intros Heq. injection Heq as <-. apply to_string_not_empty.
Qed.

Section Feed.

Context {H : Host} {G : Github}.

(** X15: [get_available_solc_versions] returns a list only when GitHub
    answered with status 200, and by then it has sent one request, to
    [ALL_RELEASES], and changed nothing else. *)
Theorem get_available_solc_versions_needs_200
        (headers : option Headers) (w w' : World) (versions : list json) :
  get_available_solc_versions headers w = (Ok versions, w') ->
  (exists data,
      requests_get_headers ALL_RELEASES (request_headers headers) = Ok data
      /\ api_status_code data = 200)
  /\ w' = mkWorld (fs w) (cwd w) (solc_version w) (held w)
                  (EvGet ALL_RELEASES :: trace w).
Proof.
  unfold get_available_solc_versions, bind, lift, log, raise.
  destruct _get_platform as [platform|e]; [|discriminate].
  destruct (assoc_get platform VERSION_REGEX) as [pattern|]; [|discriminate].
  cbv zeta. cbn [fs cwd solc_version held trace].
  destruct (requests_get_headers ALL_RELEASES (request_headers headers))
    as [data|e]; [|discriminate].
  destruct (Nat.eqb (api_status_code data) 200) eqn:Hstatus; cbn [negb].
  - apply Nat.eqb_eq in Hstatus.
    destruct (api_json data) as [body|e]; [|discriminate].
    destruct (py_iter body) as [releases|e]; [|discriminate].
    intros Hrun. injection Hrun as _ <-. split; [|reflexivity].
    now exists data.
  - destruct (api_json data) as [body|e]; [|discriminate].
    destruct (py_getitem body "message"); discriminate.
Qed.


(** X17: [install_solc_pragma] answers with the version that
    [_select_pragma_version] selects among the available ones.  When
    nothing is selected it raises the "does not exist" error and has
    installed nothing; when a version is selected and [install] is
    false it returns that version with nothing done beyond reading the
    feed; with [install] set it returns that version after
    [install_solc] has succeeded for it, with macOS builds not
    allowed. *)
Theorem install_solc_pragma_selects
        (script : list LockEvent) (pragma_string : string)
        (install show_progress : bool) (solcx_binary_path : option path)
        (w w1 : World) (available : list json) (version_list : list Version)
        (selected : option string) :
  get_available_solc_versions None w = (Ok available, w1) ->
  versions_of available = Ok version_list ->
  _select_pragma_version pragma_string version_list = Ok selected ->
  install_solc_pragma script pragma_string install show_progress
                      solcx_binary_path w
  = match selected with
    | None =>
        (Raise (ValueError "Compatible solc version does not exist"), w1)
    | Some version =>
        if install
        then
          match install_solc script version false show_progress
                             solcx_binary_path w1 with
          | (Ok _, w2) => (Ok version, w2)
          | (Raise e, w2) => (Raise e, w2)
          end
        else (Ok version, w1)
    end.
Proof.
  intros Havailable Hversions Hselect.
  unfold install_solc_pragma. unfold bind at 1. rewrite Havailable.
  unfold bind at 1, lift at 1. rewrite Hversions.
  unfold bind at 1, lift at 1. rewrite Hselect.
  destruct selected as [version|]; [|reflexivity].
  rewrite (select_pragma_version_not_empty _ _ _ Hselect).
  destruct install; [|reflexivity].
  unfold bind, ret.
  now destruct (install_solc script version false show_progress
                             solcx_binary_path w1) as [[[]|e] w2].
Qed.

(** X18: [set_solc_version_pragma] selects among the installed
    versions of the default install folder.  When none of them matches
    the pragma it raises [SolcNotInstalled], and the message names no
    version: it is built with the [None] that the selection returned.
    When one matches and [check_new] is false, the selected version goes
    through [_check_version] and the result becomes the active version,
    with nothing else changed. *)
Theorem set_solc_version_pragma_selects_installed
        (pragma_string : string) (silent : bool) (w w1 : World)
        (installed : list string) (version_list : list Version)
        (selected : option string) :
  get_installed_solc_versions None w = (Ok installed, w1) ->
  versions_of (map JStr installed) = Ok version_list ->
  _select_pragma_version pragma_string version_list = Ok selected ->
  match selected with
  | None =>
      forall check_new,
        set_solc_version_pragma pragma_string silent check_new w
        = (Raise (SolcNotInstalled
                    ("No compatible solc version installed."
                     ++ " Use solcx.install_solc_version_pragma('None')"
                     ++ " to install.")),
           w1)
  | Some version =>
      set_solc_version_pragma pragma_string silent false w
      = match _check_version version with
        | Ok v' =>
            (Ok tt, mkWorld (fs w1) (cwd w1) (Some v') (held w1) (trace w1))
        | Raise e => (Raise e, w1)
        end
  end.
Proof.
  intros Hinstalled Hversions Hselect.
  destruct selected as [version|]; [|intros check_new];
    unfold set_solc_version_pragma; unfold bind at 1; rewrite Hinstalled;
    unfold bind at 1, lift at 1; rewrite Hversions;
    unfold bind at 1, lift at 1; rewrite Hselect.
  - unfold given. rewrite (select_pragma_version_not_empty _ _ _ Hselect).
    cbn [negb]. unfold bind at 1, lift at 1.
    destruct (_check_version version) as [v'|e]; reflexivity.
  - reflexivity.
Qed.

End Feed.

(** X15 on the sample feed. *)
Lemma get_available_solc_versions_needs_200_witness :
  (exists data,
      requests_get_headers (Github := Samples.github 200 (Ok Samples.feed))
        ALL_RELEASES
        (request_headers (G := Samples.github 200 (Ok Samples.feed)) None)
      = Ok data
      /\ api_status_code data = 200)
  /\ mkWorld Samples.fresh_fs ["home"; "user"] None [] [EvGet ALL_RELEASES]
     = mkWorld Samples.fresh_fs ["home"; "user"] None [] [EvGet ALL_RELEASES].
Proof.
  exact (get_available_solc_versions_needs_200
           (H := Samples.host "linux" 200 "" 0)
           (G := Samples.github 200 (Ok Samples.feed))
           None (Samples.world Samples.fresh_fs None)
           (mkWorld Samples.fresh_fs ["home"; "user"] None []
                    [EvGet ALL_RELEASES])
           [JStr "v0.5.7"; JStr "v0.4.11"] eq_refl).
Defined.

(** X17 on the sample feed: the newest release with a Linux binary that
    the pragma admits. *)
Lemma install_solc_pragma_selects_witness :
  install_solc_pragma
    (H := Samples.host "linux" 200 "" 0)
    (G := Samples.github 200 (Ok Samples.feed))
    [] "^0.5.0" false false None (Samples.world Samples.fresh_fs None)
  = (Ok "0.5.7",
     mkWorld Samples.fresh_fs ["home"; "user"] None [] [EvGet ALL_RELEASES]).
Proof.
  exact (install_solc_pragma_selects
           (H := Samples.host "linux" 200 "" 0)
           (G := Samples.github 200 (Ok Samples.feed))
           [] "^0.5.0" false false None
           (Samples.world Samples.fresh_fs None)
           (mkWorld Samples.fresh_fs ["home"; "user"] None []
                    [EvGet ALL_RELEASES])
           [JStr "v0.5.7"; JStr "v0.4.11"]
           [mkVersion 0 5 7; mkVersion 0 4 11] (Some "0.5.7")
           eq_refl eq_refl eq_refl).
Defined.

(** X18 with v0.4.25 installed: a pragma for 0.4 makes it the active
    version, a pragma for 0.5 finds nothing. *)
Lemma set_solc_version_pragma_selects_installed_witness :
  set_solc_version_pragma
    (H := Samples.host "linux" 200 "" 0)
    (G := Samples.github 200 (Ok Samples.feed))
    "^0.4.11" false false
    (Samples.world (Samples.fs_with "solc-v0.4.25" (File "ELF" true)) None)
  = (Ok tt,
     mkWorld (Samples.fs_with "solc-v0.4.25" (File "ELF" true))
             ["home"; "user"] (Some "v0.4.25") [] [])
  /\ forall check_new,
       set_solc_version_pragma
         (H := Samples.host "linux" 200 "" 0)
         (G := Samples.github 200 (Ok Samples.feed))
         "^0.5.0" false check_new
         (Samples.world (Samples.fs_with "solc-v0.4.25" (File "ELF" true))
                        None)
       = (Raise (SolcNotInstalled
                   ("No compatible solc version installed."
                    ++ " Use solcx.install_solc_version_pragma('None')"
                    ++ " to install.")),
          Samples.world (Samples.fs_with "solc-v0.4.25" (File "ELF" true))
                        None).
Proof.
  split.
  - exact (set_solc_version_pragma_selects_installed
             (H := Samples.host "linux" 200 "" 0)
             (G := Samples.github 200 (Ok Samples.feed))
             "^0.4.11" false
             (Samples.world (Samples.fs_with "solc-v0.4.25" (File "ELF" true))
                            None)
             (Samples.world (Samples.fs_with "solc-v0.4.25" (File "ELF" true))
                            None)
             ["v0.4.25"] [mkVersion 0 4 25] (Some "0.4.25")
             eq_refl eq_refl eq_refl).
  - exact (set_solc_version_pragma_selects_installed
             (H := Samples.host "linux" 200 "" 0)
             (G := Samples.github 200 (Ok Samples.feed))
             "^0.5.0" false
             (Samples.world (Samples.fs_with "solc-v0.4.25" (File "ELF" true))
                            None)
             (Samples.world (Samples.fs_with "solc-v0.4.25" (File "ELF" true))
                            None)
             ["v0.4.25"] [mkVersion 0 4 25] None
             eq_refl eq_refl eq_refl).
Defined.

(** ** The version a pragma activates *)

Lemma maximum_in (v : Version) (r : list Version) : In (maximum v r) (v :: r).
Proof.
  revert v. induction r as [|y r IH]; intros v; cbn [maximum]; [now left|].
  destruct (IH (if ltb v y then y else v)) as [Heq|Hin]; [|now right; right].
  rewrite <- Heq. destruct (ltb v y); [right; now left|now left].
Qed.

Lemma select_in (c : Clause) (l : list Version) (v : Version) :
  select c l = Some v -> In v l.
Proof.
  unfold select. destruct (filter (matches c) l) as [|x r] eqn:Hf;
    [discriminate|].
  intros Heq. injection Heq as <-.
  apply (proj1 (filter_In (matches c) (maximum x r) l)).
  rewrite Hf. apply maximum_in.
Qed.

Lemma select_loop_in (sets : list string) (l : list Version)
      (version : option Version) (v : Version) :
  select_loop sets l version = Ok (Some v) ->
  version = Some v \/ In v l.
Proof.
  revert version. induction sets as [|set sets IH]; intros version;
    cbn [select_loop].
  - intros Heq. injection Heq as ->. now left.
  - destruct (SimpleSpec (findall set)) as [spec|e]; cbn [rbind];
      [|discriminate].
    intros Hloop. destruct (IH _ Hloop) as [Hv|Hin]; [|now right].
    destruct (select spec l) as [selected|] eqn:Hsel; [|now left].
    destruct version as [v0|].
    + destruct (ltb v0 selected); injection Hv as ->;
        [right; exact (select_in _ _ _ Hsel)|now left].
    + injection Hv as ->. right. exact (select_in _ _ _ Hsel).
Qed.

Lemma versions_of_in (installed : list string) (l : list Version)
      (v : Version) :
  versions_of (map JStr installed) = Ok l -> In v l ->
  exists name, In name installed /\ parse (tail name) = Some v.
Proof.
  revert l. induction installed as [|name installed IH]; intros l;
    cbn [map versions_of version_of_tag].
  - intros Heq. injection Heq as <-. intros [].
  - unfold new_Version.
    destruct (parse (tail name)) as [x|] eqn:Hparse; cbn [rbind];
      [|discriminate].
    destruct (versions_of (map JStr installed)) as [rest|e]; cbn [rbind];
      [|discriminate].
    intros Heq. injection Heq as <-. intros [<-|Hin].
    + exists name. split; [now left|exact Hparse].
    + destruct (IH rest eq_refl Hin) as (n & Hn & Hp).
      exists n. split; [now right|exact Hp].
Qed.

Section Activate.

Context {H : Host} {G : Github}.

(** X19: away from Windows, what [set_solc_version_pragma] makes the
    active version is an installed version of the default folder in
    normal form: some entry [solc-v...] of the folder has a name whose
    version text parses to a version [v] of at least 0.4.11, and the
    active version is ["v"] followed by the text of [v]. *)
Theorem set_solc_version_pragma_activates_installed
        (pragma_string : string) (silent : bool) (w w' : World) :
  String.eqb sys_platform "win32" = false ->
  set_solc_version_pragma pragma_string silent false w = (Ok tt, w') ->
  exists (name : string) (v : Version),
    Str.startswith name "v" = true
    /\ exists_ (fs w') (install_path name None) = true
    /\ parse (tail name) = Some v
    /\ matches minimal_spec v = true
    /\ solc_version w' = Some ("v" ++ to_string v).
Proof.
  intros Hplatform. unfold set_solc_version_pragma. unfold bind at 1.
  destruct (get_installed_solc_versions None w) as [[installed|e] w1]
    eqn:Hinstalled; [|discriminate].
  unfold bind at 1, lift at 1.
  destruct (versions_of (map JStr installed)) as [l|e] eqn:Hl;
    [|discriminate].
  unfold bind at 1, lift at 1.
  destruct (_select_pragma_version pragma_string l) as [selected|e]
    eqn:Hselect; [|discriminate].
  destruct selected as [version|]; [|discriminate].
  unfold given. rewrite (select_pragma_version_not_empty _ _ _ Hselect).
  cbn [negb]. unfold bind at 1, lift at 1.
  destruct (_check_version version) as [v'|e] eqn:Hcheck; [|discriminate].
  unfold bind, set_global_solc_version, ret. intros Hrun.
  injection Hrun as <-. cbn [fs solc_version].
  unfold _select_pragma_version in Hselect.
  destruct (select_loop _ l None) as [[v|]|e] eqn:Hloop;
    cbn [rbind option_map] in Hselect; try discriminate.
  injection Hselect as <-.
  destruct (select_loop_in _ _ _ _ Hloop) as [Hnone|Hin]; [discriminate|].
  destruct (versions_of_in _ _ _ Hl Hin) as (name & Hname & Hparse).
  destruct (check_version_inv _ _ Hcheck) as (v0 & Hparse0 & Hm & ->).
  rewrite lstrip_to_string, (parse_to_string_parse _ _ Hparse) in Hparse0.
  injection Hparse0 as <-.
  apply (installed_versions_in None w w1 installed name Hinstalled Hplatform)
    in Hname as [Hv Hex].
  exists name, v. auto.
Qed.

End Activate.

(** X19 with v0.4.25 and v0.5.7 installed and a pragma for 0.4. *)
Lemma set_solc_version_pragma_activates_installed_witness :
  exists (name : string) (v : Version),
    Str.startswith name "v" = true
    /\ exists_ (Samples.fs_two_versions) (install_path
                   (H := Samples.host "linux" 200 "" 0) name None) = true
    /\ parse (tail name) = Some v
    /\ matches minimal_spec v = true
    /\ Some "v0.4.25" = Some ("v" ++ to_string v).
Proof.
  exact (set_solc_version_pragma_activates_installed
           (H := Samples.host "linux" 200 "" 0)
           (G := Samples.github 200 (Ok Samples.feed))
           "^0.4.11" false
           (Samples.world Samples.fs_two_versions None)
           (Samples.world Samples.fs_two_versions (Some "v0.4.25"))
           eq_refl eq_refl).
Defined.
